(** * MiniTrainStore: listing reconciliation and Odoo synchronisation

    A shallow embedding of the browser extension's background script
    ([entrypoints/background.ts]), of its Odoo client ([services/odoo.ts])
    and of the data types they share ([types/product.ts]).

    Conventions of the embedding.
    - JavaScript strings are [string]s, read as UTF-8 bytes.  White space is
      the white space of [\s] and of [trim], the Unicode characters
      included; [toLowerCase] is exact for every letter whose small letter
      is an ASCII or a Latin-1 letter and leaves the other letters as they
      are; the regular expression [/Train wagon/gi], which has no [u] flag,
      matches the ASCII letters of the phrase in both cases and nothing
      else.
    - [Record<string, T>] objects used as dictionaries are [gmap string T],
      which holds the own properties.  A read or an [in] test of a name
      that is not an own property finds the property of that name of
      [Object.prototype], if there is one.  One write is not followed:
      the assignment under the name [__proto__] sets the prototype and
      stores no property, where the model stores the value as under any
      other name.
    - [price : number] keeps the one value on which [!==] is not the negation
      of equality, [NaN].
    - An optional property ([thumbnail?]) is absent, present with the value
      [undefined], or present with a string: object spread copies the last
      two and skips the first.
    - Asynchronous code is run to completion in program order.  The remote
      server and the clock are oracles; the requests sent, the resolver
      caches and what [console.error] reports are threaded as state.
      [console.log] and [console.warn] are left out.
    - The server answers as the wire contract has it: the search endpoints
      with an array of records that carry an [id], create with an array of
      ids or one id.  The storage area never fails. *)

From Stdlib Require Import ZArith Ascii String List Bool Lia.
From stdpp Require Import base option list gmap strings fin_maps.

Open Scope string_scope.
Open Scope Z_scope.

(** ** JavaScript string operations *)

Module JsString.

Definition is_upper (c : ascii) : bool :=
  let n := nat_of_ascii c in (Nat.leb 65 n && Nat.leb n 90)%bool.

Definition lower_ascii (c : ascii) : ascii :=
  if is_upper c then ascii_of_nat (nat_of_ascii c + 32) else c.

(** Second byte of a two-byte UTF-8 sequence led by 0xC3: U+00C0..U+00DE
    without the multiplication sign U+00D7 are capitals, 32 below their
    small letters. *)
Definition lower_latin1 (c : ascii) : ascii :=
  let n := nat_of_ascii c in
  if (Nat.leb 128 n && Nat.leb n 158 && negb (Nat.eqb n 151))%bool
  then ascii_of_nat (n + 32) else c.

Definition is_lead_c3 (c : ascii) : bool := Nat.eqb (nat_of_ascii c) 195.

(** A string from the codes of its bytes. *)
Definition bytes (codes : list Z) : string :=
  fold_right (fun n s => String (ascii_of_nat (Z.to_nat n)) s) EmptyString
             codes.

(** [s] without its first [n] bytes. *)
Fixpoint drop (n : nat) (s : string) : string :=
  match n, s with
  | S k, String _ s' => drop k s'
  | _, _ => s
  end.

(** The first entry of a table whose first component starts [s]. *)
Definition starting {A} (table : list (string * A)) (s : string)
  : option (string * A) :=
  List.find (fun e => String.prefix (fst e) s) table.

(** The capitals outside Latin-1 whose small letter is an ASCII or a
    Latin-1 letter, in UTF-8, with their small letters: U+0130, U+0178,
    U+1E9E, the Kelvin sign U+212A and the Angstrom sign U+212B. *)
Definition far_capitals : list (string * string) :=
  [ (bytes [196; 176], bytes [105; 204; 135]);
    (bytes [197; 184], bytes [195; 191]);
    (bytes [225; 186; 158], bytes [195; 159]);
    (bytes [226; 132; 170], bytes [107]);
    (bytes [226; 132; 171], bytes [195; 165]) ].

(** [skip] counts the bytes of the current capital still to drop; [lead]
    says that the byte before was 0xC3. *)
Fixpoint lower_from (lead : bool) (skip : nat) (s : string) : string :=
  match s with
  | EmptyString => EmptyString
  | String c s' =>
      match skip with
      | S k => lower_from false k s'
      | O =>
          match starting far_capitals s with
          | Some (capital, small) =>
              small ++ lower_from false (String.length capital - 1) s'
          | None =>
              String (if lead then lower_latin1 c else lower_ascii c)
                     (lower_from (is_lead_c3 c) O s')
          end
      end
  end.

(** [s.toLowerCase()]: exact on ASCII, on Latin-1 and on every letter whose
    small letter is in ASCII or Latin-1; other letters are left as they
    are. *)
Definition toLowerCase (s : string) : string := lower_from false O s.

(** The characters that [\s] matches and that [trim] removes, in UTF-8:
    TAB, LF, VT, FF, CR, space, U+00A0, U+1680, U+2000 to U+200A, U+2028,
    U+2029, U+202F, U+205F, U+3000 and U+FEFF. *)
Definition white_space : list string :=
  [ bytes [9]; bytes [10]; bytes [11]; bytes [12]; bytes [13]; bytes [32];
    bytes [194; 160]; bytes [225; 154; 128];
    bytes [226; 128; 128]; bytes [226; 128; 129]; bytes [226; 128; 130];
    bytes [226; 128; 131]; bytes [226; 128; 132]; bytes [226; 128; 133];
    bytes [226; 128; 134]; bytes [226; 128; 135]; bytes [226; 128; 136];
    bytes [226; 128; 137]; bytes [226; 128; 138];
    bytes [226; 128; 168]; bytes [226; 128; 169]; bytes [226; 128; 175];
    bytes [226; 129; 159]; bytes [227; 128; 128]; bytes [239; 187; 191] ].

(** What follows the white space character at the start of [s], if there
    is one. *)
Definition space_at (s : string) : option string :=
  match List.find (fun w => String.prefix w s) white_space with
  | Some w => Some (drop (String.length w) s)
  | None => None
  end.

(** [skip] counts the bytes of the current white space character still to
    drop. *)
Fixpoint split_from (cur : string) (in_gap : bool) (skip : nat) (s : string)
  : list string :=
  match s with
  | EmptyString => [cur]
  | String c s' =>
      match skip with
      | S k => split_from cur in_gap k s'
      | O =>
          match space_at s with
          | Some rest =>
              let k := (String.length s' - String.length rest)%nat in
              if in_gap then split_from cur true k s'
              else cur :: split_from EmptyString true k s'
          | None => split_from (cur ++ String c EmptyString) false O s'
          end
      end
  end.

(** [s.split(/\s+/)]: a leading or trailing run of white space leaves an
    empty first or last piece, as in JavaScript. *)
Definition split_ws (s : string) : list string :=
  split_from EmptyString false O s.

(** [s.includes(k)] *)
Fixpoint includes (s k : string) : bool :=
  (String.prefix k s ||
   match s with
   | EmptyString => false
   | String _ s' => includes s' k
   end)%bool.

(** [s] without the white space at its start; [fuel] bounds the number of
    characters dropped. *)
Fixpoint drop_spaces (fuel : nat) (s : string) : string :=
  match fuel with
  | O => s
  | S fuel' =>
      match space_at s with
      | Some rest => drop_spaces fuel' rest
      | None => s
      end
  end.

(** [s.trimStart()] *)
Definition trimStart (s : string) : string :=
  drop_spaces (String.length s) s.

(** [s] is white space from its first to its last byte. *)
Definition only_spaces (s : string) : bool :=
  match trimStart s with EmptyString => true | _ => false end.

(** [s.trimEnd()] *)
Fixpoint trimEnd (s : string) : string :=
  match s with
  | EmptyString => EmptyString
  | String c s' => if only_spaces s then EmptyString else String c (trimEnd s')
  end.

(** [s.trim()] *)
Definition trim (s : string) : string := trimEnd (trimStart s).

(** [pat] matches at the start of [s] when letter case is ignored; the
    result is what follows the match. *)
Fixpoint match_ci (pat s : string) : option string :=
  match pat, s with
  | EmptyString, _ => Some s
  | String _ _, EmptyString => None
  | String p pat', String c s' =>
      if Ascii.eqb (lower_ascii p) (lower_ascii c) then match_ci pat' s' else None
  end.

(** [skip] counts the characters of the current match still to drop. *)
Fixpoint remove_from (pat : string) (skip : nat) (s : string) : string :=
  match s with
  | EmptyString => EmptyString
  | String c s' =>
      match skip with
      | S k => remove_from pat k s'
      | O =>
          match pat, match_ci pat s with
          | String _ pat', Some _ => remove_from pat (String.length pat') s'
          | _, _ => String c (remove_from pat O s')
          end
      end
  end.

(** [s.replace(/pat/gi, "")] for a literal, non-empty [pat]: the matches
    are taken from left to right and do not overlap. *)
Definition removeAll_ci (pat s : string) : string := remove_from pat O s.

(** [s.replace(/\n/g, r)] *)
Fixpoint replaceNewlines (r s : string) : string :=
  match s with
  | EmptyString => EmptyString
  | String c s' =>
      if Nat.eqb (nat_of_ascii c) 10 then r ++ replaceNewlines r s'
      else String c (replaceNewlines r s')
  end.

(** [s.replace("T", " ")]: the first occurrence only *)
Fixpoint replaceFirstT (s : string) : string :=
  match s with
  | EmptyString => EmptyString
  | String c s' =>
      if Nat.eqb (nat_of_ascii c) 84 then String " "%char s'
      else String c (replaceFirstT s')
  end.

(** [s.split(".")[0]] *)
Fixpoint beforeDot (s : string) : string :=
  match s with
  | EmptyString => EmptyString
  | String c s' =>
      if Nat.eqb (nat_of_ascii c) 46 then EmptyString
      else String c (beforeDot s')
  end.

(** Truthiness of a string: only the empty string is falsy. *)
Definition truthy (s : string) : bool :=
  match s with EmptyString => false | _ => true end.

End JsString.

(** ** types/product.ts *)

Inductive ProductState := ACTIVE | SOLD | REMOVED.

#[global] Instance ProductState_eq_dec : EqDecision ProductState.
Proof. solve_decision. Defined.

(** A JavaScript number as far as [!==] can tell. *)
Inductive number := NaN | Num (z : Z).

#[global] Instance number_eq_dec : EqDecision number.
Proof. solve_decision. Defined.

(** [a !== b] on numbers *)
Definition number_sne (a b : number) : bool :=
  match a, b with
  | Num x, Num y => negb (x =? y)
  | _, _ => true
  end.

(** An optional string property of an object. *)
Inductive optional := Missing | Undefined | Str (s : string).

#[global] Instance optional_eq_dec : EqDecision optional.
Proof. solve_decision. Defined.

(** Reading the property: [None] is [undefined]. *)
Definition read (o : optional) : option string :=
  match o with Str s => Some s | _ => None end.

(** The property of [{...a, ...b}]. *)
Definition spread_optional (a b : optional) : optional :=
  match b with Missing => a | _ => b end.

Module ProductListing.
Record t := mk {
  id : string;
  title : string;
  price : number;
  url : string;
  datePosted : string;
  date : string;
  state : ProductState;
  thumbnail : optional
}.

(** [{...l, state: s}] *)
Definition with_state (l : t) (s : ProductState) : t :=
  mk (id l) (title l) (price l) (url l) (datePosted l) (date l) s (thumbnail l).

(** [{...a, ...b}] *)
Definition spread (a b : t) : t :=
  mk (id b) (title b) (price b) (url b) (datePosted b) (date b) (state b)
     (spread_optional (thumbnail a) (thumbnail b)).
End ProductListing.

#[global] Instance ProductListing_eq_dec : EqDecision ProductListing.t.
Proof. solve_decision. Defined.

Module ProductDetail.
Record t := mk {
  id : string;
  description : string;
  photos : list string;
  scrapedAt : string
}.
End ProductDetail.

Module OdooExportStatus.
Record t := mk {
  exported : bool;
  odooProductId : option Z;
  lastExportedAt : option string;
  exportError : option string
}.
End OdooExportStatus.

(** [Product extends ProductListing] *)
Module Product.
Record t := mk {
  id : string;
  title : string;
  price : number;
  url : string;
  datePosted : string;
  date : string;
  state : ProductState;
  thumbnail : optional;
  description : option string;
  photos : option (list string);
  detailsScrapedAt : option string;
  odooExport : option OdooExportStatus.t
}.

(** [{...p, title: s}] *)
Definition with_title (p : t) (s : string) : t :=
  mk (id p) s (price p) (url p) (datePosted p) (date p) (state p)
     (thumbnail p) (description p) (photos p) (detailsScrapedAt p)
     (odooExport p).
End Product.

Module ProfileData.
Record t := mk {
  username : string;
  profileName : option string;
  listings : gmap string ProductListing.t;
  details : gmap string ProductDetail.t;
  odooExports : option (gmap string OdooExportStatus.t);
  lastScraped : string
}.
End ProfileData.

(** ** services/odoo.ts: classification of titles *)

Definition TAGS_MAP : list (string * list string) :=
  [ ("Jouef", ["jouef"]);
    ("Lima", ["lima"]);
    ("Hornby", ["hornby"]);
    ("Roco", ["roco"]);
    ("Piko", ["piko"]);
    ("Märklin", ["marklin"; "märklin"]);
    ("Fleischmann", ["fleischmann"]);
    ("H0", ["ho"]);
    ("SNCF", ["sncf"]) ].

Definition CATEGORY_MAP : list (string * list string) :=
  [ ("Wagons",
      ["wagon"; "wagons"; "voiture"; "voitures"; "fourgon"; "allège";
       "remorque"]);
    ("Locomotives",
      ["locomotive"; "locomotives"; "locotracteur"; "locotender"; "autorail"]);
    ("Rails",
      ["trails"; "rail"; "aiguillage"; "voie"; "rails"; "aiguillages";
       "voies"; "croisement"; "jonction"; "tjd"; "heurtoir"; "heurtoirs"]);
    ("Décor", ["personnages"; "personnage"; "tunnel"; "conteneurs"; "bureau"]);
    ("Coffrets", ["coffret"; "coffrets"]) ].

(** [keywords.some((keyword) => titleWords.some((word) => word.includes(keyword)))] *)
Definition matches (titleWords keywords : list string) : bool :=
  existsb (fun keyword =>
             existsb (fun word => JsString.includes word keyword) titleWords)
          keywords.

Definition titleWords (p : Product.t) : list string :=
  JsString.split_ws (JsString.toLowerCase (Product.title p)).

Definition getTags (p : Product.t) : list string :=
  map fst (List.filter (fun e => matches (titleWords p) (snd e)) TAGS_MAP).

Definition getCategory (p : Product.t) : option string :=
  option_map fst (List.find (fun e => matches (titleWords p) (snd e)) CATEGORY_MAP).

(** A product that carries only a title, for the examples. *)
Definition titled (s : string) : Product.t :=
  Product.mk "1" s (Num 0) "" "" "" ACTIVE Missing None None None None.

(** ** entrypoints/background.ts: the listing store *)

(** [a !== b] on strings, states and property values *)
Definition string_sne (a b : string) : bool := negb (String.eqb a b).

Definition state_sne (a b : ProductState) : bool := negb (bool_decide (a = b)).

Definition value_sne (a b : option string) : bool := negb (bool_decide (a = b)).

Definition hasChanged (existingListing listing : ProductListing.t) : bool :=
  (string_sne (ProductListing.title existingListing) (ProductListing.title listing)
   || number_sne (ProductListing.price existingListing) (ProductListing.price listing)
   || state_sne (ProductListing.state existingListing) (ProductListing.state listing)
   || string_sne (ProductListing.datePosted existingListing)
                 (ProductListing.datePosted listing)
   || string_sne (ProductListing.url existingListing) (ProductListing.url listing)
   || value_sne (read (ProductListing.thumbnail existingListing))
                (read (ProductListing.thumbnail listing)))%bool.

Record MergeResult := mkMerge {
  merged : gmap string ProductListing.t;
  added : nat;
  updated : nat
}.

(** The names of the properties that every object literal inherits from
    [Object.prototype]: reading [object[name]] finds a function there (the
    prototype itself at [__proto__]) when the object has no property of its
    own with that name, and [name in object] holds. *)
Definition Object_prototype : list string :=
  [ "constructor"; "__defineGetter__"; "__defineSetter__"; "hasOwnProperty";
    "__lookupGetter__"; "__lookupSetter__"; "isPrototypeOf";
    "propertyIsEnumerable"; "toString"; "valueOf"; "__proto__";
    "toLocaleString" ].

Definition inherited (name : string) : bool :=
  bool_decide (name ∈ Object_prototype).

(** The body of [newListings.forEach((listing) => ...)].  When [merged] has
    no listing of its own under the id but inherits a property of that
    name, [existingListing] is that function: it is truthy, each of the six
    fields read from it is [undefined] and so differs from the field of
    [listing], and it spreads to nothing.  (An assignment to
    [merged["__proto__"]] that finds no property of that name sets the
    prototype of [merged]; the model stores the listing, and the properties
    of what is stored leave this key out.) *)
Definition merge_step (acc : MergeResult) (listing : ProductListing.t) : MergeResult :=
  match merged acc !! ProductListing.id listing with
  | Some existingListing =>
      if hasChanged existingListing listing
      then mkMerge (<[ProductListing.id listing :=
                       ProductListing.spread existingListing listing]> (merged acc))
                   (added acc) (S (updated acc))
      else acc
  | None =>
      if inherited (ProductListing.id listing)
      then mkMerge (<[ProductListing.id listing := listing]> (merged acc))
                   (added acc) (S (updated acc))
      else mkMerge (<[ProductListing.id listing := listing]> (merged acc))
                   (S (added acc)) (updated acc)
  end.

Definition mergeListingsWithStats (existing : gmap string ProductListing.t)
    (newListings : list ProductListing.t) : MergeResult :=
  fold_left merge_step newListings (mkMerge existing 0 0).

(** The value under the storage key [local:profiles]; [None] before the
    first write. *)
Abbreviation Storage := (option (gmap string ProfileData.t)).

(** [(await storage.getItem("local:profiles")) || {}] *)
Definition getProfilesItem (st : Storage) : gmap string ProfileData.t :=
  default ∅ st.

(** [a || b] where [a] is an optional string *)
Definition or_else (a b : option string) : option string :=
  match a with
  | Some s => if JsString.truthy s then Some s else b
  | None => b
  end.

(** [handleSaveProducts]; [now] is [new Date().toISOString()].  The result
    is the statistics returned and the storage left behind. *)
Definition handleSaveProducts (now : string) (st : Storage) (username : string)
    (newProducts : list ProductListing.t) (profileName : option string)
  : (nat * nat) * Storage :=
  let profiles := getProfilesItem st in
  let existingProfile := profiles !! username in
  let existingListings := default ∅ (ProfileData.listings <$> existingProfile) in
  let existingDetails := default ∅ (ProfileData.details <$> existingProfile) in
  let r := mergeListingsWithStats existingListings newProducts in
  let profile :=
    ProfileData.mk username
      (or_else profileName (existingProfile ≫= ProfileData.profileName))
      (merged r) existingDetails None now in
  ((added r, updated r), Some (<[username := profile]> profiles)).

(** The body of the loop over [Object.entries(profile.listings)]: the
    accumulator is [profile.listings] as updated so far and [removedCount]. *)
Definition mark_step (currentIdsSet : gset string)
    (acc : gmap string ProductListing.t * nat) (entry : string * ProductListing.t)
  : gmap string ProductListing.t * nat :=
  let '(id, listing) := entry in
  if (negb (bool_decide (id ∈ currentIdsSet))
      && state_sne (ProductListing.state listing) REMOVED)%bool
  then (<[id := ProductListing.with_state listing REMOVED]> acc.1, S acc.2)
  else acc.

Definition mark_loop (currentIdsSet : gset string)
    (listings : gmap string ProductListing.t)
  : gmap string ProductListing.t * nat :=
  fold_left (mark_step currentIdsSet) (map_to_list listings) (listings, 0%nat).

Definition with_listings (p : ProfileData.t)
    (ls : gmap string ProductListing.t) : ProfileData.t :=
  ProfileData.mk (ProfileData.username p) (ProfileData.profileName p) ls
    (ProfileData.details p) (ProfileData.odooExports p) (ProfileData.lastScraped p).

Definition with_odooExports (p : ProfileData.t)
    (exports : gmap string OdooExportStatus.t) : ProfileData.t :=
  ProfileData.mk (ProfileData.username p) (ProfileData.profileName p)
    (ProfileData.listings p) (ProfileData.details p) (Some exports)
    (ProfileData.lastScraped p).

(** [markMissingAsRemoved]: the storage left behind. *)
Definition markMissingAsRemoved (st : Storage) (username : string)
    (currentIds : list string) : Storage :=
  let profiles := getProfilesItem st in
  match profiles !! username with
  | None => st
  | Some profile =>
      let currentIdsSet : gset string := list_to_set currentIds in
      let '(listings, removedCount) :=
        mark_loop currentIdsSet (ProfileData.listings profile) in
      if Nat.ltb 0 removedCount
      then Some (<[username := with_listings profile listings]> profiles)
      else st
  end.

(** The listings stored for a user; empty when there is no such profile. *)
Definition stored_listings (st : Storage) (username : string)
  : gmap string ProductListing.t :=
  default ∅ (ProfileData.listings <$> (getProfilesItem st !! username)).

(** ** services/odoo.ts: the remote catalogue *)

Inductive exn :=
| Error (message : string)
| TypeError (message : string)
| RangeError (message : string).

(** [String(error)] *)
Definition String_of (e : exn) : string :=
  let '(name, message) :=
    match e with
    | Error m => ("Error", m)
    | TypeError m => ("TypeError", m)
    | RangeError m => ("RangeError", m)
    end in
  match message with
  | EmptyString => name
  | _ => name ++ ": " ++ message
  end.

(** [productData]: [product_tag_ids], [taxes_id], [public_categ_ids] and
    [product_template_image_ids] hold the ids of their one
    replace-all command [[6, 0, ids]]. *)
Module OdooDict.
Record t := mk {
  name : string;
  list_price : number;
  website_published : bool;
  qty_available : Z;
  description_ecommerce : string;
  product_tag_ids : list Z;
  taxes_id : list Z;
  create_date : string;
  publish_date : string;
  write_date : string;
  image_1920 : option string;
  product_template_image_ids : option (list Z);
  categ_id : option Z;
  public_categ_ids : option (list Z)
}.

Definition with_categ_id (d : t) (c : Z) : t :=
  mk (name d) (list_price d) (website_published d) (qty_available d)
     (description_ecommerce d) (product_tag_ids d) (taxes_id d)
     (create_date d) (publish_date d) (write_date d) (image_1920 d)
     (product_template_image_ids d) (Some c) (public_categ_ids d).

Definition with_public_categ_ids (d : t) (ids : list Z) : t :=
  mk (name d) (list_price d) (website_published d) (qty_available d)
     (description_ecommerce d) (product_tag_ids d) (taxes_id d)
     (create_date d) (publish_date d) (write_date d) (image_1920 d)
     (product_template_image_ids d) (categ_id d) (Some ids).
End OdooDict.

(** What is posted.  [Get] is the body-less download of an image. *)
Inductive RequestBody :=
| Domain (name : string)
| Archive (ids : list Z)
| ValsList (vals : OdooDict.t)
| WriteVals (ids : list Z) (vals : OdooDict.t)
| Get.

(** A request: the endpoint handed to [buildApiUrl] (or the URL of the
    image) and the body. *)
Record Request := mkRequest { endpoint : string; body : RequestBody }.

(** The JSON bodies the client reads: an array, given by the [id] fields of
    its records (search endpoints) or by its numbers (create), or a value
    that is no array; [JScalar 0] stands for the falsy ones ([null], [0]),
    another [JScalar] for the truthy ones. *)
Inductive Json := JArray (ids : list Z) | JScalar (n : Z).

(** A response as the client sees it: [statusError] is the message
    [raiseForStatus] builds when [ok] is false, [json] the parsed body
    ([None] when [parseJsonResponse] throws, with message [parseError]),
    [base64] what [downloadImageAsBase64] resolves to. *)
Record Response := mkResponse {
  ok : bool;
  statusError : string;
  json : option Json;
  parseError : string;
  base64 : string
}.

(** [fetch] resolves or rejects. *)
Inductive FetchResult := Resolved (r : Response) | Rejected (e : exn).

(** The module-level caches, the requests sent so far (oldest first) and the
    [console.error] reports. *)
Record World := mkWorld {
  TAGS_ID_CACHE : gmap string Z;
  CATEGORY_ID_CACHE : gmap string Z;
  PUBLIC_CATEGORY_ID_CACHE : gmap string Z;
  TAX_ID_CACHE : gmap string Z;
  sent : list Request;
  console : list string
}.

Inductive outcome (A : Type) :=
| Return (a : A)
| Throw (e : exn).
Arguments Return {A} a.
Arguments Throw {A} e.

(** An asynchronous computation run to completion. *)
Definition M (A : Type) : Type := World → outcome A * World.

Definition ret {A} (a : A) : M A := fun w => (Return a, w).

Definition throw {A} (e : exn) : M A := fun w => (Throw e, w).

Definition bind {A B} (m : M A) (k : A → M B) : M B :=
  fun w =>
    match m w with
    | (Return a, w') => k a w'
    | (Throw e, w') => (Throw e, w')
    end.

(** [try { m } catch (error) { h error }] *)
Definition try_catch {A} (m : M A) (h : exn → M A) : M A :=
  fun w =>
    match m w with
    | (Return a, w') => (Return a, w')
    | (Throw e, w') => h e w'
    end.

Declare Scope js_scope.
Delimit Scope js_scope with js.
Notation "'let!' x ':=' m 'in' k" := (bind m (fun x => k))
  (at level 10, x name, m at level 100, k at level 200) : js_scope.
Notation "'do!' m 'in' k" := (bind m (fun _ => k))
  (at level 10, m at level 100, k at level 200) : js_scope.

(** [console.error(message)] *)
Definition console_error (message : string) : M unit :=
  fun w =>
    (Return tt,
     mkWorld (TAGS_ID_CACHE w) (CATEGORY_ID_CACHE w) (PUBLIC_CATEGORY_ID_CACHE w)
             (TAX_ID_CACHE w) (sent w) (console w ++ [message])).

Open Scope js_scope.

Definition log_request (req : Request) (w : World) : World :=
  mkWorld (TAGS_ID_CACHE w) (CATEGORY_ID_CACHE w) (PUBLIC_CATEGORY_ID_CACHE w)
          (TAX_ID_CACHE w) (sent w ++ [req]) (console w).

Definition set_TAGS_ID_CACHE (name : string) (id : Z) : M unit :=
  fun w =>
    (Return tt,
     mkWorld (<[name := id]> (TAGS_ID_CACHE w)) (CATEGORY_ID_CACHE w)
             (PUBLIC_CATEGORY_ID_CACHE w) (TAX_ID_CACHE w) (sent w) (console w)).

Definition set_CATEGORY_ID_CACHE (name : string) (id : Z) : M unit :=
  fun w =>
    (Return tt,
     mkWorld (TAGS_ID_CACHE w) (<[name := id]> (CATEGORY_ID_CACHE w))
             (PUBLIC_CATEGORY_ID_CACHE w) (TAX_ID_CACHE w) (sent w) (console w)).

Definition set_PUBLIC_CATEGORY_ID_CACHE (name : string) (id : Z) : M unit :=
  fun w =>
    (Return tt,
     mkWorld (TAGS_ID_CACHE w) (CATEGORY_ID_CACHE w)
             (<[name := id]> (PUBLIC_CATEGORY_ID_CACHE w)) (TAX_ID_CACHE w)
             (sent w) (console w)).

Definition set_TAX_ID_CACHE (name : string) (id : Z) : M unit :=
  fun w =>
    (Return tt,
     mkWorld (TAGS_ID_CACHE w) (CATEGORY_ID_CACHE w) (PUBLIC_CATEGORY_ID_CACHE w)
             (<[name := id]> (TAX_ID_CACHE w)) (sent w) (console w)).

(** [cache.get(name)] on one of the four caches *)
Definition cache_get (cache : World → gmap string Z) (name : string)
  : M (option Z) :=
  fun w => (Return (cache w !! name), w).

(** [Promise.all(ms)]: every computation is started; the model runs them
    one after the other, each to its end, and reports the first rejection
    in that order. *)
Fixpoint promise_all {A} (ms : list (M A)) : M (list A) :=
  match ms with
  | [] => ret []
  | m :: ms' =>
      fun w =>
        let '(r, w1) := m w in
        let '(rs, w2) := promise_all ms' w1 in
        (match r, rs with
         | Throw e, _ => Throw e
         | Return _, Throw e => Throw e
         | Return a, Return l => Return (a :: l)
         end, w2)
  end.

Record OdooExportResult := mkExport {
  success : bool;
  productId : option Z;
  created : bool;
  updated_ : bool;
  archived : bool;
  error : option string
}.

(** The counters and the error list of [exportProducts]. *)
Record Counters := mkCounters {
  n_created : nat;
  n_updated : nat;
  n_archived : nat;
  errors : list (string * string)
}.

Record OdooBulkExportResult := mkBulk {
  bulk_success : bool;
  bulk_created : nat;
  bulk_updated : nat;
  bulk_archived : nat;
  bulk_errors : list (string * string)
}.

Section OdooService.

(** The server: the answer to a request, given the requests sent before. *)
Variable respond : list Request → Request → FetchResult.

(** [new Date(s).toISOString()]; [None] when the date is invalid. *)
Variable toISOString : string → option string.

Definition fetch (req : Request) : M Response :=
  fun w =>
    match respond (sent w) req with
    | Resolved r => (Return r, log_request req w)
    | Rejected e => (Throw e, log_request req w)
    end.

Definition raiseForStatus (response : Response) : M unit :=
  if ok response then ret tt else throw (Error (statusError response)).

Definition parseJsonResponse (response : Response) : M Json :=
  match json response with
  | Some j => ret j
  | None => throw (Error (parseError response))
  end.

(** [!records || records.length === 0] gives [None]; otherwise
    [records[0].id]. *)
Definition first_id (records : Json) : M (option Z) :=
  match records with
  | JArray [] => ret None
  | JArray (id :: _) => ret (Some id)
  | JScalar n =>
      if n =? 0 then ret None
      else throw (TypeError "Cannot read properties of undefined (reading 'id')")
  end.

Definition searchProduct (product : Product.t) : M (option Z) :=
  try_catch
    (let! response :=
       fetch (mkRequest "/product.template/search_read"
                        (Domain (Product.title product))) in
     do! raiseForStatus response in
     let! records := parseJsonResponse response in
     first_id records)
    (fun error =>
       do! console_error ("[Odoo] Search failed: " ++ String_of error) in
       throw error).

Definition archiveProduct (productIds : list Z) : M unit :=
  let! response :=
    fetch (mkRequest "/product.template/action_archive" (Archive productIds)) in
  raiseForStatus response.

Definition getCategoryId (categoryName : string) : M Z :=
  let! cached := cache_get CATEGORY_ID_CACHE categoryName in
  match cached with
  | Some id => ret id
  | None =>
      let! response :=
        fetch (mkRequest "/product.category/search_read" (Domain categoryName)) in
      do! raiseForStatus response in
      let! records := parseJsonResponse response in
      let! first := first_id records in
      match first with
      | None =>
          throw (Error ("Category '" ++ categoryName ++ "' not found in Odoo."))
      | Some id =>
          do! set_CATEGORY_ID_CACHE categoryName id in
          ret id
      end
  end.

Definition getPublicCategoryId (categoryName : string) : M (option Z) :=
  let! cached := cache_get PUBLIC_CATEGORY_ID_CACHE categoryName in
  match cached with
  | Some id => ret (Some id)
  | None =>
      let! response :=
        fetch (mkRequest "/product.public.category/search" (Domain categoryName)) in
      do! raiseForStatus response in
      let! records := parseJsonResponse response in
      let! first := first_id records in
      match first with
      | None => ret None
      | Some id =>
          do! set_PUBLIC_CATEGORY_ID_CACHE categoryName id in
          ret (Some id)
      end
  end.

Definition getTagId (tagName : string) : M Z :=
  let! cached := cache_get TAGS_ID_CACHE tagName in
  match cached with
  | Some id => ret id
  | None =>
      let! response :=
        fetch (mkRequest "/product.tag/search_read" (Domain tagName)) in
      do! raiseForStatus response in
      let! records := parseJsonResponse response in
      let! first := first_id records in
      match first with
      | None => throw (Error ("Tag '" ++ tagName ++ "' not found in Odoo."))
      | Some id =>
          do! set_TAGS_ID_CACHE tagName id in
          ret id
      end
  end.

Definition taxName : string := "0% EXEMPT G".

Definition getTaxId : M Z :=
  let! cached := cache_get TAX_ID_CACHE taxName in
  match cached with
  | Some id => ret id
  | None =>
      let! response :=
        fetch (mkRequest "/account.tax/search_read" (Domain taxName)) in
      do! raiseForStatus response in
      let! records := parseJsonResponse response in
      let! first := first_id records in
      match first with
      | None => throw (Error ("Tax '" ++ taxName ++ "' not found in Odoo."))
      | Some id =>
          do! set_TAX_ID_CACHE taxName id in
          ret id
      end
  end.

Definition stringToHtml (s : string) : string :=
  JsString.replaceNewlines "<br/>" s.

Definition downloadImageAsBase64 (url : string) : M string :=
  let! response := fetch (mkRequest url Get) in
  if ok response then ret (base64 response)
  else throw (Error ("Failed to download image from " ++ url)).

(** [loadImages]: [firstImage] and [imageIds] (always empty). *)
Definition loadImages (product : Product.t) : M (option string * list Z) :=
  match Product.photos product with
  | None | Some [] => ret (None, [])
  | Some (photo :: _) =>
      let! firstImage :=
        try_catch
          (let! data := downloadImageAsBase64 photo in ret (Some data))
          (fun error =>
             do! console_error
                   ("Error downloading first image: " ++ String_of error) in
             ret None) in
      ret (firstImage, [])
  end.

(** [new Date(date).toISOString().replace("T", " ").split(".")[0]] *)
Definition createdDate (date : string) : M string :=
  match toISOString date with
  | Some iso => ret (JsString.beforeDot (JsString.replaceFirstT iso))
  | None => throw (RangeError "Invalid time value")
  end.

(** The [try] block that sets the category mutates [productData]: what
    was assigned before an exception stays.  The block is therefore split
    after the assignment of [categ_id]. *)
Definition setCategory (product : Product.t) (category : string)
    (productData : OdooDict.t) : M OdooDict.t :=
  let report error :=
    console_error ("Error setting category for product "
                   ++ Product.title product ++ ": " ++ String_of error) in
  let! categ :=
    try_catch (let! id := getCategoryId category in ret (Some id))
              (fun error => do! report error in ret None) in
  match categ with
  | None => ret productData
  | Some id =>
      let productData := OdooDict.with_categ_id productData id in
      try_catch
        (let! publicCategoryId := getPublicCategoryId category in
         match publicCategoryId with
         | Some pid =>
             if pid =? 0 then ret productData
             else ret (OdooDict.with_public_categ_ids productData [pid])
         | None => ret productData
         end)
        (fun error => do! report error in ret productData)
  end.

(** [productToOdooDict] up to the construction of [productData]. *)
Definition buildProductData (product : Product.t) : M OdooDict.t :=
let tags := getTags product in
let! tagsIds := promise_all (map getTagId tags) in
let! taxId := getTaxId in
let description := default "" (Product.description product) in
let descriptionHtml :=
  stringToHtml description ++ "<br/>Disponible également sur <a href='"
  ++ Product.url product ++ "'>leboncoin.fr</a>" in
let! images := loadImages product in
let! created := createdDate (Product.date product) in
ret (OdooDict.mk (Product.title product) (Product.price product) true 1
       descriptionHtml tagsIds [taxId] created created created
       (match images.1 with
        | Some firstImage =>
            if JsString.truthy firstImage then Some firstImage else None
        | None => None
        end)
       (match images.2 with [] => None | imageIds => Some imageIds end)
       None None).

(** [productToOdooDict]; the category is computed between the tags and the
    tax id, without any effect on the state. *)
Definition productToOdooDict (product : Product.t) : M OdooDict.t :=
let! productData := buildProductData product in
match getCategory product with
| Some category =>
    if JsString.truthy category then setCategory product category productData
    else ret productData
| None => ret productData
end.

Definition createProduct (product : Product.t) : M (option Z) :=
  let! productData := productToOdooDict product in
  let! response :=
    fetch (mkRequest "/product.template/create" (ValsList productData)) in
  do! raiseForStatus response in
  let! productIds := parseJsonResponse response in
  ret (match productIds with
       | JArray ids => head ids
       | JScalar n => Some n
       end).

Definition updateProduct (productId : Z) (product : Product.t) : M unit :=
  let! productData := productToOdooDict product in
  let! response :=
    fetch (mkRequest "/product.template/write"
                     (WriteVals [productId] productData)) in
  raiseForStatus response.

(** The [try] block of [exportProduct]. *)
Definition exportProduct_try (product : Product.t) (overwriteExisting : bool)
  : M OdooExportResult :=
let! existingProductId := searchProduct product in
match existingProductId with
| None =>
    let! productId := createProduct product in
    ret (mkExport true productId true false false None)
| Some existingProductId =>
    if (bool_decide (Product.state product = SOLD)
        || bool_decide (Product.state product = REMOVED))%bool
    then
      do! archiveProduct [existingProductId] in
      ret (mkExport true (Some existingProductId) false false true None)
    else if overwriteExisting then
      do! updateProduct existingProductId product in
      ret (mkExport true (Some existingProductId) false true false None)
    else
      ret (mkExport true (Some existingProductId) false false false None)
end.

Definition exportProduct (product : Product.t) (overwriteExisting : bool)
  : M OdooExportResult :=
try_catch
  (exportProduct_try product overwriteExisting)
  (fun error =>
     do! console_error ("Error exporting product " ++ Product.title product
                        ++ ": " ++ String_of error) in
     ret (mkExport false None false false false (Some (String_of error)))).

(** The body of the loop of [exportProducts] after the [await]. *)
Definition tally (acc : Counters) (product : Product.t)
    (result : OdooExportResult) : Counters :=
  if success result then
    mkCounters
      (if created result then S (n_created acc) else n_created acc)
      (if updated_ result then S (n_updated acc) else n_updated acc)
      (if archived result then S (n_archived acc) else n_archived acc)
      (errors acc)
  else
    match error result with
    | Some e =>
        if JsString.truthy e
        then mkCounters (n_created acc) (n_updated acc) (n_archived acc)
                        (errors acc ++ [(Product.id product, e)])
        else acc
    | None => acc
    end.

Fixpoint exportProducts_loop (products : list Product.t)
    (overwriteExisting : bool) (acc : Counters) : M Counters :=
  match products with
  | [] => ret acc
  | product :: rest =>
      let! result := exportProduct product overwriteExisting in
      exportProducts_loop rest overwriteExisting (tally acc product result)
  end.

Definition exportProducts (products : list Product.t)
    (overwriteExisting : bool) : M OdooBulkExportResult :=
  let! acc := exportProducts_loop products overwriteExisting
                (mkCounters 0 0 0 []) in
  ret (mkBulk (Nat.eqb (length (errors acc)) 0)
              (n_created acc) (n_updated acc) (n_archived acc) (errors acc)).

(** *** entrypoints/background.ts: the export handlers *)

(** [title.replace(/Train wagon/gi, "").trim()] *)
Definition cleanTitle (title : string) : string :=
  JsString.trim (JsString.removeAll_ci "Train wagon" title).

Definition cleanedProduct (product : Product.t) : Product.t :=
  Product.with_title product (cleanTitle (Product.title product)).

(** [exportSingleToOdoo]; [now] is the clock reading taken for the
    status.  The service built from the URL, key and path only prefixes
    the endpoints, so these three arguments are left out. *)
Definition exportSingleToOdoo (now : string) (username : string)
    (product : Product.t) (w : World) (st : Storage)
  : OdooExportResult * World * Storage :=
  match exportProduct (cleanedProduct product) true w with
  | (Throw e, w') =>
      (mkExport false None false false false (Some (String_of e)), w', st)
  | (Return result, w') =>
      let profiles := getProfilesItem st in
      let st' :=
        match profiles !! username with
        | Some profile =>
            let exports := default ∅ (ProfileData.odooExports profile) in
            let status :=
              OdooExportStatus.mk (success result) (productId result)
                                  (Some now) (error result) in
            Some (<[username :=
                     with_odooExports profile
                       (<[Product.id product := status]> exports)]> profiles)
        | None => st
        end in
      (mkExport (success result) None (created result) (updated_ result)
                (archived result) (error result), w', st')
  end.

(** The loop of [exportToOdoo] that records one status per product;
    [now i] is the clock reading of round [i]. *)
Fixpoint save_statuses (now : nat → string) (errs : list (string * string))
    (productIds : option (list string)) (i : nat) (products : list Product.t)
    (exports : gmap string OdooExportStatus.t)
  : gmap string OdooExportStatus.t :=
  match products with
  | [] => exports
  | product :: rest =>
      let productId :=
        default (Product.id product)
                (or_else (productIds ≫= (fun ids => ids !! i)) None) in
      let errorForProduct :=
        List.find (fun e => String.eqb e.1 (Product.id product)) errs in
      let status :=
        OdooExportStatus.mk
          (match errorForProduct with None => true | Some _ => false end)
          None (Some (now i)) (snd <$> errorForProduct) in
      save_statuses now errs productIds (S i) rest (<[productId := status]> exports)
  end.

Record BulkReply := mkReply {
  reply_success : bool;
  reply_created : option nat;
  reply_updated : option nat;
  reply_archived : option nat;
  reply_errors : option (list (string * string));
  reply_error : option string
}.

Definition exportToOdoo (now : nat → string) (username : string)
    (products : list Product.t) (productIds : option (list string))
    (w : World) (st : Storage) : BulkReply * World * Storage :=
  let cleanedProducts := map cleanedProduct products in
  match exportProducts cleanedProducts true w with
  | (Throw e, w') =>
      (mkReply false None None None None (Some (String_of e)), w', st)
  | (Return result, w') =>
      let profiles := getProfilesItem st in
      let st' :=
        match profiles !! username with
        | Some profile =>
            let exports := default ∅ (ProfileData.odooExports profile) in
            Some (<[username :=
                     with_odooExports profile
                       (save_statuses now (bulk_errors result) productIds 0
                                      products exports)]> profiles)
        | None => st
        end in
      (mkReply (bulk_success result) (Some (bulk_created result))
               (Some (bulk_updated result)) (Some (bulk_archived result))
               (Some (bulk_errors result)) None, w', st')
  end.

End OdooService.

(** ** entrypoints/background.ts: details and queries *)

(** [a || b] where [a] is a string *)
Definition or_string (a b : string) : string :=
  if JsString.truthy a then a else b.

(** [handleSaveProductDetails]; [now] is [new Date().toISOString()]. *)
Definition handleSaveProductDetails (now : string) (st : Storage)
    (username : string) (detail : ProductDetail.t) : Storage :=
  let profiles := getProfilesItem st in
  let existingProfile := profiles !! username in
  let existingListings := default ∅ (ProfileData.listings <$> existingProfile) in
  let existingDetails := default ∅ (ProfileData.details <$> existingProfile) in
  let existingDetails := <[ProductDetail.id detail := detail]> existingDetails in
  let profile :=
    ProfileData.mk username (existingProfile ≫= ProfileData.profileName)
      existingListings existingDetails None
      (match existingProfile with
       | Some p => or_string (ProfileData.lastScraped p) now
       | None => now
       end) in
  Some (<[username := profile]> profiles).

(** [getProfile]: [None] is [null]. *)
Definition getProfile (st : Storage) (username : string) : option ProfileData.t :=
  getProfilesItem st !! username.

(** [name in object]: a property of its own or an inherited one. *)
Definition has_property {A} (object : gmap string A) (name : string) : bool :=
  (bool_decide (is_Some (object !! name)) || inherited name)%bool.

(** [checkListingExists]: the [exists] field of the answer.  A user name
    that only finds an inherited function has no [listings]. *)
Definition checkListingExists (st : Storage) (username adId : string) : bool :=
  match getProfilesItem st !! username with
  | None => false
  | Some profile => has_property (ProfileData.listings profile) adId
  end.

(** [checkDetailsExist]: the [exists] field of the answer. *)
Definition checkDetailsExist (st : Storage) (username adId : string) : bool :=
  match getProfilesItem st !! username with
  | None => false
  | Some profile => has_property (ProfileData.details profile) adId
  end.

(** The product made of one entry of the listings in
    [combineListingsWithDetails]. *)
Definition combine_entry (details : gmap string ProductDetail.t)
    (odooExports : option (gmap string OdooExportStatus.t))
    (entry : string * ProductListing.t) : Product.t :=
  let '(id, listing) := entry in
  let detail := details !! id in
  let odooExport := odooExports ≫= (fun exports => exports !! id) in
  Product.mk (ProductListing.id listing) (ProductListing.title listing)
    (ProductListing.price listing) (ProductListing.url listing)
    (ProductListing.datePosted listing) (ProductListing.date listing)
    (ProductListing.state listing) (ProductListing.thumbnail listing)
    (ProductDetail.description <$> detail) (ProductDetail.photos <$> detail)
    (ProductDetail.scrapedAt <$> detail) odooExport.

Section ObjectEntries.

(** [Object.entries] of the listings: the order of the keys of a JavaScript
    object is left open, it is some enumeration of the mapping. *)
Variable Object_entries :
  gmap string ProductListing.t → list (string * ProductListing.t).

Definition combineListingsWithDetails
    (listings : gmap string ProductListing.t)
    (details : gmap string ProductDetail.t)
    (odooExports : option (gmap string OdooExportStatus.t)) : list Product.t :=
  map (combine_entry details odooExports) (Object_entries listings).

Definition getCombinedProducts (st : Storage) (username : string)
  : list Product.t :=
  match getProfile st username with
  | None => []
  | Some profile =>
      combineListingsWithDetails (ProfileData.listings profile)
        (ProfileData.details profile) (ProfileData.odooExports profile)
  end.

End ObjectEntries.

(** ** The content script: details of an ad page *)

(** What [scrapeAdDetails] reads from the page and the clock: the id in the
    URL, the user name in the link to the seller, the description, the
    photos and the time. *)
Record AdPage := mkAdPage {
  extractAdId : option string;
  extractUsernameFromAdPage : option string;
  getDescription : string;
  getPhotoUrls : list string;
  scrapedAt : string
}.

(** [scrapeAdDetails]: the flag [detailsScraped] and the storage, before and
    after; [now] is the clock of the background script. *)
Definition scrapeAdDetails (now : string) (page : AdPage)
    (detailsScraped : bool) (st : Storage) : bool * Storage :=
  if detailsScraped then (detailsScraped, st)
  else
    match extractAdId page with
    | None => (detailsScraped, st)
    | Some adId =>
        match extractUsernameFromAdPage page with
        | None => (detailsScraped, st)
        | Some username =>
            if negb (checkListingExists st username adId) then (true, st)
            else if checkDetailsExist st username adId then (true, st)
            else
              let detail :=
                ProductDetail.mk adId (getDescription page) (getPhotoUrls page)
                                 (scrapedAt page) in
              (true, handleSaveProductDetails now st username detail)
        end
    end.

(** ** The content script: the listings of a profile *)

(** A JavaScript [Set] of strings: its elements in the order in which they
    were added. *)
Module JsSet.
Definition t := list string.
Definition empty : t := [].
Definition has (s : t) (x : string) : bool := bool_decide (x ∈ s).
Definition add (s : t) (x : string) : t :=
  if has s x then s else (s ++ [x])%list.
Definition Array_from (s : t) : list string := s.
End JsSet.

(** What the scraper reads from the document while a page of a profile is
    shown: whether the path starts with "/profile/", what [parseArticle]
    makes of each article ([None] is [null]), and whether the button of the
    next page is there and enabled. *)
Record ProfilePage := mkProfilePage {
  onProfilePage : bool;
  articles : list (option ProductListing.t);
  nextPageButton : bool
}.

(** One round of the [forEach] of [scrapeCurrentPage]. *)
Definition scrape_article (onlyNew : bool)
    (acc : list ProductListing.t * JsSet.t)
    (article : option ProductListing.t) : list ProductListing.t * JsSet.t :=
  match article with
  | None => acc
  | Some product =>
      if (onlyNew && JsSet.has acc.2 (ProductListing.id product))%bool
      then acc
      else ((acc.1 ++ [product])%list,
            JsSet.add acc.2 (ProductListing.id product))
  end.

(** [scrapeCurrentPage]: the products and the global [scrapedIds] after. *)
Definition scrapeCurrentPage (onlyNew : bool) (page : ProfilePage)
    (scrapedIds : JsSet.t) : list ProductListing.t * JsSet.t :=
  if negb (onProfilePage page) then ([], scrapedIds)
  else fold_left (scrape_article onlyNew) (articles page) ([], scrapedIds).

(** One round of the [forEach] of [scrapeAllPages]. *)
Definition push_new (acc : list ProductListing.t * JsSet.t)
    (p : ProductListing.t) : list ProductListing.t * JsSet.t :=
  if negb (JsSet.has acc.2 (ProductListing.id p))
  then ((acc.1 ++ [p])%list, JsSet.add acc.2 (ProductListing.id p))
  else acc.

Record Scrape := mkScrape {
  allProducts : list ProductListing.t;
  scrapedIdsSet : JsSet.t;
  scrapedIds : JsSet.t
}.

(** The loop of [scrapeAllPages] with [remaining] rounds to go;
    [shown pageNum] is the document in round [pageNum]. *)
Fixpoint scrapeAllPages_loop (shown : nat → ProfilePage)
    (totalPages remaining : nat) (s : Scrape) : Scrape :=
  match remaining with
  | O => s
  | S rest =>
      let pageNum := (totalPages - rest)%nat in
      let '(products, scrapedIds') :=
        scrapeCurrentPage false (shown pageNum) (scrapedIds s) in
      let '(allProducts', scrapedIdsSet') :=
        fold_left push_new products (allProducts s, scrapedIdsSet s) in
      let s' := mkScrape allProducts' scrapedIdsSet' scrapedIds' in
      if Nat.ltb pageNum totalPages then
        if nextPageButton (shown pageNum)
        then scrapeAllPages_loop shown totalPages rest s'
        else s'
      else scrapeAllPages_loop shown totalPages rest s'
  end.

(** [scrapeAllPages]: the products returned, the global [scrapedIds] and
    the storage after the message MARK_MISSING_AS_REMOVED was handled;
    [totalPages] is the number of page buttons. *)
Definition scrapeAllPages (username : string) (shown : nat → ProfilePage)
    (totalPages : nat) (scrapedIds0 : JsSet.t) (st : Storage)
  : list ProductListing.t * JsSet.t * Storage :=
  let s := scrapeAllPages_loop shown totalPages totalPages
             (mkScrape [] JsSet.empty scrapedIds0) in
  (allProducts s, scrapedIds s,
   markMissingAsRemoved st username (JsSet.Array_from (scrapedIdsSet s))).

(** The click listener of the button of [addScrapeButton]: the statistics
    shown on the button, the global [scrapedIds] and the storage after;
    [profileName] is what [extractProfileName] reads. *)
Definition scrapeButton_click (now : string) (username : string)
    (profileName : option string) (shown : nat → ProfilePage)
    (totalPages : nat) (scrapedIds0 : JsSet.t) (st : Storage)
  : (nat * nat) * JsSet.t * Storage :=
  let '(allProducts, scrapedIds', st1) :=
    scrapeAllPages username shown totalPages scrapedIds0 st in
  let '(stats, st2) :=
    handleSaveProducts now st1 username allProducts profileName in
  (stats, scrapedIds', st2).

(** ** services/odoo.ts: the address of the service *)

(** [s.startsWith(k)] *)
Definition startsWith (s k : string) : bool := String.prefix k s.

(** [s.endsWith(k)] *)
Fixpoint endsWith (s k : string) : bool :=
  (String.eqb s k ||
   match s with
   | EmptyString => false
   | String _ s' => endsWith s' k
   end)%bool.

(** [s.slice(0, -1)] *)
Fixpoint slice_0_m1 (s : string) : string :=
  match s with
  | EmptyString => EmptyString
  | String c EmptyString => EmptyString
  | String c s' => String c (slice_0_m1 s')
  end.

Module OdooConfig.
Record t := mk {
  url : string;
  apiKey : string;
  apiPath : option string
}.
End OdooConfig.

(** The constructor of [OdooService]: the configuration it keeps. *)
Definition constructor (config : OdooConfig.t) : OdooConfig.t :=
  let url :=
    if endsWith (OdooConfig.url config) "/"
    then slice_0_m1 (OdooConfig.url config)
    else OdooConfig.url config in
  let apiPath :=
    match OdooConfig.apiPath config with
    | Some p => if JsString.truthy p then p else "/json/2"
    | None => "/json/2"
    end in
  let apiPath :=
    if negb (startsWith apiPath "/") then "/" ++ apiPath else apiPath in
  let apiPath :=
    if endsWith apiPath "/" then slice_0_m1 apiPath else apiPath in
  OdooConfig.mk url (OdooConfig.apiKey config) (Some apiPath).

(** [buildApiUrl]; a path that is [undefined] is printed as such. *)
Definition buildApiUrl (config : OdooConfig.t) (endpoint : string) : string :=
  let endpoint :=
    if negb (startsWith endpoint "/") then "/" ++ endpoint else endpoint in
  OdooConfig.url config
  ++ default "undefined" (OdooConfig.apiPath config)
  ++ endpoint.

(** ** Vocabulary of the properties *)

(** What one round of the loop leaves under the id of its listing. *)
Definition settle (o : option ProductListing.t) (l : ProductListing.t)
  : ProductListing.t :=
  match o with
  | None => l
  | Some e => if hasChanged e l then ProductListing.spread e l else e
  end.

(** The two classifications of an incoming listing against a mapping. *)
Definition is_new (m : gmap string ProductListing.t) (l : ProductListing.t)
  : bool :=
  bool_decide (m !! ProductListing.id l = None).

Definition is_changed (m : gmap string ProductListing.t)
    (l : ProductListing.t) : bool :=
  match m !! ProductListing.id l with
  | Some e => hasChanged e l
  | None => false
  end.

(** Two thumbnails are the same when both are the same string or neither
    is a string. *)
Definition same_thumbnail (a b : optional) : Prop :=
  match a, b with
  | Str s, Str t => s = t
  | Str _, _ | _, Str _ => False
  | _, _ => True
  end.

#[global] Instance same_thumbnail_dec a b : Decision (same_thumbnail a b).
Proof. destruct a, b; simpl; apply _. Defined.

(** The comparison of the specification: the stored and the incoming
    listing are equal on title, price, state, datePosted, url and
    thumbnail.  Equality is that of JavaScript: a price that is not a
    number is equal to no price, and a thumbnail that is absent is equal to
    one that is [undefined]. *)
Definition six_fields_equal (stored incoming : ProductListing.t) : Prop :=
  ProductListing.title stored = ProductListing.title incoming
  ∧ (ProductListing.price stored = ProductListing.price incoming
     ∧ ProductListing.price incoming ≠ NaN)
  ∧ ProductListing.state stored = ProductListing.state incoming
  ∧ ProductListing.datePosted stored = ProductListing.datePosted incoming
  ∧ ProductListing.url stored = ProductListing.url incoming
  ∧ same_thumbnail (ProductListing.thumbnail stored)
                   (ProductListing.thumbnail incoming).

#[global] Instance six_fields_equal_dec stored incoming :
  Decision (six_fields_equal stored incoming).
Proof. unfold six_fields_equal. apply _. Defined.

(** The overwrite of the specification: [x] has every field that the
    incoming listing carries from the incoming listing, and the thumbnail,
    the one field a listing may come without, from the stored listing when
    the incoming one does not carry it. *)
Definition overwrite_of (stored incoming x : ProductListing.t) : Prop :=
  ProductListing.id x = ProductListing.id incoming
  ∧ ProductListing.title x = ProductListing.title incoming
  ∧ ProductListing.price x = ProductListing.price incoming
  ∧ ProductListing.url x = ProductListing.url incoming
  ∧ ProductListing.datePosted x = ProductListing.datePosted incoming
  ∧ ProductListing.date x = ProductListing.date incoming
  ∧ ProductListing.state x = ProductListing.state incoming
  ∧ (ProductListing.thumbnail incoming ≠ Missing →
     ProductListing.thumbnail x = ProductListing.thumbnail incoming)
  ∧ (ProductListing.thumbnail incoming = Missing →
     ProductListing.thumbnail x = ProductListing.thumbnail stored).

(** The incoming listings whose id is absent from the mapping, and those
    whose id is present with a listing that differs in one of the six
    fields. *)
Definition absent_from (existing : gmap string ProductListing.t)
    (newListings : list ProductListing.t) : list ProductListing.t :=
  List.filter (fun l => bool_decide (existing !! ProductListing.id l = None))
              newListings.

Definition differing_from (existing : gmap string ProductListing.t)
    (newListings : list ProductListing.t) : list ProductListing.t :=
  List.filter (fun l => match existing !! ProductListing.id l with
                        | Some e => bool_decide (¬ six_fields_equal e l)
                        | None => false
                        end)
              newListings.

(** The description of [merge] by the specification, for a result [r]:
    a listing with a new id is inserted and counted as an addition, a
    listing with a known id is compared on the six fields and either
    overwrites the stored one and is counted as an update or leaves it
    alone, and nothing else moves. *)
Definition merge_described (existing : gmap string ProductListing.t)
    (newListings : list ProductListing.t) (r : MergeResult) : Prop :=
  (∀ l, l ∈ newListings → existing !! ProductListing.id l = None →
        merged r !! ProductListing.id l = Some l)
  ∧ added r = length (absent_from existing newListings)
  ∧ (∀ l e, l ∈ newListings → existing !! ProductListing.id l = Some e →
            ¬ six_fields_equal e l →
            ∃ x, merged r !! ProductListing.id l = Some x
                 ∧ overwrite_of e l x)
  ∧ (∀ l e, l ∈ newListings → existing !! ProductListing.id l = Some e →
            six_fields_equal e l →
            merged r !! ProductListing.id l = Some e)
  ∧ updated r = length (differing_from existing newListings)
  ∧ (∀ k, k ∉ map ProductListing.id newListings →
          merged r !! k = existing !! k)
  ∧ (∀ k, is_Some (existing !! k) → is_Some (merged r !! k)).

(** Idempotence of [merge] on a batch, as the specification words it. *)
Definition merge_idempotent (existing : gmap string ProductListing.t)
    (newListings : list ProductListing.t) : Prop :=
  let first := mergeListingsWithStats existing newListings in
  let again := mergeListingsWithStats (merged first) newListings in
  added again = 0%nat ∧ updated again = 0%nat ∧ merged again = merged first.

(** A listing for the examples. *)
Definition listing (id title : string) (price : Z) (thumbnail : optional)
  : ProductListing.t :=
  ProductListing.mk id title (Num price) ("https://www.leboncoin.fr/ad/" ++ id)
    "01/02/2024" "2024-02-01T00:00:00.000Z" ACTIVE thumbnail.

(** The listing an entry ends as. *)
Definition marked (currentIdsSet : gset string) (id : string)
    (l : ProductListing.t) : ProductListing.t :=
  if (negb (bool_decide (id ∈ currentIdsSet))
      && state_sne (ProductListing.state l) REMOVED)%bool
  then ProductListing.with_state l REMOVED else l.

(** A stored profile for the examples. *)
Definition alice : ProfileData.t :=
  ProfileData.mk "alice" (Some "Alice")
    {[ "7" := listing "7" "Wagon Jouef" 12 Missing;
       "8" := ProductListing.with_state (listing "8" "Loco Roco" 40 Missing) REMOVED;
       "9" := listing "9" "Rails Piko" 5 Missing ]}
    ∅
    (Some {[ "7" := OdooExportStatus.mk true (Some 31) (Some "2024-02-02") None ]})
    "2024-02-01T10:00:00.000Z".

(** [w'] has the requests of [w] followed by requests that satisfy [P]. *)
Definition grows (P : Request → Prop) (w w' : World) : Prop :=
  ∃ new, sent w' = (sent w ++ new)%list ∧ Forall P new.

(** [m] sends only requests that satisfy [P], and what it returns
    satisfies [Q]. *)
Definition triple {A} (P : Request → Prop) (m : M A) (Q : A → Prop) : Prop :=
  ∀ w, grows P w (m w).2 ∧ ∀ a, (m w).1 = Return a → Q a.

(** The requests an export of [product] may send. *)
Definition about (product : Product.t) (r : Request) : Prop :=
  match body r with
  | Domain name =>
      (endpoint r = "/product.template/search_read" ∧ name = Product.title product)
      ∨ (endpoint r = "/product.tag/search_read" ∧ name ∈ getTags product)
      ∨ ((endpoint r = "/product.category/search_read"
          ∨ endpoint r = "/product.public.category/search")
         ∧ getCategory product = Some name)
      ∨ (endpoint r = "/account.tax/search_read" ∧ name = taxName)
  | ValsList vals =>
      endpoint r = "/product.template/create"
      ∧ OdooDict.name vals = Product.title product
  | WriteVals _ vals =>
      endpoint r = "/product.template/write"
      ∧ OdooDict.name vals = Product.title product
  | Archive _ => endpoint r = "/product.template/action_archive"
  | Get => ∃ rest, Product.photos product = Some (endpoint r :: rest)
  end.

(** Look-ups of reference data and downloads of images. *)
Definition reference (r : Request) : Prop :=
  match body r with
  | Domain _ => endpoint r ≠ "/product.template/search_read"
  | Get => True
  | _ => False
  end.

Definition is_create (r : Request) : bool :=
  match body r with ValsList _ => true | _ => false end.

Definition is_write (r : Request) : bool :=
  match body r with WriteVals _ _ => true | _ => false end.

Definition is_archive (r : Request) : bool :=
  match body r with Archive _ => true | _ => false end.

(** The number of requests of one kind in a list of requests. *)
Definition calls (kind : Request → bool) (requests : list Request) : nat :=
  length (List.filter kind requests).

(** A first call of [get] for [name] that misses the cache and whose remote
    look-up finds a record sends that one request, stores the id of the first
    record and returns it; a second call returns the same id and changes
    nothing, so it sends no request. *)
Definition one_lookup {A} (respond : list Request → Request → FetchResult)
    (get : M A) (found : Z → A)
    (cache : World → gmap string Z) (path name : string) : Prop :=
  ∀ w r id ids,
    cache w !! name = None →
    respond (sent w) (mkRequest path (Domain name)) = Resolved r →
    ok r = true →
    json r = Some (JArray (id :: ids)) →
    ∃ w1,
      get w = (Return (found id), w1)
      ∧ sent w1 = (sent w ++ [mkRequest path (Domain name)])%list
      ∧ cache w1 !! name = Some id
      ∧ get w1 = (Return (found id), w1).

(** What [setCategory] reports to the console. *)
Definition category_report (product : Product.t) (error : exn) : string :=
  "Error setting category for product " ++ Product.title product ++ ": "
  ++ String_of error.

(** The failure outcome made from an exception, and the report that goes
    with it. *)
Definition failed (e : exn) : OdooExportResult :=
  mkExport false None false false false (Some (String_of e)).

Definition export_report (product : Product.t) (e : exn) : string :=
  "Error exporting product " ++ Product.title product ++ ": " ++ String_of e.

(** The products with their outcomes when they are exported one after the
    other, each in the state the previous one has left, and the last state. *)
Fixpoint outcomes (respond : list Request → Request → FetchResult)
    (toISOString : string → option string) (products : list Product.t)
    (overwriteExisting : bool) (w : World)
  : list (Product.t * OdooExportResult) * World :=
  match products with
  | [] => ([], w)
  | product :: rest =>
      let '(o, w1) := exportProduct respond toISOString product overwriteExisting w in
      let '(l, w2) := outcomes respond toISOString rest overwriteExisting w1 in
      (match o with Return result => (product, result) :: l | Throw _ => l end, w2)
  end.

(** The entry of the error list for one outcome, if any. *)
Definition error_entry (pr : Product.t * OdooExportResult)
  : option (string * string) :=
  if success pr.2 then None
  else match error pr.2 with
       | Some e => if JsString.truthy e then Some (Product.id pr.1, e) else None
       | None => None
       end.

Definition count (flag : OdooExportResult → bool)
    (outs : list (Product.t * OdooExportResult)) : nat :=
  length (List.filter (fun pr => (success pr.2 && flag pr.2)%bool) outs).

(** *** Three servers and their first state, for the examples *)

Definition fresh : World := mkWorld ∅ ∅ ∅ ∅ [] [].

Definition answer (ids : list Z) : Response :=
  mkResponse true "" (Some (JArray ids)) "" "".

Definition refusal (message : string) : Response :=
  mkResponse false message None "" "".

(** Every name has the record 42. *)
Definition every_name_known (_ : list Request) (_ : Request) : FetchResult :=
  Resolved (answer [42]).

(** No name has a record. *)
Definition no_name_known (_ : list Request) (_ : Request) : FetchResult :=
  Resolved (answer []).

(** A shop without products and categories that knows every tag and the tax
    and refuses to create "Wagon Lima". *)
Definition shop (_ : list Request) (r : Request) : FetchResult :=
  match body r with
  | Domain _ =>
      if (String.eqb (endpoint r) "/product.tag/search_read"
          || String.eqb (endpoint r) "/account.tax/search_read")%bool
      then Resolved (answer [7])
      else Resolved (answer [])
  | ValsList vals =>
      if String.eqb (OdooDict.name vals) "Wagon Lima"
      then Resolved (refusal "HTTP error 500 for URL /product.template/create")
      else Resolved (answer [100])
  | _ => Resolved (answer [])
  end.

(** Dates that are ISO strings already. *)
Definition iso (s : string) : option string := Some s.

(** A product for the examples. *)
Definition dated (title : string) (id : string) : Product.t :=
  Product.mk id title (Num 10) "https://www.leboncoin.fr/ad/1" "01/02/2024"
    "2024-02-01T00:00:00.000Z" ACTIVE Missing None None None None.


(** The listing [x] has the id and every field that the incoming listing
    [l] reports, and its thumbnail when [l] has one. *)
Definition reported_by (l x : ProductListing.t) : Prop :=
  ProductListing.id x = ProductListing.id l
  ∧ ProductListing.title x = ProductListing.title l
  ∧ ProductListing.price x = ProductListing.price l
  ∧ ProductListing.url x = ProductListing.url l
  ∧ ProductListing.datePosted x = ProductListing.datePosted l
  ∧ ProductListing.date x = ProductListing.date l
  ∧ ProductListing.state x = ProductListing.state l
  ∧ (∀ t, ProductListing.thumbnail l = Str t →
          ProductListing.thumbnail x = Str t).

(** The product that joins the listing stored under [id] with the detail
    and the export status stored under [id], if any. *)
Definition joined (details : gmap string ProductDetail.t)
    (odooExports : option (gmap string OdooExportStatus.t)) (id : string)
    (listing : ProductListing.t) (product : Product.t) : Prop :=
  Product.id product = ProductListing.id listing
  ∧ Product.title product = ProductListing.title listing
  ∧ Product.price product = ProductListing.price listing
  ∧ Product.url product = ProductListing.url listing
  ∧ Product.datePosted product = ProductListing.datePosted listing
  ∧ Product.date product = ProductListing.date listing
  ∧ Product.state product = ProductListing.state listing
  ∧ Product.thumbnail product = ProductListing.thumbnail listing
  ∧ Product.description product = ProductDetail.description <$> details !! id
  ∧ Product.photos product = ProductDetail.photos <$> details !! id
  ∧ Product.detailsScrapedAt product
    = ProductDetail.scrapedAt <$> details !! id
  ∧ Product.odooExport product
    = odooExports ≫= (fun exports => exports !! id).

(** Every listing is stored under its own id. *)
Definition keyed_by_id (m : gmap string ProductListing.t) : Prop :=
  ∀ k l, m !! k = Some l → ProductListing.id l = k.

(** The details stored for a user; empty when there is no such profile. *)
Definition stored_details (st : Storage) (username : string)
  : gmap string ProductDetail.t :=
  default ∅ (ProfileData.details <$> getProfile st username).

(** Every stored detail belongs to a stored listing of the same user. *)
Definition details_have_listings (st : Storage) : Prop :=
  ∀ username id,
    checkDetailsExist st username id = true →
    checkListingExists st username id = true.

(** The page of the ad 9 of alice, and the storage after a visit of the
    page of her ad 7. *)
Definition page9 : AdPage :=
  mkAdPage (Some "9") (Some "alice") "Rails en bon etat" ["p1.jpg"]
           "2024-03-02T08:00:00.000Z".

Definition detail7 : ProductDetail.t :=
  ProductDetail.mk "7" "Wagon en boite" ["w1.jpg"; "w2.jpg"]
                   "2024-03-01T08:00:00.000Z".

Definition visited : Storage :=
  handleSaveProductDetails "2024-03-01T08:00:01.000Z" (Some {["alice" := alice]})
    "alice" detail7.

(** A profile of two pages: ad 7 at a new price and an article without id
    on the first, a new ad on the second. *)
Definition two_pages (n : nat) : ProfilePage :=
  match n with
  | 1%nat => mkProfilePage true [Some (listing "7" "Wagon Jouef" 15 Missing); None]
                           true
  | 2%nat => mkProfilePage true [Some (listing "10" "Coffret Lima" 60 Missing)]
                           false
  | _ => mkProfilePage false [] false
  end.

(** Every id that is cached in [w] is cached in [w'], with the same value. *)
Definition caches_kept (w w' : World) : Prop :=
  TAGS_ID_CACHE w ⊆ TAGS_ID_CACHE w'
  ∧ CATEGORY_ID_CACHE w ⊆ CATEGORY_ID_CACHE w'
  ∧ PUBLIC_CATEGORY_ID_CACHE w ⊆ PUBLIC_CATEGORY_ID_CACHE w'
  ∧ TAX_ID_CACHE w ⊆ TAX_ID_CACHE w'.

(** [m] keeps what is cached, from every state. *)
Definition keeps {A} (m : M A) : Prop := ∀ w, caches_kept w (m w).2.

(** Requests that are neither a look-up of a tag nor of the tax nor a
    request on products: look-ups of categories and downloads. *)
Definition category_or_image (r : Request) : Prop :=
  match body r with
  | Domain _ =>
      endpoint r = "/product.category/search_read"
      ∨ endpoint r = "/product.public.category/search"
  | Get => True
  | _ => False
  end.

(** Two payloads that differ at most in the category fields. *)
Definition same_base (a b : OdooDict.t) : Prop :=
  OdooDict.name a = OdooDict.name b
  ∧ OdooDict.list_price a = OdooDict.list_price b
  ∧ OdooDict.website_published a = OdooDict.website_published b
  ∧ OdooDict.qty_available a = OdooDict.qty_available b
  ∧ OdooDict.description_ecommerce a = OdooDict.description_ecommerce b
  ∧ OdooDict.product_tag_ids a = OdooDict.product_tag_ids b
  ∧ OdooDict.taxes_id a = OdooDict.taxes_id b
  ∧ OdooDict.create_date a = OdooDict.create_date b
  ∧ OdooDict.publish_date a = OdooDict.publish_date b
  ∧ OdooDict.write_date a = OdooDict.write_date b
  ∧ OdooDict.image_1920 a = OdooDict.image_1920 b
  ∧ OdooDict.product_template_image_ids a
    = OdooDict.product_template_image_ids b.

(** An outcome of [exportProduct] that is no failure: a success without
    error that has exactly one of the three flags, or none of them when
    nothing is overwritten. *)
Definition one_flag (overwriteExisting : bool) (r : OdooExportResult) : Prop :=
  success r = true
  ∧ error r = None
  ∧ ((created r, updated_ r, archived r) = (true, false, false)
     ∨ (created r, updated_ r, archived r) = (false, true, false)
     ∨ (created r, updated_ r, archived r) = (false, false, true)
     ∨ ((created r, updated_ r, archived r) = (false, false, false)
        ∧ overwriteExisting = false)).

(** ** The cleaning of titles, in the words of the specification *)

(** The other letter case of an ASCII letter; any other byte itself. *)
Definition swap_case (c : ascii) : ascii :=
  let n := nat_of_ascii c in
  if (Nat.leb 65 n && Nat.leb n 90)%bool then ascii_of_nat (n + 32)
  else if (Nat.leb 97 n && Nat.leb n 122)%bool then ascii_of_nat (n - 32)
  else c.

(** [a] is [b] up to the case of its letters. *)
Fixpoint same_letters (a b : string) : Prop :=
  match a, b with
  | EmptyString, EmptyString => True
  | String x a', String y b' => (x = y ∨ x = swap_case y) ∧ same_letters a' b'
  | _, _ => False
  end.

(** An occurrence of the marketing phrase, in any letter case. *)
Definition is_phrase (m : string) : Prop := same_letters m "Train wagon".

(** [r] is [s] without the occurrences of the phrase, which are taken from
    left to right and do not overlap. *)
Inductive stripped : string → string → Prop :=
| stripped_end : stripped "" ""
| stripped_phrase m s r :
    is_phrase m → stripped s r → stripped (m ++ s) r
| stripped_char c s r :
    (∀ m rest, is_phrase m → String c s ≠ m ++ rest) →
    stripped s r → stripped (String c s) (String c r).

(** The code points of the white space and of the line terminators of
    ECMAScript: TAB, LF, VT, FF, CR, space, no-break space, U+1680,
    U+2000 to U+200A, U+2028, U+2029, U+202F, U+205F, U+3000 and U+FEFF. *)
Definition white_space_codes : list Z :=
  [9; 10; 11; 12; 13; 32; 160; 5760]
  ++ map (fun i => 8192 + Z.of_nat i) (seq 0 11)
  ++ [8232; 8233; 8239; 8287; 12288; 65279].

(** The UTF-8 bytes of a code point below U+10000. *)
Definition utf8 (n : Z) : string :=
  if n <? 128 then JsString.bytes [n]
  else if n <? 2048 then JsString.bytes [192 + n / 64; 128 + n mod 64]
  else JsString.bytes [224 + n / 4096; 128 + (n / 64) mod 64; 128 + n mod 64].

(** [w] is one white space character. *)
Definition is_white_space (w : string) : Prop :=
  ∃ n, n ∈ white_space_codes ∧ w = utf8 n.

(** [s] is made of white space characters only. *)
Definition blank (s : string) : Prop :=
  ∃ ws, Forall is_white_space ws ∧ s = fold_right append "" ws.

(** [r] is [s] without the white space at its two ends. *)
Definition trimmed (s r : string) : Prop :=
  ∃ a b,
    s = a ++ r ++ b ∧ blank a ∧ blank b
    ∧ (∀ w rest, is_white_space w → r ≠ w ++ rest)
    ∧ (∀ w rest, is_white_space w → r ≠ rest ++ w).

(** [r] is the title [title] as the specification cleans it: the phrase
    stripped, then the white space trimmed. *)
Definition cleaned (title r : string) : Prop :=
  ∃ s, stripped title s ∧ trimmed s r.

(** Two products that differ at most in the title. *)
Definition same_but_title (a b : Product.t) : Prop :=
  Product.id a = Product.id b
  ∧ Product.price a = Product.price b
  ∧ Product.url a = Product.url b
  ∧ Product.datePosted a = Product.datePosted b
  ∧ Product.date a = Product.date b
  ∧ Product.state a = Product.state b
  ∧ Product.thumbnail a = Product.thumbnail b
  ∧ Product.description a = Product.description b
  ∧ Product.photos a = Product.photos b
  ∧ Product.detailsScrapedAt a = Product.detailsScrapedAt b
  ∧ Product.odooExport a = Product.odooExport b.

(** The search of a product by its title. *)
Definition search_of (title : string) : Request :=
  mkRequest "/product.template/search_read" (Domain title).

(** The requests of one export of [product] as the specification has them:
    the search under the title of the product first, then requests that
    are about the product. *)
Definition export_block (product : Product.t) (block : list Request) : Prop :=
  ∃ rest, block = search_of (Product.title product) :: rest
          ∧ Forall (about product) rest.

(** ** The popup: what the bulk export sends *)

(** The filter of the popup's [exportToOdoo]:
    [p.state === ProductState.ACTIVE && p.description && p.photos &&
     p.photos.length > 0]. *)
Definition productsToExport (currentProducts : list Product.t)
  : list Product.t :=
  List.filter
    (fun p =>
       (bool_decide (Product.state p = ACTIVE)
        && match Product.description p with
           | Some description => JsString.truthy description
           | None => false
           end
        && match Product.photos p with
           | Some photos => Nat.ltb 0 (length photos)
           | None => false
           end)%bool)
    currentProducts.




(** The pages that [scrapeAllPages] reads: page [n] is read when it is one
    of the [totalPages] pages and the button to the next page was there on
    every page before it. *)
Definition read_page (shown : nat → ProfilePage) (totalPages n : nat) : Prop :=
  (1 ≤ n ≤ totalPages)%nat
  ∧ ∀ m, (1 ≤ m < n)%nat → nextPageButton (shown m) = true.

(** The id [k] is the id of an article that [scrapeCurrentPage] finds on
    the page. *)
Definition on_page (page : ProfilePage) (k : string) : Prop :=
  onProfilePage page = true
  ∧ ∃ l, Some l ∈ articles page ∧ ProductListing.id l = k.

(** The id [k] is the id of an article of a page that is read. *)
Definition seen (shown : nat → ProfilePage) (totalPages : nat) (k : string)
  : Prop :=
  ∃ n, read_page shown totalPages n ∧ on_page (shown n) k.

(** [s] written with or without a slash at its end. *)
Definition slash_after (s s' : string) : Prop := s' = s ∨ s' = s ++ "/".

(** [s] written with or without a slash at its start. *)
Definition slash_before (s s' : string) : Prop := s' = s ∨ s' = "/" ++ s.

(** * Properties *)

(** Decide a closed, decidable proposition by evaluation. *)
Ltac by_compute :=
  match goal with
  | |- ?P => apply (bool_decide_unpack P); vm_compute; exact I
  end.

(** ** The listing store *)

Section Reconciler.

Implicit Types (existing m : gmap string ProductListing.t).
Implicit Types (l e : ProductListing.t) (ls : list ProductListing.t).

Lemma merge_step_lookup acc l :
  merged (merge_step acc l) !! ProductListing.id l
  = Some (settle (merged acc !! ProductListing.id l) l).
Proof.
  unfold merge_step, settle.
  destruct (merged acc !! ProductListing.id l) as [e|] eqn:E.
  - destruct (hasChanged e l); simpl; [apply lookup_insert_eq | exact E].
  - destruct (inherited (ProductListing.id l)); simpl; apply lookup_insert_eq.
Qed.

Lemma merge_step_other acc l k :
  k ≠ ProductListing.id l →
  merged (merge_step acc l) !! k = merged acc !! k.
Proof.
  intros Hk. unfold merge_step.
  destruct (merged acc !! ProductListing.id l) as [e|];
    [destruct (hasChanged e l)|destruct (inherited (ProductListing.id l))];
    simpl; trivial; apply lookup_insert_ne; congruence.
Qed.

Lemma merge_fold_other ls : ∀ acc k,
  k ∉ map ProductListing.id ls →
  merged (fold_left merge_step ls acc) !! k = merged acc !! k.
Proof.
  induction ls as [|l0 ls IH]; intros acc k Hk; simpl; [reflexivity|].
  simpl in Hk. apply not_elem_of_cons in Hk as [Hne Hk].
  rewrite IH by exact Hk. apply merge_step_other, Hne.
Qed.

Lemma merge_fold_elem ls : ∀ acc l,
  NoDup (map ProductListing.id ls) → l ∈ ls →
  merged (fold_left merge_step ls acc) !! ProductListing.id l
  = Some (settle (merged acc !! ProductListing.id l) l).
Proof.
  induction ls as [|l0 ls IH]; intros acc l Hnd Hl; [inversion Hl|].
  simpl in Hnd. apply NoDup_cons in Hnd as [Hfresh Hnd].
  apply elem_of_cons in Hl as [->|Hl]; simpl.
  - rewrite merge_fold_other by exact Hfresh. apply merge_step_lookup.
  - rewrite IH by assumption.
    rewrite merge_step_other; [reflexivity|].
    intros Heq. apply Hfresh. rewrite <- Heq.
    apply (list_elem_of_fmap_2 ProductListing.id), Hl.
Qed.

Lemma merge_fold_keeps ls : ∀ acc k,
  is_Some (merged acc !! k) →
  is_Some (merged (fold_left merge_step ls acc) !! k).
Proof.
  induction ls as [|l0 ls IH]; intros acc k Hk; simpl; [exact Hk|].
  apply IH.
  destruct (decide (k = ProductListing.id l0)) as [->|Hne].
  - rewrite merge_step_lookup. eauto.
  - rewrite merge_step_other by exact Hne. exact Hk.
Qed.

Lemma merge_step_counts acc l :
  inherited (ProductListing.id l) = false →
  added (merge_step acc l)
  = (added acc + (if is_new (merged acc) l then 1 else 0))%nat
  ∧ updated (merge_step acc l)
    = (updated acc + (if is_changed (merged acc) l then 1 else 0))%nat.
Proof.
  intros Hown. unfold merge_step, is_new, is_changed.
  destruct (merged acc !! ProductListing.id l) as [e|] eqn:E.
  - rewrite bool_decide_eq_false_2 by discriminate.
    destruct (hasChanged e l); simpl; lia.
  - rewrite bool_decide_eq_true_2 by reflexivity. rewrite Hown. simpl. lia.
Qed.

Lemma merge_fold_counts ls : ∀ acc,
  NoDup (map ProductListing.id ls) →
  (∀ l, l ∈ ls → inherited (ProductListing.id l) = false) →
  added (fold_left merge_step ls acc)
  = (added acc + length (List.filter (is_new (merged acc)) ls))%nat
  ∧ updated (fold_left merge_step ls acc)
    = (updated acc + length (List.filter (is_changed (merged acc)) ls))%nat.
Proof.
  induction ls as [|l0 ls IH]; intros acc Hnd Hown; simpl; [lia|].
  simpl in Hnd. apply NoDup_cons in Hnd as [Hfresh Hnd].
  destruct (IH (merge_step acc l0) Hnd) as [Ha Hu].
  { intros l Hl. apply Hown. right. exact Hl. }
  destruct (merge_step_counts acc l0) as [Ha0 Hu0]; [apply Hown; left|].
  assert (Hsame : ∀ l, In l ls →
            merged (merge_step acc l0) !! ProductListing.id l
            = merged acc !! ProductListing.id l).
  { intros l Hl. apply merge_step_other. intros Heq. apply Hfresh.
    rewrite <- Heq. apply (list_elem_of_fmap_2 ProductListing.id).
    apply list_elem_of_In, Hl. }
  rewrite (filter_ext_in (is_new (merged (merge_step acc l0)))
                         (is_new (merged acc))) in Ha
    by (intros l Hl; unfold is_new; rewrite (Hsame l Hl); reflexivity).
  rewrite (filter_ext_in (is_changed (merged (merge_step acc l0)))
                         (is_changed (merged acc))) in Hu
    by (intros l Hl; unfold is_changed; rewrite (Hsame l Hl); reflexivity).
  rewrite Ha, Hu, Ha0, Hu0.
  destruct (is_new (merged acc) l0), (is_changed (merged acc) l0);
    simpl; lia.
Qed.




Lemma value_sne_false a b : value_sne a b = false ↔ a = b.
Proof.
  unfold value_sne. rewrite negb_false_iff. apply bool_decide_eq_true.
Qed.



Lemma string_sne_eq a b : string_sne a b = false ↔ a = b.
Proof.
  unfold string_sne. rewrite negb_false_iff. apply String.eqb_eq.
Qed.

Lemma state_sne_eq a b : state_sne a b = false ↔ a = b.
Proof.
  unfold state_sne. rewrite negb_false_iff. apply bool_decide_eq_true.
Qed.

Lemma number_sne_eq a b : number_sne a b = false ↔ a = b ∧ b ≠ NaN.
Proof.
  destruct a as [|x], b as [|y]; simpl;
    try (split; [discriminate | intros [H1 H2]; congruence]).
  rewrite negb_false_iff, Z.eqb_eq. split.
  - intros ->. split; [reflexivity | discriminate].
  - intros [[= ->] _]. reflexivity.
Qed.

Lemma read_same_thumbnail a b : read a = read b ↔ same_thumbnail a b.
Proof.
  destruct a, b; simpl; split; try tauto; try discriminate; congruence.
Qed.

(** The comparison of the code is the comparison of the specification. *)
Lemma hasChanged_six_fields e l :
  hasChanged e l = false ↔ six_fields_equal e l.
Proof.
  unfold hasChanged, six_fields_equal.
  rewrite !orb_false_iff, !string_sne_eq, state_sne_eq, number_sne_eq,
    value_sne_false, read_same_thumbnail.
  tauto.
Qed.

(** The spread of the code is the overwrite of the specification. *)
Lemma spread_overwrite e l : overwrite_of e l (ProductListing.spread e l).
Proof.
  unfold overwrite_of, ProductListing.spread, spread_optional. simpl.
  repeat (split; [reflexivity|]).
  split; [|intros ->; reflexivity].
  destruct (ProductListing.thumbnail l); [congruence|reflexivity..].
Qed.

Lemma is_new_absent existing ls :
  List.filter (is_new existing) ls = absent_from existing ls.
Proof. reflexivity. Qed.

Lemma is_changed_differing existing ls :
  List.filter (is_changed existing) ls = differing_from existing ls.
Proof.
  unfold differing_from. apply List.filter_ext. intros l. unfold is_changed.
  destruct (existing !! ProductListing.id l) as [e|]; [|reflexivity].
  destruct (hasChanged e l) eqn:Hc; symmetry.
  - apply bool_decide_eq_true_2. rewrite <- hasChanged_six_fields.
    congruence.
  - apply bool_decide_eq_false_2. rewrite <- hasChanged_six_fields. auto.
Qed.

End Reconciler.

(** C1, as amended: when the ids of the incoming listings are pairwise
    distinct and none of them is the name of a property that every object
    inherits, [mergeListingsWithStats] inserts every listing whose id is
    absent and counts it in [added]; it compares every listing whose id is
    present with the stored one on title, price, state, datePosted, url and
    thumbnail, where a price that is not a number is equal to no price;
    when one of the six differs it stores the overwrite, in which the
    incoming fields win and a thumbnail that the incoming listing does not
    carry is kept, and counts the listing in [updated], and otherwise it
    leaves the stored listing alone; ids that are not incoming keep their
    listing, and no id is lost. *)
Theorem mergeListingsWithStats_distinct_ids
    (existing : gmap string ProductListing.t)
    (newListings : list ProductListing.t) :
  NoDup (map ProductListing.id newListings) →
  (∀ l, l ∈ newListings → ProductListing.id l ∉ Object_prototype) →
  merge_described existing newListings
    (mergeListingsWithStats existing newListings).
Proof.
  intros Hnd Hown. unfold merge_described, mergeListingsWithStats.
  destruct (merge_fold_counts newListings (mkMerge existing 0 0) Hnd)
    as [Ha Hu].
  { intros l Hl. apply bool_decide_eq_false_2, Hown, Hl. }
  simpl in Ha, Hu. rewrite is_new_absent in Ha.
  rewrite is_changed_differing in Hu.
  split; [|split; [exact Ha|split; [|split; [|split; [exact Hu|split]]]]].
  - intros l Hl Hnew.
    rewrite merge_fold_elem by assumption. simpl. rewrite Hnew. reflexivity.
  - intros l e Hl He Hdiff.
    rewrite merge_fold_elem by assumption. simpl. rewrite He. simpl.
    destruct (hasChanged e l) eqn:Hc.
    + eexists. split; [reflexivity | apply spread_overwrite].
    + apply hasChanged_six_fields in Hc. contradiction.
  - intros l e Hl He Hsame.
    rewrite merge_fold_elem by assumption. simpl. rewrite He. simpl.
    apply hasChanged_six_fields in Hsame. rewrite Hsame. reflexivity.
  - intros k Hk. rewrite merge_fold_other by exact Hk. reflexivity.
  - intros k Hk. apply merge_fold_keeps. exact Hk.
Qed.

Lemma mergeListingsWithStats_distinct_ids_witness :
  merge_described
    {["7" := listing "7" "Wagon Jouef" 12 (Str "t.jpg")]}
    [listing "7" "Wagon Jouef" 15 Missing; listing "8" "Loco Roco" 40 Missing]
    (mergeListingsWithStats
       {["7" := listing "7" "Wagon Jouef" 12 (Str "t.jpg")]}
       [listing "7" "Wagon Jouef" 15 Missing; listing "8" "Loco Roco" 40 Missing]).
Proof.
  apply mergeListingsWithStats_distinct_ids.
  - by_compute.
  - intros l Hl.
    apply elem_of_cons in Hl as [->|Hl];
      [|apply elem_of_cons in Hl as [->|Hl]; [|inversion Hl]];
      by_compute.
Defined.

(** C1, as stated, fails when an id is repeated in the batch: the second
    listing with a new id is compared with the first one, so it is counted
    as an update and not as an addition, and the first one is overwritten. *)
Lemma mergeListingsWithStats_repeated_id :
  let a := listing "7" "Wagon Jouef" 12 Missing in
  let b := listing "7" "Wagon Jouef" 15 Missing in
  let r := mergeListingsWithStats ∅ [a; b] in
  (added r = 1%nat ∧ updated r = 1%nat ∧ merged r !! "7" = Some b)
  ∧ ¬ merge_described ∅ [a; b] r.
Proof.
  split.
  - vm_compute. repeat split.
  - intros (_ & Hadded & _). vm_compute in Hadded. discriminate.
Qed.

(** The other two conditions of the amended C1 are needed as well.  A
    stored listing whose price is [NaN] and an incoming one that is the
    same in every field are not equal for [!==]: the listing is counted as
    an update.  And an id that is the name of an inherited property is
    found in the empty mapping: the listing is stored, but counted as an
    update and not as an addition. *)
Example mergeListingsWithStats_equal_NaN :
  let a :=
    ProductListing.mk "7" "Wagon Jouef" NaN "u" "N/A" "d" ACTIVE Missing in
  let r := mergeListingsWithStats {["7" := a]} [a] in
  added r = 0%nat ∧ updated r = 1%nat ∧ merged r !! "7" = Some a.
Proof. vm_compute. repeat split. Qed.

Example mergeListingsWithStats_inherited_id :
  let a := listing "constructor" "Wagon Jouef" 12 Missing in
  let r := mergeListingsWithStats ∅ [a] in
  added r = 0%nat ∧ updated r = 1%nat
  ∧ merged r !! "constructor" = Some a.
Proof. vm_compute. repeat split. Qed.




(** The other two hypotheses of the amended C7 are needed as well: a [NaN]
    price differs from itself, and a listing without the [thumbnail]
    property never takes the stored thumbnail away. *)
Example mergeListingsWithStats_again_NaN :
  let a :=
    ProductListing.mk "7" "Wagon Jouef" NaN "u" "N/A" "d" ACTIVE Missing in
  ¬ merge_idempotent ∅ [a].
Proof.
  intros a (_ & Hupdated & _). vm_compute in Hupdated. discriminate.
Qed.

Example mergeListingsWithStats_again_thumbnail :
  let e := listing "7" "Wagon Jouef" 12 (Str "t.jpg") in
  let a := listing "7" "Wagon Jouef" 12 Missing in
  merged (mergeListingsWithStats {["7" := e]} [a]) !! "7" = Some e
  ∧ ¬ merge_idempotent {["7" := e]} [a].
Proof.
  split; [vm_compute; reflexivity|].
  intros (_ & Hupdated & _). vm_compute in Hupdated. discriminate.
Qed.

Section MarkRemoved.

Variable currentIdsSet : gset string.

Lemma mark_fold_lookup (entries : list (string * ProductListing.t)) :
  ∀ (acc : gmap string ProductListing.t * nat) (k : string),
    NoDup entries.*1 →
    (fold_left (mark_step currentIdsSet) entries acc).1 !! k
    = match (list_to_map entries : gmap string ProductListing.t) !! k with
      | Some l => if (negb (bool_decide (k ∈ currentIdsSet))
                      && state_sne (ProductListing.state l) REMOVED)%bool
                  then Some (ProductListing.with_state l REMOVED)
                  else acc.1 !! k
      | None => acc.1 !! k
      end.
Proof.
  induction entries as [|[id0 l0] entries IH]; intros acc k Hnd.
  - simpl. rewrite lookup_empty. reflexivity.
  - rewrite fmap_cons in Hnd. apply NoDup_cons in Hnd as [Hfresh Hnd].
    cbn [fold_left]. rewrite IH by exact Hnd.
    rewrite list_to_map_cons.
    destruct (decide (id0 = k)) as [->|Hne].
    + rewrite lookup_insert_eq.
      rewrite (not_elem_of_list_to_map_1 entries k Hfresh).
      unfold mark_step.
      destruct (negb (bool_decide (k ∈ currentIdsSet))
                && state_sne (ProductListing.state l0) REMOVED)%bool;
        simpl; [apply lookup_insert_eq | reflexivity].
    + rewrite lookup_insert_ne by exact Hne.
      assert (Hacc : (mark_step currentIdsSet acc (id0, l0)).1 !! k
                     = acc.1 !! k).
      { unfold mark_step.
        destruct (negb (bool_decide (id0 ∈ currentIdsSet))
                  && state_sne (ProductListing.state l0) REMOVED)%bool;
          simpl; [apply lookup_insert_ne, Hne | reflexivity]. }
      rewrite Hacc. reflexivity.
Qed.

Lemma mark_fold_count (entries : list (string * ProductListing.t)) :
  ∀ acc : gmap string ProductListing.t * nat,
    (acc.2 ≤ (fold_left (mark_step currentIdsSet) entries acc).2)%nat
    ∧ ((fold_left (mark_step currentIdsSet) entries acc).2 = acc.2 →
       (fold_left (mark_step currentIdsSet) entries acc).1 = acc.1).
Proof.
  induction entries as [|[id0 l0] entries IH]; intros acc; simpl.
  - split; [lia | reflexivity].
  - destruct (IH (mark_step currentIdsSet acc (id0, l0))) as [Hle Heq].
    unfold mark_step in *.
    destruct (negb (bool_decide (id0 ∈ currentIdsSet))
              && state_sne (ProductListing.state l0) REMOVED)%bool;
      simpl in *.
    + split; [lia | intros Hc; lia].
    + split; assumption.
Qed.

Lemma mark_loop_lookup (listings : gmap string ProductListing.t) k :
  (mark_loop currentIdsSet listings).1 !! k = marked currentIdsSet k <$> listings !! k.
Proof.
  unfold mark_loop. rewrite mark_fold_lookup by apply NoDup_fst_map_to_list.
  rewrite list_to_map_to_list. simpl. unfold marked.
  destruct (listings !! k) as [l|] eqn:E; simpl; [|reflexivity].
  destruct (negb (bool_decide (k ∈ currentIdsSet))
            && state_sne (ProductListing.state l) REMOVED)%bool;
    reflexivity.
Qed.

Lemma mark_loop_none (listings : gmap string ProductListing.t) :
  (mark_loop currentIdsSet listings).2 = 0%nat →
  (mark_loop currentIdsSet listings).1 = listings.
Proof.
  unfold mark_loop. intros H.
  apply (mark_fold_count (map_to_list listings) (listings, 0%nat)), H.
Qed.

End MarkRemoved.

Lemma markMissingAsRemoved_listings (st : Storage) username currentIds id :
  stored_listings (markMissingAsRemoved st username currentIds) username !! id
  = marked (list_to_set currentIds) id <$> stored_listings st username !! id.
Proof.
  unfold markMissingAsRemoved, stored_listings.
  destruct (getProfilesItem st !! username) as [profile|] eqn:Ep.
  - pose proof (mark_loop_lookup (list_to_set currentIds)
                  (ProfileData.listings profile) id) as Hl.
    pose proof (mark_loop_none (list_to_set currentIds)
                  (ProfileData.listings profile)) as Hn.
    destruct (mark_loop (list_to_set currentIds) (ProfileData.listings profile))
      as [listings removedCount]. simpl in Hl, Hn.
    destruct removedCount as [|n]; simpl.
    + rewrite Ep. simpl. rewrite <- Hl, (Hn eq_refl). reflexivity.
    + unfold getProfilesItem at 1. simpl. rewrite lookup_insert_eq. simpl.
      exact Hl.
  - rewrite Ep. simpl. rewrite lookup_empty. reflexivity.
Qed.

(** C3: [markMissingAsRemoved] turns every stored listing of the user whose
    id is not among [currentIds] and whose state is not REMOVED into the same
    listing with state REMOVED; a listing that is already REMOVED, and a
    listing whose id is among [currentIds], stay as they are. *)
Theorem markMissingAsRemoved_spec (st : Storage) (username : string)
    (currentIds : list string) (id : string) (l : ProductListing.t) :
  stored_listings st username !! id = Some l →
  let after :=
    stored_listings (markMissingAsRemoved st username currentIds) username in
  (id ∉ currentIds → ProductListing.state l ≠ REMOVED →
   after !! id
   = Some (ProductListing.mk (ProductListing.id l) (ProductListing.title l)
             (ProductListing.price l) (ProductListing.url l)
             (ProductListing.datePosted l) (ProductListing.date l) REMOVED
             (ProductListing.thumbnail l)))
  ∧ (ProductListing.state l = REMOVED → after !! id = Some l)
  ∧ (id ∈ currentIds → after !! id = Some l).
Proof.
  intros Hl after. unfold after.
  rewrite markMissingAsRemoved_listings, Hl. simpl. unfold marked, state_sne.
  repeat split.
  - intros Hout Hstate.
    rewrite bool_decide_eq_false_2 by (rewrite elem_of_list_to_set; exact Hout).
    rewrite bool_decide_eq_false_2 by exact Hstate. reflexivity.
  - intros Hstate.
    rewrite (bool_decide_eq_true_2 _ Hstate), andb_false_r. reflexivity.
  - intros Hin.
    rewrite bool_decide_eq_true_2 by (rewrite elem_of_list_to_set; exact Hin).
    reflexivity.
Qed.

Lemma markMissingAsRemoved_spec_witness :
  let after :=
    stored_listings
      (markMissingAsRemoved (Some {["alice" := alice]}) "alice" ["9"]) "alice" in
  after !! "7"
  = Some (ProductListing.with_state (listing "7" "Wagon Jouef" 12 Missing) REMOVED).
Proof.
  refine (proj1 (markMissingAsRemoved_spec (Some {["alice" := alice]}) "alice"
                   ["9"] "7" (listing "7" "Wagon Jouef" 12 Missing) _) _ _).
  - vm_compute. reflexivity.
  - by_compute.
  - simpl. discriminate.
Defined.

(** C10: when the stored profile of a user has export statuses,
    [handleSaveProducts] writes back a profile made of the user name, the
    profile name, the merged listings, the stored details and the time of the
    scrape: the [odooExports] mapping is not in it, so no listing of that
    user has an export status afterwards. *)
Theorem handleSaveProducts_drops_odooExports (now : string) (st : Storage)
    (username : string) (newProducts : list ProductListing.t)
    (profileName : option string) (profile : ProfileData.t)
    (exports : gmap string OdooExportStatus.t) :
  getProfilesItem st !! username = Some profile →
  ProfileData.odooExports profile = Some exports →
  exports ≠ ∅ →
  let after :=
    getProfilesItem
      (handleSaveProducts now st username newProducts profileName).2
    !! username in
  after
  = Some (ProfileData.mk username
            (or_else profileName (ProfileData.profileName profile))
            (merged (mergeListingsWithStats (ProfileData.listings profile)
                                            newProducts))
            (ProfileData.details profile) None now)
  ∧ (after ≫= ProfileData.odooExports) = None.
Proof.
  intros Hp _ _ after. unfold after, handleSaveProducts. simpl.
  rewrite lookup_insert_eq, Hp. simpl. split; reflexivity.
Qed.

Lemma handleSaveProducts_drops_odooExports_witness :
  (getProfilesItem
     (handleSaveProducts "2024-03-01T09:00:00.000Z" (Some {["alice" := alice]})
        "alice" [listing "9" "Rails Piko" 5 Missing] None).2
   !! "alice") ≫= ProfileData.odooExports = None.
Proof.
  refine (proj2 (handleSaveProducts_drops_odooExports
                   "2024-03-01T09:00:00.000Z" (Some {["alice" := alice]})
                   "alice" [listing "9" "Rails Piko" 5 Missing] None alice
                   {[ "7" := OdooExportStatus.mk true (Some 31)
                               (Some "2024-02-02") None ]} _ _ _)).
  - vm_compute. reflexivity.
  - reflexivity.
  - intros H. apply (f_equal (fun m => m !! "7")) in H.
    vm_compute in H. discriminate.
Defined.

(** ** Classification of titles *)

Lemma getTags_elem (product : Product.t) (tag : string) :
  tag ∈ getTags product ↔
  ∃ keywords, (tag, keywords) ∈ TAGS_MAP
              ∧ ∃ keyword word, keyword ∈ keywords ∧ word ∈ titleWords product
                                ∧ JsString.includes word keyword = true.
Proof.
  unfold getTags. rewrite list_elem_of_In, in_map_iff. split.
  - intros ([t keywords] & <- & Hin). apply filter_In in Hin as [Hin Hm].
    exists keywords. split; [apply list_elem_of_In, Hin|].
    unfold matches in Hm. simpl in Hm.
    apply existsb_exists in Hm as (keyword & Hk & Hw).
    apply existsb_exists in Hw as (word & Hw & Hi).
    exists keyword, word. rewrite !list_elem_of_In. auto.
  - intros (keywords & Hin & keyword & word & Hk & Hw & Hi).
    exists (tag, keywords). split; [reflexivity|].
    apply filter_In. split; [apply list_elem_of_In, Hin|].
    unfold matches. simpl. apply existsb_exists.
    exists keyword. split; [apply list_elem_of_In, Hk|].
    apply existsb_exists. exists word. split; [apply list_elem_of_In, Hw|exact Hi].
Qed.

(** C5: at the title "Wagon Jouef H0 SNCF", [getTags] returns Jouef and
    SNCF without H0.  The word of the title is "h0" with the digit zero,
    and the one keyword that [TAGS_MAP] gives the tag H0 is "ho" with the
    letter o, whereas every other tag of the table has its own name, in
    small letters, among its keywords.  [getCategory] returns Wagons for
    "Wagon Jouef H0". *)
Theorem classification_of_wagon_titles (product : Product.t) :
  getTags (Product.with_title product "Wagon Jouef H0 SNCF") = ["Jouef"; "SNCF"]
  ∧ getCategory (Product.with_title product "Wagon Jouef H0") = Some "Wagons"
  ∧ (∀ tag keywords, (tag, keywords) ∈ TAGS_MAP → tag ≠ "H0" →
                     JsString.toLowerCase tag ∈ keywords)
  ∧ (∀ keywords, ("H0", keywords) ∈ TAGS_MAP →
                 keywords = ["ho"] ∧ JsString.toLowerCase "H0" ∉ keywords).
Proof.
  split; [vm_compute; reflexivity|]. split; [vm_compute; reflexivity|].
  split.
  - intros tag keywords Hin Hne. unfold TAGS_MAP in Hin.
    repeat (apply elem_of_cons in Hin as [Hin|Hin];
            [injection Hin as -> ->; first [congruence | by_compute]|]).
    inversion Hin.
  - intros keywords Hin. unfold TAGS_MAP in Hin.
    repeat (apply elem_of_cons in Hin as [Hin|Hin];
            [pose proof (f_equal fst Hin) as Ht;
             pose proof (f_equal snd Hin) as Hkw; simpl in Ht, Hkw;
             first [discriminate Ht | subst keywords; split; by_compute]|]).
    inversion Hin.
Qed.

(** H0 is not among the tags of "Wagon Jouef H0 SNCF", so the set of its
    tags is not that of Jouef, H0 and SNCF. *)
Lemma getTags_H0_with_zero :
  titleWords (titled "Wagon Jouef H0 SNCF") = ["wagon"; "jouef"; "h0"; "sncf"]
  ∧ ("H0" ∉ getTags (titled "Wagon Jouef H0 SNCF"))
  ∧ (list_to_set (getTags (titled "Wagon Jouef H0 SNCF")) : gset string)
    ≠ {["Jouef"; "H0"; "SNCF"]}.
Proof.
  assert (Hnot : "H0" ∉ getTags (titled "Wagon Jouef H0 SNCF")).
  { intros H. vm_compute in H.
    repeat (apply elem_of_cons in H as [H|H]; [discriminate|]). inversion H. }
  split; [vm_compute; reflexivity|]. split; [exact Hnot|].
  intros Heq. apply Hnot. apply (elem_of_list_to_set (C := gset string)).
  rewrite Heq. set_solver.
Qed.

(** Written with the letter, the same title gets the tag. *)
Example getTags_HO_with_letter :
  getTags (titled "Wagon Jouef HO SNCF") = ["Jouef"; "H0"; "SNCF"].
Proof. vm_compute. reflexivity. Qed.

(** ** The cleaning of titles *)

Lemma append_cons c (s k : string) : String c s ++ k = String c (s ++ k).
Proof. reflexivity. Qed.

Lemma append_empty s : s ++ "" = s.
Proof.
  induction s as [|c s IH]; [reflexivity|].
  rewrite append_cons, IH; reflexivity.
Qed.

Lemma append_assoc (a b c : string) : (a ++ b) ++ c = a ++ b ++ c.
Proof.
  induction a as [|x a IH]; [reflexivity|].
  rewrite !append_cons, IH; reflexivity.
Qed.

Lemma length_append (a b : string) :
  String.length (a ++ b) = (String.length a + String.length b)%nat.
Proof.
  induction a as [|x a IH]; [reflexivity|].
  rewrite append_cons. simpl. rewrite IH; reflexivity.
Qed.

Lemma drop_append (a b : string) : JsString.drop (String.length a) (a ++ b) = b.
Proof.
  induction a as [|x a IH]; [destruct b; reflexivity|].
  rewrite append_cons. exact IH.
Qed.

Lemma prefix_append (a b : string) : String.prefix a (a ++ b) = true.
Proof.
  induction a as [|x a IH]; [destruct b; reflexivity|].
  change (String x a ++ b) with (String x (a ++ b)). cbn [String.prefix].
  destruct (ascii_dec x x); [exact IH | contradiction].
Qed.

Lemma prefix_split (a : string) : ∀ s,
  String.prefix a s = true → s = a ++ JsString.drop (String.length a) s.
Proof.
  induction a as [|x a IH]; intros s H; [destruct s; reflexivity|].
  destruct s as [|y s]; [discriminate|]. cbn [String.prefix] in H.
  destruct (ascii_dec x y) as [->|]; [|discriminate].
  rewrite append_cons. cbn [String.length JsString.drop]. f_equal. apply IH, H.
Qed.

Lemma prefix_common (a : string) : ∀ b s,
  String.prefix a s = true → String.prefix b s = true →
  String.prefix a b = true ∨ String.prefix b a = true.
Proof.
  induction a as [|x a IH]; intros b s Ha Hb.
  - left. destruct b; reflexivity.
  - destruct b as [|y b]; [right; reflexivity|].
    destruct s as [|z s]; [discriminate|]. cbn [String.prefix] in *.
    destruct (ascii_dec x z) as [->|]; [|discriminate].
    destruct (ascii_dec y z) as [->|]; [|discriminate].
    destruct (ascii_dec z z); [|contradiction]. eapply IH; eassumption.
Qed.

Lemma prefix_same_length (a : string) : ∀ b,
  String.prefix a b = true → String.length a = String.length b → a = b.
Proof.
  induction a as [|x a IH]; intros b H Hl.
  - destruct b; [reflexivity | discriminate].
  - destruct b as [|y b]; [discriminate|]. cbn [String.prefix] in H.
    destruct (ascii_dec x y) as [->|]; [|discriminate].
    f_equal. apply IH; [exact H | simpl in Hl; lia].
Qed.

(** The table of the white space is the UTF-8 of the white space code
    points. *)
Lemma white_space_table : JsString.white_space = map utf8 white_space_codes.
Proof. vm_compute. reflexivity. Qed.

Lemma is_white_space_table w : is_white_space w ↔ w ∈ JsString.white_space.
Proof.
  rewrite white_space_table, list_elem_of_In, in_map_iff.
  unfold is_white_space. split.
  - intros (n & Hn & ->). exists n.
    split; [reflexivity | apply list_elem_of_In, Hn].
  - intros (n & <- & Hn). exists n.
    split; [apply list_elem_of_In, Hn | reflexivity].
Qed.

(** No white space character starts another one, and none is empty. *)
Lemma white_space_prefix_free w w' :
  w ∈ JsString.white_space → w' ∈ JsString.white_space →
  String.prefix w w' = true → w = w'.
Proof.
  assert (H : forallb (fun a => forallb (fun b =>
                implb (String.prefix a b) (String.eqb a b))
                JsString.white_space) JsString.white_space = true)
    by (vm_compute; reflexivity).
  intros Hw Hw' Hp. rewrite forallb_forall in H.
  specialize (H w (proj1 (list_elem_of_In _ _) Hw)).
  rewrite forallb_forall in H.
  specialize (H w' (proj1 (list_elem_of_In _ _) Hw')).
  rewrite Hp in H. simpl in H. apply String.eqb_eq, H.
Qed.

Lemma white_space_not_empty w :
  w ∈ JsString.white_space → (1 ≤ String.length w)%nat.
Proof.
  assert (H : forallb (fun a => Nat.leb 1 (String.length a))
                JsString.white_space = true) by (vm_compute; reflexivity).
  intros Hw. rewrite forallb_forall in H.
  apply Nat.leb_le, H, list_elem_of_In, Hw.
Qed.

Lemma space_at_Some s rest :
  JsString.space_at s = Some rest →
  ∃ w, w ∈ JsString.white_space ∧ s = w ++ rest.
Proof.
  unfold JsString.space_at.
  destruct (List.find _ _) as [w|] eqn:E; [|discriminate].
  intros [= <-]. apply find_some in E as [Hin Hp].
  exists w. split; [apply list_elem_of_In, Hin | apply prefix_split, Hp].
Qed.

Lemma space_at_None s :
  JsString.space_at s = None →
  ∀ w rest, w ∈ JsString.white_space → s ≠ w ++ rest.
Proof.
  unfold JsString.space_at.
  destruct (List.find _ _) as [w|] eqn:E; [discriminate|].
  intros _ w rest Hw ->.
  pose proof (find_none _ _ E w (proj1 (list_elem_of_In _ _) Hw)) as H.
  simpl in H. rewrite prefix_append in H. discriminate.
Qed.

Lemma space_at_append w rest :
  w ∈ JsString.white_space → JsString.space_at (w ++ rest) = Some rest.
Proof.
  intros Hw. destruct (JsString.space_at (w ++ rest)) as [rest'|] eqn:E.
  - unfold JsString.space_at in E.
    destruct (List.find _ _) as [w'|] eqn:F; [|discriminate].
    injection E as <-. apply find_some in F as [Hin Hp].
    apply list_elem_of_In in Hin.
    assert (w' = w) as ->.
    { destruct (prefix_common w' w (w ++ rest) Hp (prefix_append w rest))
        as [H|H].
      - apply white_space_prefix_free; assumption.
      - symmetry. apply white_space_prefix_free; assumption. }
    rewrite drop_append. reflexivity.
  - exfalso. apply (space_at_None _ E w rest Hw). reflexivity.
Qed.

Lemma blank_empty : blank "".
Proof. exists []. split; [constructor | reflexivity]. Qed.

Lemma blank_cons w s : w ∈ JsString.white_space → blank s → blank (w ++ s).
Proof.
  intros Hw (ws & Hws & ->). exists (w :: ws).
  split; [constructor; [apply is_white_space_table|]; assumption | reflexivity].
Qed.

(** What [drop_spaces] drops is white space, and with enough fuel what it
    leaves does not start with white space. *)
Lemma drop_spaces_blank n : ∀ s,
  ∃ a, s = a ++ JsString.drop_spaces n s ∧ blank a.
Proof.
  induction n as [|n IH]; intros s; simpl.
  - exists "". split; [reflexivity | apply blank_empty].
  - destruct (JsString.space_at s) as [rest|] eqn:E.
    + apply space_at_Some in E as (w & Hw & ->).
      destruct (IH rest) as (a & Ha & Hb). exists (w ++ a).
      split; [rewrite append_assoc, <- Ha; reflexivity|].
      apply blank_cons; assumption.
    + exists "". split; [reflexivity | apply blank_empty].
Qed.

Lemma drop_spaces_done n : ∀ s,
  (String.length s ≤ n)%nat →
  JsString.space_at (JsString.drop_spaces n s) = None.
Proof.
  induction n as [|n IH]; intros s Hn; simpl.
  - destruct s; [reflexivity | simpl in Hn; lia].
  - destruct (JsString.space_at s) as [rest|] eqn:E; [|exact E].
    apply IH. apply space_at_Some in E as (w & Hw & ->).
    rewrite length_append in Hn.
    pose proof (white_space_not_empty w Hw). lia.
Qed.

Lemma drop_spaces_of_blank n : ∀ s,
  blank s → (String.length s ≤ n)%nat → JsString.drop_spaces n s = "".
Proof.
  induction n as [|n IH]; intros s (ws & Hws & ->) Hn.
  - simpl. destruct (fold_right append "" ws); [reflexivity | simpl in Hn; lia].
  - destruct Hws as [|w ws Hw Hws]; [reflexivity|]. simpl in *.
    apply is_white_space_table in Hw.
    rewrite space_at_append by exact Hw. apply IH.
    + exists ws. auto.
    + rewrite length_append in Hn.
      pose proof (white_space_not_empty w Hw). lia.
Qed.

Lemma only_spaces_blank s : JsString.only_spaces s = true ↔ blank s.
Proof.
  unfold JsString.only_spaces, JsString.trimStart. split.
  - intros H. destruct (drop_spaces_blank (String.length s) s) as (a & Ha & Hb).
    destruct (JsString.drop_spaces (String.length s) s); [|discriminate].
    rewrite append_empty in Ha. subst a. exact Hb.
  - intros H. rewrite drop_spaces_of_blank by (auto || lia). reflexivity.
Qed.

Lemma trimEnd_spec s :
  ∃ b, s = JsString.trimEnd s ++ b ∧ blank b
       ∧ ∀ w rest, w ∈ JsString.white_space → JsString.trimEnd s ≠ rest ++ w.
Proof.
  induction s as [|c s (b & Hs & Hb & Hend)].
  - exists "". split; [reflexivity|]. split; [apply blank_empty|].
    intros w rest Hw H. pose proof (white_space_not_empty w Hw) as Hl.
    apply (f_equal String.length) in H. rewrite length_append in H.
    simpl in H. lia.
  - cbn [JsString.trimEnd].
    destruct (JsString.only_spaces (String c s)) eqn:E.
    + exists (String c s). split; [reflexivity|].
      split; [apply only_spaces_blank, E|].
      intros w rest Hw H. pose proof (white_space_not_empty w Hw) as Hl.
      apply (f_equal String.length) in H. rewrite length_append in H.
      simpl in H. lia.
    + exists b. split; [rewrite append_cons; f_equal; exact Hs|].
      split; [exact Hb|].
      intros w rest Hw H. destruct rest as [|x rest].
      * change ("" ++ w) with w in H. subst w.
        assert (Hblank : blank (String c s)).
        { rewrite Hs, <- append_cons. apply blank_cons; assumption. }
        apply only_spaces_blank in Hblank. congruence.
      * rewrite append_cons in H. injection H as _ H.
        apply (Hend w rest Hw H).
Qed.

(** [trim] is the trimming of the specification. *)
Lemma trim_trimmed s : trimmed s (JsString.trim s).
Proof.
  unfold trimmed, JsString.trim.
  destruct (drop_spaces_blank (String.length s) s) as (a & Ha & Hblank).
  pose proof (drop_spaces_done (String.length s) s (le_n _)) as Hstart.
  fold (JsString.trimStart s) in Ha, Hstart.
  destruct (trimEnd_spec (JsString.trimStart s)) as (b & Hb & Hblank' & Hend).
  exists a, b. split; [rewrite <- Hb; exact Ha|].
  split; [exact Hblank|]. split; [exact Hblank'|]. split.
  2: { intros w rest Hw. apply Hend, is_white_space_table, Hw. }
  intros w rest Hw H. apply is_white_space_table in Hw.
  apply (space_at_None _ Hstart w (rest ++ b) Hw).
  rewrite Hb at 1. rewrite H. apply append_assoc.
Qed.

(** Two bytes have the same small letter exactly when they are the same or
    the two cases of one ASCII letter. *)
Lemma lower_ascii_eqb (p c : ascii) :
  Ascii.eqb (JsString.lower_ascii p) (JsString.lower_ascii c) = true
  ↔ c = p ∨ c = swap_case p.
Proof.
  assert (H : forallb (fun i => forallb (fun j =>
                Bool.eqb
                  (Ascii.eqb (JsString.lower_ascii (ascii_of_nat i))
                             (JsString.lower_ascii (ascii_of_nat j)))
                  (Ascii.eqb (ascii_of_nat j) (ascii_of_nat i)
                   || Ascii.eqb (ascii_of_nat j) (swap_case (ascii_of_nat i))))
                (seq 0 256)) (seq 0 256) = true)
    by (vm_compute; reflexivity).
  rewrite forallb_forall in H.
  specialize (H (nat_of_ascii p)
                (proj2 (in_seq _ _ _) (conj (Nat.le_0_l _) (nat_ascii_bounded p)))).
  rewrite forallb_forall in H.
  specialize (H (nat_of_ascii c)
                (proj2 (in_seq _ _ _) (conj (Nat.le_0_l _) (nat_ascii_bounded c)))).
  rewrite !ascii_nat_embedding in H. apply Bool.eqb_prop in H. rewrite H.
  rewrite orb_true_iff, !Ascii.eqb_eq. reflexivity.
Qed.

Lemma match_ci_spec pat : ∀ s rest,
  JsString.match_ci pat s = Some rest
  ↔ ∃ m, s = m ++ rest ∧ same_letters m pat.
Proof.
  induction pat as [|p pat IH]; intros s rest.
  - destruct s; simpl;
      (split; [intros [= <-]; exists ""; split; [reflexivity | exact I]|]).
    + intros ([|x m] & E & Hm); [|contradiction]. rewrite E. reflexivity.
    + intros ([|x m] & E & Hm); [|contradiction]. rewrite E. reflexivity.
  - destruct s as [|c s]; cbn [JsString.match_ci].
    + split; [discriminate|]. intros ([|x m] & E & Hm); [contradiction|].
      rewrite append_cons in E. discriminate.
    + destruct (Ascii.eqb _ _) eqn:E.
      * apply lower_ascii_eqb in E. rewrite IH. split.
        -- intros (m & -> & Hm). exists (String c m).
           split; [reflexivity | split; assumption].
        -- intros ([|x m] & Es & Hm); [contradiction|].
           rewrite append_cons in Es. injection Es as -> ->.
           exists m. split; [reflexivity | apply Hm].
      * split; [discriminate|].
        intros ([|x m] & Es & Hm); [contradiction|].
        rewrite append_cons in Es. injection Es as -> ->. destruct Hm as [Hx _].
        apply lower_ascii_eqb in Hx. congruence.
Qed.

Lemma same_letters_length a : ∀ b,
  same_letters a b → String.length a = String.length b.
Proof.
  induction a as [|x a IH]; intros [|y b] H; try contradiction; [reflexivity|].
  simpl. f_equal. apply IH, H.
Qed.

Lemma remove_from_skip pat s : ∀ k,
  JsString.remove_from pat k s
  = JsString.remove_from pat O (JsString.drop k s).
Proof.
  induction s as [|c s IH]; intros [|k]; try reflexivity.
  cbn [JsString.remove_from JsString.drop]. apply IH.
Qed.

(** [removeAll_ci] of the phrase is the stripping of the specification. *)
Lemma removeAll_ci_stripped s :
  stripped s (JsString.removeAll_ci "Train wagon" s).
Proof.
  unfold JsString.removeAll_ci.
  remember (String.length s) as n eqn:Hn.
  assert (Hle : (String.length s ≤ n)%nat) by lia. clear Hn.
  revert s Hle. induction n as [|n IH]; intros s Hle.
  - destruct s; [constructor | simpl in Hle; lia].
  - destruct s as [|c s]; [constructor|].
    cbn [JsString.remove_from].
    destruct (JsString.match_ci "Train wagon" (String c s)) as [rest|] eqn:E.
    + apply match_ci_spec in E as (m & E & Hm).
      pose proof (same_letters_length _ _ Hm) as Hlen.
      rewrite remove_from_skip.
      assert (Hrest : JsString.drop (String.length "rain wagon") s = rest).
      { change (JsString.drop (String.length "rain wagon") s)
          with (JsString.drop (String.length "Train wagon") (String c s)).
        rewrite E, <- Hlen. apply drop_append. }
      rewrite Hrest, E. apply stripped_phrase; [exact Hm|].
      apply IH. apply (f_equal String.length) in E.
      rewrite length_append, Hlen in E. simpl in E, Hle. lia.
    + apply stripped_char; [|apply IH; simpl in Hle; lia].
      intros m rest Hm Es.
      assert (Hsome : JsString.match_ci "Train wagon" (String c s) = Some rest)
        by (apply match_ci_spec; eauto).
      congruence.
Qed.

(** [cleanTitle] cleans a title as the specification has it. *)
Lemma cleanTitle_cleaned title : cleaned title (cleanTitle title).
Proof.
  exists (JsString.removeAll_ci "Train wagon" title).
  split; [apply removeAll_ci_stripped | apply trim_trimmed].
Qed.

(** The stripping of the specification has one result. *)
Lemma stripped_removeAll_ci s r :
  stripped s r → r = JsString.removeAll_ci "Train wagon" s.
Proof.
  unfold JsString.removeAll_ci. induction 1 as [|m s r Hm _ IH|c s r Hno _ IH].
  - reflexivity.
  - pose proof (same_letters_length _ _ Hm) as Hlen.
    destruct m as [|c m]; [discriminate Hlen|].
    rewrite append_cons. cbn [JsString.remove_from].
    assert (Hsome : JsString.match_ci "Train wagon" (String c (m ++ s)) = Some s).
    { apply match_ci_spec. exists (String c m). split; [reflexivity | exact Hm]. }
    rewrite Hsome, remove_from_skip.
    injection Hlen as Hlen.
    change (String.length "rain wagon") with 10%nat. rewrite <- Hlen.
    rewrite drop_append. exact IH.
  - cbn [JsString.remove_from].
    destruct (JsString.match_ci "Train wagon" (String c s)) as [rest|] eqn:E.
    + apply match_ci_spec in E as (m & E & Hm). destruct (Hno m rest Hm E).
    + rewrite IH. reflexivity.
Qed.

Lemma blank_app a b : blank a → blank b → blank (a ++ b).
Proof.
  intros (ws & Hws & ->) Hb. induction Hws as [|w ws Hw _ IH]; [exact Hb|].
  simpl. rewrite append_assoc.
  apply blank_cons; [apply is_white_space_table, Hw | exact IH].
Qed.

Lemma drop_spaces_enough n : ∀ s m,
  (String.length s ≤ n)%nat → (String.length s ≤ m)%nat →
  JsString.drop_spaces n s = JsString.drop_spaces m s.
Proof.
  induction n as [|n IH]; intros s m Hn Hm.
  - destruct s; [|simpl in Hn; lia]. destruct m; reflexivity.
  - destruct m as [|m].
    + destruct s; [reflexivity | simpl in Hm; lia].
    + simpl. destruct (JsString.space_at s) as [rest|] eqn:E; [|reflexivity].
      apply space_at_Some in E as (w & Hw & ->).
      pose proof (white_space_not_empty w Hw).
      rewrite length_append in Hn, Hm. apply IH; lia.
Qed.

Lemma trimStart_blank a t :
  blank a → JsString.trimStart (a ++ t) = JsString.trimStart t.
Proof.
  intros (ws & Hws & ->). unfold JsString.trimStart.
  induction Hws as [|w ws Hw _ IH]; [reflexivity|].
  apply is_white_space_table in Hw. simpl. rewrite append_assoc.
  pose proof (white_space_not_empty w Hw) as Hl.
  remember (fold_right append "" ws ++ t) as u.
  destruct (String.length (w ++ u)) as [|n] eqn:En;
    [rewrite length_append in En; lia|].
  simpl. rewrite space_at_append by exact Hw.
  rewrite length_append in En.
  rewrite (drop_spaces_enough n u (String.length u)) by lia.
  exact IH.
Qed.

(** A byte inside a white space character is not the first byte of one. *)
Lemma white_space_inner_byte w w' r c x c' x' :
  w ∈ JsString.white_space → w' ∈ JsString.white_space →
  r ≠ "" → w = r ++ String c x → w' = String c' x' → c ≠ c'.
Proof.
  assert (H : forallb (fun a => forallb (fun b =>
                forallb (fun inner =>
                           negb (bool_decide (String.get 0 b = Some inner)))
                        (list_ascii_of_string (JsString.drop 1 a)))
                JsString.white_space) JsString.white_space = true)
    by (vm_compute; reflexivity).
  intros Hw Hw' Hr -> -> <-. rewrite forallb_forall in H.
  specialize (H _ (proj1 (list_elem_of_In _ _) Hw)).
  rewrite forallb_forall in H.
  specialize (H _ (proj1 (list_elem_of_In _ _) Hw')).
  rewrite forallb_forall in H. specialize (H c).
  simpl in H. rewrite bool_decide_eq_true_2 in H by reflexivity.
  assert (Hin : In c (list_ascii_of_string (JsString.drop 1 (r ++ String c x)))).
  { destruct r as [|c0 r]; [contradiction|]. rewrite append_cons.
    cbn [JsString.drop]. clear.
    replace (JsString.drop 0 (r ++ String c x)) with (r ++ String c x)
      by (destruct (r ++ String c x); reflexivity).
    induction r as [|y r IH]; [left; reflexivity | right; exact IH]. }
  specialize (H Hin). discriminate.
Qed.

Lemma blank_starts s :
  blank s →
  s = "" ∨ ∃ w rest, w ∈ JsString.white_space ∧ s = w ++ rest ∧ blank rest.
Proof.
  intros (ws & Hws & ->). destruct Hws as [|w ws Hw Hws]; [left; reflexivity|].
  right. exists w, (fold_right append "" ws).
  split; [apply is_white_space_table, Hw|]. split; [reflexivity|].
  exists ws. auto.
Qed.

Lemma prefix_cases (a : string) : ∀ b s t,
  a ++ s = b ++ t → (∃ x, b = a ++ x) ∨ (∃ x, a = b ++ x).
Proof.
  induction a as [|c a IH]; intros b s t H; [left; exists b; reflexivity|].
  destruct b as [|d b]; [right; exists (String c a); reflexivity|].
  rewrite !append_cons in H. injection H as -> H.
  destruct (IH b s t H) as [(x & ->)|(x & ->)]; [left | right];
    exists x; reflexivity.
Qed.

Lemma append_inv_head (a : string) : ∀ s t, a ++ s = a ++ t → s = t.
Proof.
  induction a as [|c a IH]; intros s t H; [exact H|].
  rewrite !append_cons in H. injection H as H. apply IH, H.
Qed.

(** White space does not start inside a string that does not start with
    white space and is followed by white space. *)
Lemma no_space_at r b :
  r ≠ "" → blank b →
  (∀ w rest, w ∈ JsString.white_space → r ≠ w ++ rest) →
  JsString.space_at (r ++ b) = None.
Proof.
  intros Hr Hb Hstart.
  destruct (JsString.space_at (r ++ b)) as [rest|] eqn:E; [exfalso|reflexivity].
  apply space_at_Some in E as (w & Hw & E).
  destruct (prefix_cases r w b rest E) as [(x & ->)|(x & ->)].
  - rewrite append_assoc in E. apply append_inv_head in E.
    destruct x as [|c x].
    + rewrite append_empty in Hw. apply (Hstart r "" Hw).
      symmetry. apply append_empty.
    + destruct (blank_starts b Hb) as [->|(w' & rest' & Hw' & -> & _)];
        [discriminate E|].
      pose proof (white_space_not_empty w' Hw') as Hl.
      destruct w' as [|c' x']; [simpl in Hl; lia|].
      rewrite !append_cons in E. injection E as E _.
      apply (white_space_inner_byte _ _ r c x c' x' Hw Hw' Hr eq_refl eq_refl).
      congruence.
  - apply (Hstart w x Hw). reflexivity.
Qed.

Lemma not_blank_before r : ∀ ws b,
  Forall is_white_space ws →
  r ≠ "" → blank b →
  (∀ w rest, w ∈ JsString.white_space → r ≠ rest ++ w) →
  r ++ b ≠ fold_right append "" ws.
Proof.
  intros ws. revert r. induction ws as [|w ws IH]; intros r b Hws Hr Hb Hend E.
  - destruct r; [contradiction | discriminate E].
  - apply Forall_cons in Hws as [Hw Hws]. apply is_white_space_table in Hw.
    simpl in E.
    destruct (prefix_cases r w b _ E) as [(x & ->)|(x & ->)].
    + rewrite append_assoc in E. apply append_inv_head in E.
      destruct x as [|c x].
      * rewrite append_empty in Hw. apply (Hend r "" Hw). reflexivity.
      * destruct (blank_starts b Hb) as [->|(w' & rest' & Hw' & -> & _)];
          [discriminate E|].
        pose proof (white_space_not_empty w' Hw') as Hl.
        destruct w' as [|c' x']; [simpl in Hl; lia|].
        rewrite !append_cons in E. injection E as E _.
        apply (white_space_inner_byte _ _ r c x c' x' Hw Hw' Hr eq_refl eq_refl).
        congruence.
    + rewrite append_assoc in E. apply append_inv_head in E.
      destruct x as [|c x].
      * apply (Hend w "" Hw). rewrite append_empty. reflexivity.
      * apply (IH (String c x) b Hws); [discriminate | exact Hb | | exact E].
        intros w0 rest0 Hw0 Hx. apply (Hend w0 (w ++ rest0) Hw0).
        rewrite Hx. symmetry. apply append_assoc.
Qed.

Lemma trimEnd_before r : ∀ b,
  blank b →
  (∀ w rest, w ∈ JsString.white_space → r ≠ rest ++ w) →
  JsString.trimEnd (r ++ b) = r.
Proof.
  induction r as [|c r IH]; intros b Hb Hend.
  - change ("" ++ b) with b. destruct b as [|c b]; [reflexivity|].
    cbn [JsString.trimEnd].
    rewrite (proj2 (only_spaces_blank _) Hb). reflexivity.
  - rewrite append_cons. cbn [JsString.trimEnd].
    destruct (JsString.only_spaces (String c (r ++ b))) eqn:E.
    + apply only_spaces_blank in E as (ws & Hws & E).
      rewrite <- append_cons in E.
      destruct (not_blank_before (String c r) ws b Hws
                  ltac:(discriminate) Hb Hend E).
    + f_equal. apply IH; [exact Hb|].
      intros w rest Hw Hr. apply (Hend w (String c rest) Hw).
      rewrite Hr. reflexivity.
Qed.

(** The trimming of the specification has one result. *)
Lemma trimmed_trim s r : trimmed s r → r = JsString.trim s.
Proof.
  intros (a & b & -> & Ha & Hb & Hstart & Hend). unfold JsString.trim.
  assert (Hstart' : ∀ w rest, w ∈ JsString.white_space → r ≠ w ++ rest)
    by (intros w rest Hw; apply Hstart, is_white_space_table, Hw).
  assert (Hend' : ∀ w rest, w ∈ JsString.white_space → r ≠ rest ++ w)
    by (intros w rest Hw; apply Hend, is_white_space_table, Hw).
  rewrite trimStart_blank by exact Ha.
  destruct r as [|c r].
  - change ("" ++ b) with b. unfold JsString.trimStart.
    rewrite drop_spaces_of_blank by (auto || lia). reflexivity.
  - assert (Hnone : JsString.space_at (String c r ++ b) = None)
      by (apply no_space_at; [discriminate | exact Hb | exact Hstart']).
    assert (Hsame : JsString.trimStart (String c r ++ b) = String c r ++ b).
    { unfold JsString.trimStart.
      destruct (String.length (String c r ++ b)) as [|n];
        [reflexivity|].
      cbn [JsString.drop_spaces]. rewrite Hnone. reflexivity. }
    rewrite Hsame. symmetry. apply trimEnd_before; assumption.
Qed.

(** The cleaned title is the title that [cleanTitle] computes, and no
    other. *)
Lemma cleaned_cleanTitle title r : cleaned title r ↔ r = cleanTitle title.
Proof.
  split.
  - intros (s & Hs & Hr). apply stripped_removeAll_ci in Hs. subst s.
    apply trimmed_trim, Hr.
  - intros ->. apply cleanTitle_cleaned.
Qed.

(** ** A small logic for the requests a computation sends *)

Lemma grows_refl P w : grows P w w.
Proof. exists []. rewrite app_nil_r. split; [reflexivity | constructor]. Qed.

Lemma grows_same P w w' : sent w' = sent w → grows P w w'.
Proof.
  intros E. exists []. rewrite app_nil_r. split; [exact E | constructor].
Qed.

Lemma grows_trans P w1 w2 w3 : grows P w1 w2 → grows P w2 w3 → grows P w1 w3.
Proof.
  intros (n1 & E1 & F1) (n2 & E2 & F2). exists (n1 ++ n2)%list.
  rewrite E2, E1, app_assoc. split; [reflexivity | apply Forall_app; auto].
Qed.

Lemma grows_log (P : Request → Prop) req w : P req → grows P w (log_request req w).
Proof. intros H. exists [req]. split; [reflexivity | repeat constructor; exact H]. Qed.

Lemma triple_ret {A} P (a : A) (Q : A → Prop) : Q a → triple P (ret a) Q.
Proof.
  intros H w. split; [apply grows_refl|]. simpl. intros a' [= <-]. exact H.
Qed.

Lemma triple_throw {A} P e (Q : A → Prop) : triple P (throw e) Q.
Proof. intros w. split; [apply grows_refl|]. simpl. discriminate. Qed.

Lemma triple_bind {A B} P (m : M A) (k : A → M B) (Q : A → Prop) (R : B → Prop) :
  triple P m Q → (∀ a, Q a → triple P (k a) R) → triple P (bind m k) R.
Proof.
  intros Hm Hk w. unfold bind. destruct (Hm w) as [Hg Hq].
  destruct (m w) as [[a|e] w1]; simpl in *.
  - destruct (Hk a (Hq a eq_refl) w1) as [Hg' Hr].
    split; [eapply grows_trans; eassumption | exact Hr].
  - split; [exact Hg | discriminate].
Qed.

Lemma triple_bind_any {A B} P (m : M A) (k : A → M B) (R : B → Prop) :
  triple P m (fun _ => True) → (∀ a, triple P (k a) R) → triple P (bind m k) R.
Proof. intros Hm Hk. eapply triple_bind; [exact Hm | auto]. Qed.

Lemma triple_try_catch {A} P (m : M A) (h : exn → M A) (Q : A → Prop) :
  triple P m Q → (∀ e, triple P (h e) Q) → triple P (try_catch m h) Q.
Proof.
  intros Hm Hh w. unfold try_catch. destruct (Hm w) as [Hg Hq].
  destruct (m w) as [[a|e] w1]; simpl in *.
  - split; [exact Hg | exact Hq].
  - destruct (Hh e w1) as [Hg' Hr].
    split; [eapply grows_trans; eassumption | exact Hr].
Qed.

Lemma triple_weaken {A} P (m : M A) (Q Q' : A → Prop) :
  (∀ a, Q a → Q' a) → triple P m Q → triple P m Q'.
Proof.
  intros HQ Hm w. destruct (Hm w) as [Hg Hq]. split; [exact Hg | auto].
Qed.

Lemma triple_console_error P message : triple P (console_error message) (fun _ => True).
Proof. intros w. split; [apply grows_same; reflexivity | trivial]. Qed.

Lemma triple_cache_get P cache name : triple P (cache_get cache name) (fun _ => True).
Proof. intros w. split; [apply grows_same; reflexivity | trivial]. Qed.

Lemma triple_set_TAGS P name id : triple P (set_TAGS_ID_CACHE name id) (fun _ => True).
Proof. intros w. split; [apply grows_same; reflexivity | trivial]. Qed.

Lemma triple_set_CATEGORY P name id :
  triple P (set_CATEGORY_ID_CACHE name id) (fun _ => True).
Proof. intros w. split; [apply grows_same; reflexivity | trivial]. Qed.

Lemma triple_set_PUBLIC P name id :
  triple P (set_PUBLIC_CATEGORY_ID_CACHE name id) (fun _ => True).
Proof. intros w. split; [apply grows_same; reflexivity | trivial]. Qed.

Lemma triple_set_TAX P name id : triple P (set_TAX_ID_CACHE name id) (fun _ => True).
Proof. intros w. split; [apply grows_same; reflexivity | trivial]. Qed.

Lemma triple_promise_all {A} P (ms : list (M A)) (Q : A → Prop) :
  Forall (fun m => triple P m Q) ms → triple P (promise_all ms) (Forall Q).
Proof.
  induction 1 as [|m ms Hm _ IH]; [apply triple_ret; constructor|].
  intros w. simpl. destruct (Hm w) as [Hg Hq].
  destruct (m w) as [r w1]. simpl in *.
  destruct (IH w1) as [Hg' Hq'].
  destruct (promise_all ms w1) as [rs w2]. simpl in *.
  split; [eapply grows_trans; eassumption|].
  intros l Hl. destruct r as [a|e]; [|discriminate].
  destruct rs as [l'|e]; [|discriminate].
  injection Hl as <-. constructor; auto.
Qed.

Create HintDb triples.

#[local] Hint Resolve triple_ret triple_throw triple_console_error
  triple_cache_get triple_set_TAGS triple_set_CATEGORY triple_set_PUBLIC
  triple_set_TAX : triples.

(** One step through a computation: a bind whose first part is known, a
    handler, or a case distinction. *)
Ltac triple_step :=
  lazymatch goal with
  | |- triple _ (bind _ _) _ =>
      first [ eapply triple_bind; [solve [eauto with triples] | intros ? ?]
            | apply triple_bind_any; [|intros ?] ]
  | |- triple _ (try_catch _ _) _ => apply triple_try_catch; [|intros ?]
  | |- triple _ (match ?x with _ => _ end) _ => destruct x
  | |- triple _ _ _ => solve [eauto with triples]
  end.

Section ServiceRequests.

Variable respond : list Request → Request → FetchResult.
Variable toISOString : string → option string.

Lemma triple_fetch (P : Request → Prop) req :
  P req → triple P (fetch respond req) (fun _ => True).
Proof.
  intros H w. unfold fetch.
  destruct (respond (sent w) req); simpl; (split; [apply grows_log, H | trivial]).
Qed.

Lemma triple_raiseForStatus P response :
  triple P (raiseForStatus response) (fun _ => True).
Proof. unfold raiseForStatus. destruct (ok response); auto with triples. Qed.

Lemma triple_parseJsonResponse P response :
  triple P (parseJsonResponse response) (fun _ => True).
Proof. unfold parseJsonResponse. destruct (json response); auto with triples. Qed.

Lemma triple_first_id P records : triple P (first_id records) (fun _ => True).
Proof.
  unfold first_id. destruct records as [[|id ids]|n]; auto with triples.
  destruct (n =? 0); auto with triples.
Qed.

#[local] Hint Resolve triple_fetch triple_raiseForStatus
  triple_parseJsonResponse triple_first_id : triples.

Lemma triple_searchProduct (P : Request → Prop) product :
  P (mkRequest "/product.template/search_read" (Domain (Product.title product))) →
  triple P (searchProduct respond product) (fun _ => True).
Proof. intros H. unfold searchProduct. repeat triple_step. Qed.

Lemma triple_archiveProduct (P : Request → Prop) productIds :
  P (mkRequest "/product.template/action_archive" (Archive productIds)) →
  triple P (archiveProduct respond productIds) (fun _ => True).
Proof. intros H. unfold archiveProduct. repeat triple_step. Qed.

Lemma triple_getCategoryId (P : Request → Prop) categoryName :
  P (mkRequest "/product.category/search_read" (Domain categoryName)) →
  triple P (getCategoryId respond categoryName) (fun _ => True).
Proof. intros H. unfold getCategoryId. repeat triple_step. Qed.

Lemma triple_getPublicCategoryId (P : Request → Prop) categoryName :
  P (mkRequest "/product.public.category/search" (Domain categoryName)) →
  triple P (getPublicCategoryId respond categoryName) (fun _ => True).
Proof. intros H. unfold getPublicCategoryId. repeat triple_step. Qed.

Lemma triple_getTagId (P : Request → Prop) tagName :
  P (mkRequest "/product.tag/search_read" (Domain tagName)) →
  triple P (getTagId respond tagName) (fun _ => True).
Proof. intros H. unfold getTagId. repeat triple_step. Qed.

Lemma triple_getTaxId (P : Request → Prop) :
  P (mkRequest "/account.tax/search_read" (Domain taxName)) →
  triple P (getTaxId respond) (fun _ => True).
Proof. intros H. unfold getTaxId. repeat triple_step. Qed.

Lemma triple_loadImages (P : Request → Prop) product :
  (∀ photo rest, Product.photos product = Some (photo :: rest) →
                 P (mkRequest photo Get)) →
  triple P (loadImages respond product) (fun _ => True).
Proof.
  intros H. unfold loadImages, downloadImageAsBase64.
  destruct (Product.photos product) as [[|photo rest]|];
    [auto with triples| |auto with triples].
  specialize (H photo rest eq_refl). repeat triple_step.
Qed.

End ServiceRequests.

#[local] Hint Resolve triple_fetch triple_raiseForStatus
  triple_parseJsonResponse triple_first_id : triples.

Section ExportRequests.

Variable respond : list Request → Request → FetchResult.
Variable toISOString : string → option string.
Variable P : Request → Prop.
Variable product : Product.t.

Hypothesis P_tag : ∀ tag, tag ∈ getTags product →
  P (mkRequest "/product.tag/search_read" (Domain tag)).
Hypothesis P_tax : P (mkRequest "/account.tax/search_read" (Domain taxName)).
Hypothesis P_category : ∀ category, getCategory product = Some category →
  P (mkRequest "/product.category/search_read" (Domain category))
  ∧ P (mkRequest "/product.public.category/search" (Domain category)).
Hypothesis P_photo : ∀ photo rest,
  Product.photos product = Some (photo :: rest) → P (mkRequest photo Get).

Lemma triple_buildProductData :
  triple P (buildProductData respond toISOString product)
    (fun d => OdooDict.name d = Product.title product
              ∧ OdooDict.categ_id d = None
              ∧ OdooDict.public_categ_ids d = None).
Proof.
  unfold buildProductData.
  eapply triple_bind.
  { apply triple_promise_all with (Q := fun _ => True).
    apply Forall_forall. intros m Hm. apply list_elem_of_In in Hm.
    apply in_map_iff in Hm as (t & <- & Ht).
    apply triple_getTagId, P_tag, list_elem_of_In, Ht. }
  intros tagsIds _.
  eapply triple_bind; [apply triple_getTaxId, P_tax|]. intros taxId _.
  eapply triple_bind; [apply triple_loadImages, P_photo|]. intros images _.
  eapply triple_bind.
  { unfold createdDate.
    instantiate (1 := fun _ => True).
    destruct (toISOString (Product.date product)); auto with triples. }
  intros created _. apply triple_ret. auto.
Qed.

Lemma triple_setCategory category productData :
  getCategory product = Some category →
  triple P (setCategory respond product category productData)
    (fun d => OdooDict.name d = OdooDict.name productData).
Proof.
  intros Hc. destruct (P_category category Hc) as [Hcat Hpub].
  unfold setCategory.
  eapply triple_bind with (Q := fun _ => True).
  { apply triple_try_catch.
    - eapply triple_bind; [apply triple_getCategoryId, Hcat|].
      intros; auto with triples.
    - intros e. repeat triple_step. }
  intros [id|] _; [|auto with triples].
  apply triple_try_catch.
  - eapply triple_bind; [apply triple_getPublicCategoryId, Hpub|].
    intros [pid|] _; [destruct (pid =? 0)|]; auto with triples.
  - intros e. eapply triple_bind; [apply triple_console_error|].
    intros; auto with triples.
Qed.

Lemma triple_productToOdooDict :
  triple P (productToOdooDict respond toISOString product)
    (fun d => OdooDict.name d = Product.title product).
Proof.
  unfold productToOdooDict.
  eapply triple_bind; [apply triple_buildProductData|].
  intros d (Hn & _ & _).
  pose proof triple_setCategory as Hset.
  destruct (getCategory product) as [category|]; [|auto with triples].
  destruct (JsString.truthy category); [|auto with triples].
  eapply triple_weaken; [|apply Hset; reflexivity].
  simpl. intros d' ->. exact Hn.
Qed.

Hypothesis P_search :
  P (mkRequest "/product.template/search_read" (Domain (Product.title product))).
Hypothesis P_create : ∀ vals, OdooDict.name vals = Product.title product →
  P (mkRequest "/product.template/create" (ValsList vals)).
Hypothesis P_write : ∀ ids vals, OdooDict.name vals = Product.title product →
  P (mkRequest "/product.template/write" (WriteVals ids vals)).
Hypothesis P_archive : ∀ ids,
  P (mkRequest "/product.template/action_archive" (Archive ids)).

Lemma triple_createProduct :
  triple P (createProduct respond toISOString product) (fun _ => True).
Proof.
  unfold createProduct.
  eapply triple_bind; [apply triple_productToOdooDict|]. intros d Hd.
  eapply triple_bind; [apply triple_fetch, P_create, Hd|]. intros response _.
  repeat triple_step.
Qed.

Lemma triple_updateProduct productId :
  triple P (updateProduct respond toISOString productId product) (fun _ => True).
Proof.
  unfold updateProduct.
  eapply triple_bind; [apply triple_productToOdooDict|]. intros d Hd.
  eapply triple_bind; [apply triple_fetch, P_write, Hd|]. intros response _.
  apply triple_raiseForStatus.
Qed.

Lemma triple_exportProduct overwriteExisting :
  triple P (exportProduct respond toISOString product overwriteExisting)
    (fun _ => True).
Proof.
  unfold exportProduct, exportProduct_try. apply triple_try_catch.
  - eapply triple_bind; [apply triple_searchProduct, P_search|].
    intros [existingProductId|] _.
    + destruct (bool_decide (Product.state product = SOLD)
                || bool_decide (Product.state product = REMOVED))%bool.
      * eapply triple_bind; [apply triple_archiveProduct, P_archive|].
        intros; auto with triples.
      * destruct overwriteExisting; [|auto with triples].
        eapply triple_bind; [apply triple_updateProduct|].
        intros; auto with triples.
    + eapply triple_bind; [apply triple_createProduct|].
      intros; auto with triples.
  - intros e. eapply triple_bind; [apply triple_console_error|].
    intros; auto with triples.
Qed.

End ExportRequests.

Lemma grows_mono (P P' : Request → Prop) w w' :
  (∀ r, P r → P' r) → grows P w w' → grows P' w w'.
Proof.
  intros HP (new & E & F). exists new. split; [exact E|].
  eapply Forall_impl; eassumption.
Qed.

Lemma triple_mono {A} (P P' : Request → Prop) (m : M A) (Q : A → Prop) :
  (∀ r, P r → P' r) → triple P m Q → triple P' m Q.
Proof.
  intros HP Hm w. destruct (Hm w) as [Hg Hq].
  split; [eapply grows_mono; eassumption | exact Hq].
Qed.

Section Orchestrator.

Variable respond : list Request → Request → FetchResult.
Variable toISOString : string → option string.

Lemma exportProduct_about product overwriteExisting :
  triple (about product)
    (exportProduct respond toISOString product overwriteExisting) (fun _ => True).
Proof.
  apply triple_exportProduct; unfold about; simpl; auto 6.
  - intros category Hc. split; right; right; left; auto.
  - intros photo rest Hp. eauto.
Qed.

Lemma productToOdooDict_reference product :
  triple reference (productToOdooDict respond toISOString product)
    (fun d => OdooDict.name d = Product.title product).
Proof.
  apply triple_productToOdooDict; unfold reference; simpl;
    try discriminate; auto.
Qed.

Lemma triple_exportProducts_loop (P : Request → Prop) overwriteExisting products :
  ∀ acc,
    Forall (fun p => triple P (exportProduct respond toISOString p overwriteExisting)
                            (fun _ => True)) products →
    triple P (exportProducts_loop respond toISOString products overwriteExisting acc)
           (fun _ => True).
Proof.
  induction products as [|p ps IH]; intros acc H; simpl; [auto with triples|].
  apply Forall_cons in H as [Hp Hps].
  eapply triple_bind; [exact Hp|]. intros result _. apply IH, Hps.
Qed.

Lemma exportProducts_about products overwriteExisting :
  triple (fun r => ∃ p, p ∈ products ∧ about p r)
    (exportProducts respond toISOString products overwriteExisting)
    (fun _ => True).
Proof.
  unfold exportProducts.
  eapply triple_bind; [|intros; auto with triples].
  apply triple_exportProducts_loop with (acc := mkCounters 0 0 0 []).
  apply Forall_forall. intros p Hp.
  eapply triple_mono; [|apply exportProduct_about]. simpl. eauto.
Qed.

(** *** The resolver caches *)

(** Run a computation on the facts at hand. *)
Ltac run :=
  repeat first
    [ progress unfold bind, ret, throw, try_catch, cache_get, fetch,
        raiseForStatus, parseJsonResponse, first_id, console_error
    | progress simpl
    | match goal with
      | H : ?x = _ |- context [?x] => rewrite H
      end ].

Lemma getTagId_one_lookup name :
  one_lookup respond (getTagId respond name) (fun id => id) TAGS_ID_CACHE
    "/product.tag/search_read" name.
Proof.
  intros w r id ids Hc Hr Hok Hj. eexists. unfold getTagId.
  split; [run; reflexivity|]. simpl.
  split; [reflexivity|]. split; [apply lookup_insert_eq|].
  run. rewrite lookup_insert_eq. reflexivity.
Qed.

Lemma getCategoryId_one_lookup name :
  one_lookup respond (getCategoryId respond name) (fun id => id) CATEGORY_ID_CACHE
    "/product.category/search_read" name.
Proof.
  intros w r id ids Hc Hr Hok Hj. eexists. unfold getCategoryId.
  split; [run; reflexivity|]. simpl.
  split; [reflexivity|]. split; [apply lookup_insert_eq|].
  run. rewrite lookup_insert_eq. reflexivity.
Qed.

Lemma getPublicCategoryId_one_lookup name :
  one_lookup respond (getPublicCategoryId respond name) Some PUBLIC_CATEGORY_ID_CACHE
    "/product.public.category/search" name.
Proof.
  intros w r id ids Hc Hr Hok Hj. eexists. unfold getPublicCategoryId.
  split; [run; reflexivity|]. simpl.
  split; [reflexivity|]. split; [apply lookup_insert_eq|].
  run. rewrite lookup_insert_eq. reflexivity.
Qed.

Lemma getTaxId_one_lookup :
  one_lookup respond (getTaxId respond) (fun id => id) TAX_ID_CACHE
    "/account.tax/search_read" taxName.
Proof.
  intros w r id ids Hc Hr Hok Hj. eexists. unfold getTaxId.
  split; [run; reflexivity|]. simpl.
  split; [reflexivity|]. split; [apply lookup_insert_eq|].
  run. rewrite lookup_insert_eq. reflexivity.
Qed.

(** *** The payload *)

Lemma getCategory_truthy product category :
  getCategory product = Some category → JsString.truthy category = true.
Proof.
  unfold getCategory. intros H.
  destruct (List.find _ CATEGORY_MAP) as [[c keywords]|] eqn:E; [|discriminate].
  injection H as <-. apply find_some in E as [Hin _]. simpl in Hin.
  repeat (destruct Hin as [Hin|Hin]; [injection Hin as <- _; reflexivity|]).
  destruct Hin.
Qed.

Lemma buildProductData_no_category product w pd w1 :
  buildProductData respond toISOString product w = (Return pd, w1) →
  OdooDict.categ_id pd = None ∧ OdooDict.public_categ_ids pd = None.
Proof.
  intros H.
  assert (Ht : triple (fun _ => True)
                 (buildProductData respond toISOString product)
                 (fun d => OdooDict.name d = Product.title product
                           ∧ OdooDict.categ_id d = None
                           ∧ OdooDict.public_categ_ids d = None))
    by (apply triple_buildProductData; simpl; auto).
  destruct (Ht w) as [_ Hq]. rewrite H in Hq. destruct (Hq pd eq_refl) as (_ & ? & ?). auto.
Qed.

Lemma productToOdooDict_category_failure product w pd w1 category e w2 :
  buildProductData respond toISOString product w = (Return pd, w1) →
  getCategory product = Some category →
  getCategoryId respond category w1 = (Throw e, w2) →
  productToOdooDict respond toISOString product w
  = (Return pd, (console_error (category_report product e) w2).2).
Proof.
  intros Hb Hc Hg. unfold productToOdooDict, bind at 1. rewrite Hb, Hc.
  rewrite (getCategory_truthy _ _ Hc). unfold setCategory.
  unfold bind at 1, try_catch at 1, bind at 1. rewrite Hg.
  reflexivity.
Qed.

Lemma getPublicCategoryId_miss name w r :
  PUBLIC_CATEGORY_ID_CACHE w !! name = None →
  respond (sent w) (mkRequest "/product.public.category/search" (Domain name))
  = Resolved r →
  ok r = true →
  json r = Some (JArray []) →
  getPublicCategoryId respond name w
  = (Return None,
     log_request (mkRequest "/product.public.category/search" (Domain name)) w).
Proof. intros Hc Hr Hok Hj. unfold getPublicCategoryId. run. reflexivity. Qed.

Lemma productToOdooDict_public_miss product w pd w1 category id w2 w3 :
  buildProductData respond toISOString product w = (Return pd, w1) →
  getCategory product = Some category →
  getCategoryId respond category w1 = (Return id, w2) →
  getPublicCategoryId respond category w2 = (Return None, w3) →
  productToOdooDict respond toISOString product w
  = (Return (OdooDict.with_categ_id pd id), w3).
Proof.
  intros Hb Hc Hg Hp. unfold productToOdooDict, bind at 1. rewrite Hb, Hc.
  rewrite (getCategory_truthy _ _ Hc). unfold setCategory.
  unfold bind at 1, try_catch at 1, bind at 1. rewrite Hg.
  unfold ret at 1. cbv beta iota. unfold try_catch, bind. rewrite Hp.
  reflexivity.
Qed.

Lemma getTagId_miss name w r :
  TAGS_ID_CACHE w !! name = None →
  respond (sent w) (mkRequest "/product.tag/search_read" (Domain name))
  = Resolved r →
  ok r = true →
  json r = Some (JArray []) →
  getTagId respond name w
  = (Throw (Error ("Tag '" ++ name ++ "' not found in Odoo.")),
     log_request (mkRequest "/product.tag/search_read" (Domain name)) w).
Proof. intros Hc Hr Hok Hj. unfold getTagId. run. reflexivity. Qed.

Lemma getTaxId_miss w r :
  TAX_ID_CACHE w !! taxName = None →
  respond (sent w) (mkRequest "/account.tax/search_read" (Domain taxName))
  = Resolved r →
  ok r = true →
  json r = Some (JArray []) →
  getTaxId respond w
  = (Throw (Error ("Tax '" ++ taxName ++ "' not found in Odoo.")),
     log_request (mkRequest "/account.tax/search_read" (Domain taxName)) w).
Proof. intros Hc Hr Hok Hj. unfold getTaxId. run. reflexivity. Qed.

(** [Promise.all] rejects as soon as one of its computations does. *)
Lemma promise_all_throw {A} (before : list (M A)) :
  ∀ (m : M A) (after : list (M A)) w l w1 e w2,
    promise_all before w = (Return l, w1) →
    m w1 = (Throw e, w2) →
    ∃ w3, promise_all (before ++ m :: after) w = (Throw e, w3).
Proof.
  induction before as [|m0 before IH]; intros m after w l w1 e w2 Hb Hm.
  - simpl in Hb. injection Hb as <- <-. simpl. rewrite Hm.
    destruct (promise_all after w2) as [rs w3]. eauto.
  - simpl in Hb |- *. destruct (m0 w) as [r0 w0].
    destruct (promise_all before w0) as [rs w'] eqn:Hrest.
    destruct r0 as [a|e0]; [|discriminate].
    destruct rs as [l'|e']; [|discriminate].
    injection Hb as <- <-.
    destruct (IH m after w0 l' w' e w2 Hrest Hm) as (w3 & ->). eauto.
Qed.

Lemma productToOdooDict_tags_throw product w e w1 :
  promise_all (map (getTagId respond) (getTags product)) w = (Throw e, w1) →
  productToOdooDict respond toISOString product w = (Throw e, w1).
Proof.
  intros H. unfold productToOdooDict, buildProductData, bind. rewrite H.
  reflexivity.
Qed.

Lemma productToOdooDict_tax_throw product w tagsIds w1 e w2 :
  promise_all (map (getTagId respond) (getTags product)) w = (Return tagsIds, w1) →
  getTaxId respond w1 = (Throw e, w2) →
  productToOdooDict respond toISOString product w = (Throw e, w2).
Proof.
  intros H Ht. unfold productToOdooDict, buildProductData, bind.
  rewrite H, Ht. reflexivity.
Qed.

(** C8: once the payload has been built up to the category, a failure of
    [getCategoryId] is reported on the console and [productToOdooDict] still
    returns the payload, without [categ_id] and [public_categ_ids]; a look-up
    of the public category that finds no record makes [getPublicCategoryId]
    return nothing, it does not throw, and the payload then has [categ_id]
    but no [public_categ_ids].  A tag or the tax that is not found throws,
    and an exception from the resolution of the tags or of the tax is the
    result of [productToOdooDict]: no payload is produced. *)
Theorem productToOdooDict_reference_failures (product : Product.t) (w : World) :
  (∀ pd w1 category e w2,
     buildProductData respond toISOString product w = (Return pd, w1) →
     getCategory product = Some category →
     getCategoryId respond category w1 = (Throw e, w2) →
     ∃ w3,
       productToOdooDict respond toISOString product w = (Return pd, w3)
       ∧ OdooDict.categ_id pd = None
       ∧ OdooDict.public_categ_ids pd = None
       ∧ console w3 = (console w2 ++ [category_report product e])%list)
  ∧ (∀ name w0 r,
       PUBLIC_CATEGORY_ID_CACHE w0 !! name = None →
       respond (sent w0)
         (mkRequest "/product.public.category/search" (Domain name)) = Resolved r →
       ok r = true →
       json r = Some (JArray []) →
       (getPublicCategoryId respond name w0).1 = Return None)
  ∧ (∀ pd w1 category id w2 w3,
       buildProductData respond toISOString product w = (Return pd, w1) →
       getCategory product = Some category →
       getCategoryId respond category w1 = (Return id, w2) →
       getPublicCategoryId respond category w2 = (Return None, w3) →
       ∃ vals,
         productToOdooDict respond toISOString product w = (Return vals, w3)
         ∧ OdooDict.categ_id vals = Some id
         ∧ OdooDict.public_categ_ids vals = None)
  ∧ (∀ name w0 r,
       TAGS_ID_CACHE w0 !! name = None →
       respond (sent w0) (mkRequest "/product.tag/search_read" (Domain name))
       = Resolved r →
       ok r = true →
       json r = Some (JArray []) →
       (getTagId respond name w0).1
       = Throw (Error ("Tag '" ++ name ++ "' not found in Odoo.")))
  ∧ (∀ before name after ids w1 e w2,
       getTags product = (before ++ name :: after)%list →
       promise_all (map (getTagId respond) before) w = (Return ids, w1) →
       getTagId respond name w1 = (Throw e, w2) →
       (productToOdooDict respond toISOString product w).1 = Throw e)
  ∧ (∀ w0 r,
       TAX_ID_CACHE w0 !! taxName = None →
       respond (sent w0) (mkRequest "/account.tax/search_read" (Domain taxName))
       = Resolved r →
       ok r = true →
       json r = Some (JArray []) →
       (getTaxId respond w0).1
       = Throw (Error ("Tax '" ++ taxName ++ "' not found in Odoo.")))
  ∧ (∀ tagsIds w1 e w2,
       promise_all (map (getTagId respond) (getTags product)) w
       = (Return tagsIds, w1) →
       getTaxId respond w1 = (Throw e, w2) →
       (productToOdooDict respond toISOString product w).1 = Throw e).
Proof.
  repeat split.
  - intros pd w1 category e w2 Hb Hc Hg.
    destruct (buildProductData_no_category _ _ _ _ Hb) as [Hn1 Hn2].
    eexists. split; [eapply productToOdooDict_category_failure; eassumption|].
    auto.
  - intros name w0 r Hc Hr Hok Hj.
    rewrite (getPublicCategoryId_miss name w0 r); auto.
  - intros pd w1 category id w2 w3 Hb Hc Hg Hp.
    destruct (buildProductData_no_category _ _ _ _ Hb) as [Hn1 Hn2].
    eexists. split; [eapply productToOdooDict_public_miss; eassumption|].
    simpl. auto.
  - intros name w0 r Hc Hr Hok Hj. rewrite (getTagId_miss name w0 r); auto.
  - intros before name after ids w1 e w2 Ht Hb Hm.
    destruct (promise_all_throw (map (getTagId respond) before)
                (getTagId respond name) (map (getTagId respond) after)
                w ids w1 e w2 Hb Hm) as (w3 & H3).
    rewrite (productToOdooDict_tags_throw product w e w3); [reflexivity|].
    rewrite Ht, map_app. exact H3.
  - intros w0 r Hc Hr Hok Hj. rewrite (getTaxId_miss w0 r); auto.
  - intros tagsIds w1 e w2 Hp Ht.
    rewrite (productToOdooDict_tax_throw product w tagsIds w1 e w2); auto.
Qed.

(** *** The decision of [exportProduct] *)

Lemma calls_app kind (a b : list Request) :
  calls kind (a ++ b) = (calls kind a + calls kind b)%nat.
Proof. unfold calls. rewrite List.filter_app, length_app. reflexivity. Qed.

Lemma calls_reference (l : list Request) :
  Forall reference l →
  calls is_create l = 0%nat ∧ calls is_write l = 0%nat ∧ calls is_archive l = 0%nat.
Proof.
  unfold calls, is_create, is_write, is_archive, reference.
  induction 1 as [|r l Hr _ IH]; [auto|]. simpl.
  destruct (body r); simpl; tauto.
Qed.

Lemma searchProduct_sent product w :
  sent (searchProduct respond product w).2
  = (sent w ++ [mkRequest "/product.template/search_read"
                          (Domain (Product.title product))])%list.
Proof.
  unfold searchProduct, try_catch, bind at 1, fetch.
  destruct (respond (sent w) _) as [r|e]; [|reflexivity].
  unfold bind at 1, raiseForStatus.
  destruct (ok r); [|reflexivity]. unfold ret at 1.
  unfold bind, parseJsonResponse.
  destruct (json r) as [[[|id ids]|n]|]; try reflexivity.
  simpl. destruct (n =? 0); reflexivity.
Qed.

(** Split on what a computation in hypothesis [H] examines, until [H] gives
    its result. *)
Ltac split_run H :=
  repeat (simpl in H;
          match type of H with
          | context [match ?x with _ => _ end] =>
              lazymatch x with
              | context [match _ with _ => _ end] => fail
              | _ => destruct x eqn:?
              end
          end);
  simpl in H.

Lemma createProduct_sent product w o w2 :
  createProduct respond toISOString product w = (o, w2) →
  ∃ new,
    sent w2 = (sent w ++ new)%list
    ∧ calls is_write new = 0%nat ∧ calls is_archive new = 0%nat
    ∧ match o with
      | Return _ => calls is_create new = 1%nat
      | Throw _ => (calls is_create new ≤ 1)%nat
      end.
Proof.
  intros H. unfold createProduct, bind at 1 in H.
  destruct (productToOdooDict_reference product w) as [(refs & E & F) _].
  destruct (calls_reference refs F) as (Hc & Hw & Ha).
  destruct (productToOdooDict _ _ _ w) as [[vals|e] w1]; simpl in E.
  - exists (refs ++ [mkRequest "/product.template/create" (ValsList vals)])%list.
    rewrite !calls_app, Hc, Hw, Ha.
    unfold bind, fetch, raiseForStatus, parseJsonResponse, ret, throw in H.
    split_run H; injection H as <- <-; simpl; rewrite E, app_assoc;
      repeat split; auto.
  - injection H as <- <-. exists refs. rewrite Hc. repeat split; auto.
Qed.

Lemma updateProduct_sent productId product w o w2 :
  updateProduct respond toISOString productId product w = (o, w2) →
  ∃ new,
    sent w2 = (sent w ++ new)%list
    ∧ calls is_create new = 0%nat ∧ calls is_archive new = 0%nat
    ∧ match o with
      | Return _ => calls is_write new = 1%nat
      | Throw _ => (calls is_write new ≤ 1)%nat
      end.
Proof.
  intros H. unfold updateProduct, bind at 1 in H.
  destruct (productToOdooDict_reference product w) as [(refs & E & F) _].
  destruct (calls_reference refs F) as (Hc & Hw & Ha).
  destruct (productToOdooDict _ _ _ w) as [[vals|e] w1]; simpl in E.
  - exists (refs ++ [mkRequest "/product.template/write"
                               (WriteVals [productId] vals)])%list.
    rewrite !calls_app, Hc, Hw, Ha.
    unfold bind, fetch, raiseForStatus, ret, throw in H.
    split_run H; injection H as <- <-; simpl; rewrite E, app_assoc;
      repeat split; auto.
  - injection H as <- <-. exists refs. rewrite Hw. repeat split; auto.
Qed.

Lemma archiveProduct_sent productIds w :
  sent (archiveProduct respond productIds w).2
  = (sent w ++ [mkRequest "/product.template/action_archive"
                          (Archive productIds)])%list.
Proof.
  unfold archiveProduct, bind, fetch.
  destruct (respond (sent w) _) as [r|e]; [|reflexivity].
  unfold raiseForStatus. destruct (ok r); reflexivity.
Qed.

(** [exportProduct] as a table: the search, then the one action the result
    of the search, the state and [overwriteExisting] select; an exception
    becomes the failure outcome, after a report. *)
Lemma exportProduct_eq product overwriteExisting w :
  exportProduct respond toISOString product overwriteExisting w
  = let caught e w' :=
      (Return (failed e), (console_error (export_report product e) w').2) in
    match searchProduct respond product w with
    | (Throw e, w1) => caught e w1
    | (Return None, w1) =>
        match createProduct respond toISOString product w1 with
        | (Return productId, w2) =>
            (Return (mkExport true productId true false false None), w2)
        | (Throw e, w2) => caught e w2
        end
    | (Return (Some existingProductId), w1) =>
        match Product.state product with
        | SOLD | REMOVED =>
            match archiveProduct respond [existingProductId] w1 with
            | (Return _, w2) =>
                (Return (mkExport true (Some existingProductId)
                                  false false true None), w2)
            | (Throw e, w2) => caught e w2
            end
        | ACTIVE =>
            if overwriteExisting then
              match updateProduct respond toISOString existingProductId product w1
              with
              | (Return _, w2) =>
                  (Return (mkExport true (Some existingProductId)
                                    false true false None), w2)
              | (Throw e, w2) => caught e w2
              end
            else
              (Return (mkExport true (Some existingProductId)
                                false false false None), w1)
        end
    end.
Proof.
  unfold exportProduct, exportProduct_try, try_catch, bind.
  destruct (searchProduct respond product w) as [[[existingProductId|]|e] w1].
  - destruct (Product.state product); simpl.
    + destruct overwriteExisting; [|reflexivity].
      destruct (updateProduct _ _ _ _ w1) as [[[]|e] w2]; reflexivity.
    + destruct (archiveProduct _ _ w1) as [[[]|e] w2]; reflexivity.
    + destruct (archiveProduct _ _ w1) as [[[]|e] w2]; reflexivity.
  - destruct (createProduct _ _ _ w1) as [[productId|e] w2]; reflexivity.
  - reflexivity.
Qed.

(** C2, as amended: [exportProduct] first searches the product by title
    (one request).  If the search returns no id it calls [createProduct]; if
    it returns an id and the state is SOLD or REMOVED it calls
    [archiveProduct] with that id; if the state is ACTIVE and
    [overwriteExisting] is true it calls [updateProduct]; if
    [overwriteExisting] is false it does nothing more and returns success
    with no flag set.  When the action returns, the outcome is created,
    archived or updated, and exactly one request of that kind and none of
    the two other kinds has been sent.  When the search or the action
    throws, the outcome is the failure that carries the message of the
    exception, and at most one request of the kind of the action has been
    sent. *)
Theorem exportProduct_decision (product : Product.t)
    (overwriteExisting : bool) (w : World) :
  let run := exportProduct respond toISOString product overwriteExisting w in
  sent (searchProduct respond product w).2
  = (sent w ++ [mkRequest "/product.template/search_read"
                          (Domain (Product.title product))])%list
  ∧ match searchProduct respond product w with
    | (Throw e, w1) => run.1 = Return (failed e) ∧ sent run.2 = sent w1
    | (Return None, w1) =>
        match createProduct respond toISOString product w1 with
        | (Return productId, w2) =>
            run = (Return (mkExport true productId true false false None), w2)
            ∧ ∃ new, sent w2 = (sent w1 ++ new)%list
                     ∧ calls is_create new = 1%nat
                     ∧ calls is_write new = 0%nat
                     ∧ calls is_archive new = 0%nat
        | (Throw e, w2) =>
            run.1 = Return (failed e)
            ∧ ∃ new, sent run.2 = (sent w1 ++ new)%list
                     ∧ (calls is_create new ≤ 1)%nat
                     ∧ calls is_write new = 0%nat
                     ∧ calls is_archive new = 0%nat
        end
    | (Return (Some existingProductId), w1) =>
        match Product.state product with
        | SOLD | REMOVED =>
            match archiveProduct respond [existingProductId] w1 with
            | (Return _, w2) =>
                run = (Return (mkExport true (Some existingProductId)
                                        false false true None), w2)
                ∧ sent w2
                  = (sent w1 ++ [mkRequest "/product.template/action_archive"
                                           (Archive [existingProductId])])%list
            | (Throw e, w2) =>
                run.1 = Return (failed e)
                ∧ sent run.2
                  = (sent w1 ++ [mkRequest "/product.template/action_archive"
                                           (Archive [existingProductId])])%list
            end
        | ACTIVE =>
            if overwriteExisting then
              match updateProduct respond toISOString existingProductId product w1 with
              | (Return _, w2) =>
                  run = (Return (mkExport true (Some existingProductId)
                                          false true false None), w2)
                  ∧ ∃ new, sent w2 = (sent w1 ++ new)%list
                           ∧ calls is_write new = 1%nat
                           ∧ calls is_create new = 0%nat
                           ∧ calls is_archive new = 0%nat
              | (Throw e, w2) =>
                  run.1 = Return (failed e)
                  ∧ ∃ new, sent run.2 = (sent w1 ++ new)%list
                           ∧ (calls is_write new ≤ 1)%nat
                           ∧ calls is_create new = 0%nat
                           ∧ calls is_archive new = 0%nat
              end
            else
              run = (Return (mkExport true (Some existingProductId)
                                      false false false None), w1)
        end
    end.
Proof.
  intros run. subst run.
  split; [apply searchProduct_sent|].
  rewrite exportProduct_eq.
  destruct (searchProduct respond product w) as [[[existingProductId|]|e] w1].
  - destruct (Product.state product).
    + destruct overwriteExisting; [|reflexivity].
      destruct (updateProduct _ _ _ _ w1) as [[[]|e] w2] eqn:Hu;
        destruct (updateProduct_sent _ _ _ _ _ Hu) as (new & E & Hc & Ha & Hw);
        (split; [reflexivity|]); exists new; simpl; auto.
    + pose proof (archiveProduct_sent [existingProductId] w1) as E.
      destruct (archiveProduct _ _ w1) as [[[]|e] w2]; simpl in *; auto.
    + pose proof (archiveProduct_sent [existingProductId] w1) as E.
      destruct (archiveProduct _ _ w1) as [[[]|e] w2]; simpl in *; auto.
  - destruct (createProduct _ _ _ w1) as [[productId|e] w2] eqn:Hcr;
      destruct (createProduct_sent _ _ _ _ Hcr) as (new & E & Hw & Ha & Hc);
      (split; [reflexivity|]); exists new; simpl; auto.
  - simpl. auto.
Qed.

(** *** The batch *)

Lemma String_of_truthy e : JsString.truthy (String_of e) = true.
Proof. destruct e as [[|c m]|[|c m]|[|c m]]; reflexivity. Qed.

Lemma exportProduct_catches product overwriteExisting w :
  match exportProduct_try respond toISOString product overwriteExisting w with
  | (Return result, w1) =>
      exportProduct respond toISOString product overwriteExisting w
      = (Return result, w1)
      ∧ success result = true
  | (Throw e, w1) =>
      exportProduct respond toISOString product overwriteExisting w
      = (Return (failed e), (console_error (export_report product e) w1).2)
  end.
Proof.
  unfold exportProduct, try_catch.
  destruct (exportProduct_try _ _ _ _ w) as [[result|e] w1] eqn:H;
    [|reflexivity].
  split; [reflexivity|].
  unfold exportProduct_try, bind, ret in H.
  destruct (searchProduct respond product w) as [[[id|]|e] w0];
    [| |discriminate H].
  - destruct (bool_decide _ || bool_decide _)%bool.
    + destruct (archiveProduct respond [id] w0) as [[[]|e] w2];
        [|discriminate H].
      injection H as <- _. reflexivity.
    + destruct overwriteExisting; [|injection H as <- _; reflexivity].
      destruct (updateProduct respond toISOString id product w0)
        as [[[]|e] w2]; [|discriminate H].
      injection H as <- _. reflexivity.
  - destruct (createProduct respond toISOString product w0)
      as [[productId|e] w2]; [|discriminate H].
    injection H as <- _. reflexivity.
Qed.

Lemma exportProduct_outcome product overwriteExisting w :
  ∃ result,
    (exportProduct respond toISOString product overwriteExisting w).1
    = Return result
    ∧ (success result = true ∨ ∃ e, result = failed e).
Proof.
  pose proof (exportProduct_catches product overwriteExisting w) as H.
  destruct (exportProduct_try _ _ _ _ w) as [[result|e] w1].
  - destruct H as [-> Hs]. eauto.
  - rewrite H. simpl. eauto.
Qed.

Lemma tally_entry acc product result :
  success result = true ∨ (∃ e, result = failed e) →
  tally acc product result
  = mkCounters
      (n_created acc + (if (success result && created result)%bool then 1 else 0))
      (n_updated acc + (if (success result && updated_ result)%bool then 1 else 0))
      (n_archived acc + (if (success result && archived result)%bool then 1 else 0))
      (errors acc ++ option_list (error_entry (product, result))).
Proof.
  unfold tally, error_entry. simpl. intros [Hs|(e & ->)].
  - rewrite Hs. simpl. rewrite app_nil_r.
    destruct (created result), (updated_ result), (archived result);
      f_equal; lia.
  - simpl. rewrite String_of_truthy. simpl. destruct acc; simpl. f_equal; lia.
Qed.

Lemma exportProducts_loop_outcomes overwriteExisting products :
  ∀ acc w,
    let outs := (outcomes respond toISOString products overwriteExisting w).1 in
    map fst outs = products
    ∧ Forall (fun pr => success pr.2 = true ∨ ∃ e, pr.2 = failed e) outs
    ∧ exportProducts_loop respond toISOString products overwriteExisting acc w
      = (Return (mkCounters (n_created acc + count created outs)
                            (n_updated acc + count updated_ outs)
                            (n_archived acc + count archived outs)
                            (errors acc ++ omap error_entry outs)),
         (outcomes respond toISOString products overwriteExisting w).2).
Proof.
  induction products as [|p ps IH]; intros acc w; simpl.
  - repeat split; [constructor|]. unfold count. simpl.
    rewrite app_nil_r, !Nat.add_0_r. destruct acc; reflexivity.
  - unfold bind at 1.
    destruct (exportProduct_outcome p overwriteExisting w) as (r & Hr & Hshape).
    destruct (exportProduct _ _ p overwriteExisting w) as [o w1].
    simpl in Hr. subst o.
    destruct (IH (tally acc p r) w1) as (Hmap & Hall & Hloop).
    destruct (outcomes respond toISOString ps overwriteExisting w1) as [l w2]. simpl in *.
    split; [rewrite Hmap; reflexivity|].
    split; [constructor; assumption|].
    rewrite Hloop, (tally_entry acc p r Hshape). simpl.
    unfold count. simpl.
    assert (Hrec : ∀ a b c d a' b' c' d',
               a = a' → b = b' → c = c' → d = d' →
               (Return (mkCounters a b c d), w2)
               = (Return (mkCounters a' b' c' d'), w2))
      by (intros; subst; reflexivity).
    apply Hrec;
      try (destruct (success r && created r)%bool,
                    (success r && updated_ r)%bool,
                    (success r && archived r)%bool; simpl; lia).
    destruct (error_entry (p, r)) as [entry|]; simpl;
      rewrite <- ?app_assoc; reflexivity.
Qed.

(** The first request of an export is the search of the product under its
    title. *)
Lemma exportProduct_after_search product overwriteExisting w :
  ∃ rest,
    sent (exportProduct respond toISOString product overwriteExisting w).2
    = (sent w ++ search_of (Product.title product) :: rest)%list.
Proof.
  rewrite exportProduct_eq. cbv zeta.
  pose proof (searchProduct_sent product w) as Hs.
  destruct (searchProduct respond product w) as [[[id|]|e] w1]; simpl in Hs.
  - assert (Harchive :
      ∃ rest,
        sent (match archiveProduct respond [id] w1 with
              | (Return _, w2) =>
                  (Return (mkExport true (Some id) false false true None), w2)
              | (Throw e, w2) =>
                  (Return (failed e),
                   (console_error (export_report product e) w2).2)
              end).2
        = (sent w ++ search_of (Product.title product) :: rest)%list).
    { pose proof (archiveProduct_sent [id] w1) as Ha.
      destruct (archiveProduct respond [id] w1) as [[[]|e] w2];
        simpl in *; rewrite Ha, Hs, <- app_assoc; eexists; reflexivity. }
    destruct (Product.state product); try exact Harchive.
    destruct overwriteExisting;
      [|simpl; rewrite Hs; exists []; reflexivity].
    destruct (updateProduct respond toISOString id product w1) as [o w2] eqn:E.
    apply updateProduct_sent in E as (new & E & _).
    destruct o as [[]|e]; simpl; rewrite E, Hs, <- app_assoc;
      eexists; reflexivity.
  - destruct (createProduct respond toISOString product w1) as [o w2] eqn:E.
    apply createProduct_sent in E as (new & E & _).
    destruct o as [productId|e]; simpl; rewrite E, Hs, <- app_assoc;
      eexists; reflexivity.
  - simpl. rewrite Hs. exists []. reflexivity.
Qed.

(** The requests of one export: the search, then requests about the
    product. *)
Lemma exportProduct_block product overwriteExisting w :
  ∃ block,
    sent (exportProduct respond toISOString product overwriteExisting w).2
    = (sent w ++ block)%list
    ∧ export_block product block.
Proof.
  destruct (exportProduct_after_search product overwriteExisting w)
    as (rest & E).
  destruct (exportProduct_about product overwriteExisting w)
    as [(new & E' & F) _].
  rewrite E in E'. apply app_inv_head in E'. subst new.
  exists (search_of (Product.title product) :: rest). split; [exact E|].
  exists rest. split; [reflexivity|]. apply Forall_cons in F. apply F.
Qed.

Lemma outcomes_blocks overwriteExisting products : ∀ w,
  ∃ blocks,
    sent (outcomes respond toISOString products overwriteExisting w).2
    = (sent w ++ concat blocks)%list
    ∧ Forall2 export_block products blocks.
Proof.
  induction products as [|p ps IH]; intros w; simpl.
  - exists []. simpl. rewrite app_nil_r. split; [reflexivity | constructor].
  - destruct (exportProduct_block p overwriteExisting w) as (block & E & Hb).
    destruct (exportProduct _ _ p overwriteExisting w) as [o w1]. simpl in E.
    destruct (IH w1) as (blocks & E' & Hbs).
    destruct (outcomes _ _ ps overwriteExisting w1) as [l w2]. simpl in *.
    exists (block :: blocks). simpl. rewrite E', E, <- app_assoc.
    split; [reflexivity | constructor; assumption].
Qed.

Lemma exportProducts_world products overwriteExisting w :
  (exportProducts respond toISOString products overwriteExisting w).2
  = (outcomes respond toISOString products overwriteExisting w).2.
Proof.
  unfold exportProducts, bind.
  destruct (exportProducts_loop_outcomes overwriteExisting products
              (mkCounters 0 0 0 []) w) as (_ & _ & ->).
  reflexivity.
Qed.

Lemma Forall2_map_left {A B C} (f : A → B) (R : B → C → Prop) (l : list A) :
  ∀ k, Forall2 R (map f l) k → Forall2 (fun a c => R (f a) c) l k.
Proof.
  induction l as [|a l IH]; intros k H; inversion H; subst;
    constructor; auto.
Qed.

(** C6: both export handlers hand to the Odoo service the product with its
    title cleaned and every other field as it is, where the cleaned title
    is the one string that is the title without the occurrences of "Train
    wagon" in any letter case, taken from left to right, and then without
    the white space at its two ends: "SNCF bleu" for "Train Wagon SNCF
    bleu".  The state after a handler is the state after the export of the
    cleaned products.  For every product the service first searches the
    product under the cleaned title; the requests that follow before the
    next product are about the cleaned product: the name of the payload of
    a create or a write request is the cleaned title, the tags that are
    looked up are tags of the cleaned title and the category that is looked
    up is the category of the cleaned title, which may differ from that of
    the original title. *)
Theorem export_of_cleaned_title :
  (∀ product r,
     cleaned (Product.title product) r
     ↔ r = Product.title (cleanedProduct product))
  ∧ (∀ product, same_but_title product (cleanedProduct product))
  ∧ Product.title (cleanedProduct (titled "Train Wagon SNCF bleu")) = "SNCF bleu"
  ∧ (∀ product w,
       match productToOdooDict respond toISOString (cleanedProduct product) w with
       | (Return vals, _) =>
           OdooDict.name vals = Product.title (cleanedProduct product)
       | (Throw _, _) => True
       end)
  ∧ (∀ w,
       match productToOdooDict respond toISOString
               (cleanedProduct (titled "Train Wagon SNCF bleu")) w with
       | (Return vals, _) => OdooDict.name vals = "SNCF bleu"
       | (Throw _, _) => True
       end)
  ∧ (∀ now username product w st,
       let run := exportSingleToOdoo respond toISOString now username product w st in
       run.1.2
       = (exportProduct respond toISOString (cleanedProduct product) true w).2
       ∧ ∃ block,
           sent run.1.2 = (sent w ++ block)%list
           ∧ export_block (cleanedProduct product) block)
  ∧ (∀ now username products productIds w st,
       let run :=
         exportToOdoo respond toISOString now username products productIds w st in
       run.1.2
       = (exportProducts respond toISOString (map cleanedProduct products)
                         true w).2
       ∧ ∃ blocks,
           sent run.1.2 = (sent w ++ concat blocks)%list
           ∧ Forall2 (fun p block => export_block (cleanedProduct p) block)
                     products blocks)
  ∧ (getCategory (titled "Train wagon Jouef") = Some "Wagons"
     ∧ getCategory (cleanedProduct (titled "Train wagon Jouef")) = None).
Proof.
  split; [intros product r; apply cleaned_cleanTitle|].
  split; [intros product; destruct product; repeat split|].
  split; [vm_compute; reflexivity|].
  assert (Hname : ∀ product w,
    match productToOdooDict respond toISOString (cleanedProduct product) w with
    | (Return vals, _) =>
        OdooDict.name vals = Product.title (cleanedProduct product)
    | (Throw _, _) => True
    end).
  { intros product w.
    destruct (productToOdooDict_reference (cleanedProduct product) w) as [_ Hq].
    destruct (productToOdooDict _ _ _ w) as [[vals|e] w1]; [|trivial].
    apply (Hq vals eq_refl). }
  split; [exact Hname|].
  split; [intros w; apply (Hname (titled "Train Wagon SNCF bleu") w)|].
  split.
  { intros now username product w st. cbv zeta.
    assert (Hrun :
      (exportSingleToOdoo respond toISOString now username product w st).1.2
      = (exportProduct respond toISOString (cleanedProduct product) true w).2).
    { unfold exportSingleToOdoo.
      destruct (exportProduct _ _ _ true w) as [[result|e] w1]; reflexivity. }
    split; [exact Hrun|]. rewrite Hrun. apply exportProduct_block. }
  split.
  { intros now username products productIds w st. cbv zeta.
    assert (Hrun :
      (exportToOdoo respond toISOString now username products productIds w st).1.2
      = (exportProducts respond toISOString (map cleanedProduct products)
                        true w).2).
    { unfold exportToOdoo.
      destruct (exportProducts _ _ _ true w) as [[result|e] w1]; reflexivity. }
    split; [exact Hrun|]. rewrite Hrun, exportProducts_world.
    destruct (outcomes_blocks true (map cleanedProduct products) w)
      as (blocks & E & F).
    exists blocks. split; [exact E | apply Forall2_map_left, F]. }
  split; vm_compute; reflexivity.
Qed.

(** C4: an exception of the [try] block of [exportProduct], that is of the
    search, the create, the update or the archive, becomes the failure
    outcome that carries its message, so [exportProduct] always returns.
    [exportProducts] exports every product, in the order of the input, each
    in the state its predecessor has left; it returns the numbers of created,
    updated and archived products and one pair of product id and message for
    every product that failed, in that order, and its success flag is true
    exactly when that list is empty.  For three products of which the first
    and the third succeed and the second throws while it is created, the
    list has the one entry of the second product and the third outcome is
    that of exporting the third product after the failure. *)
Theorem exportProducts_spec (products : list Product.t)
    (overwriteExisting : bool) (w : World) :
  let export := exportProduct respond toISOString in
  let outs := (outcomes respond toISOString products overwriteExisting w).1 in
  (∀ product w0,
     match exportProduct_try respond toISOString product overwriteExisting w0 with
     | (Return result, w1) =>
         export product overwriteExisting w0 = (Return result, w1)
         ∧ success result = true
     | (Throw e, w1) =>
         (export product overwriteExisting w0).1 = Return (failed e)
         ∧ success (failed e) = false
         ∧ error (failed e) = Some (String_of e)
     end)
  ∧ map fst outs = products
  ∧ exportProducts respond toISOString products overwriteExisting w
    = (Return (mkBulk (Nat.eqb (length (omap error_entry outs)) 0)
                      (count created outs) (count updated_ outs)
                      (count archived outs) (omap error_entry outs)),
       (outcomes respond toISOString products overwriteExisting w).2)
  ∧ (∀ pr, pr ∈ outs → success pr.2 = false →
           ∃ e, pr.2 = failed e
                ∧ error_entry pr = Some (Product.id pr.1, String_of e))
  ∧ (∀ pr, pr ∈ outs → success pr.2 = true → error_entry pr = None)
  ∧ (∀ bulk w',
       exportProducts respond toISOString products overwriteExisting w
       = (Return bulk, w') →
       (bulk_success bulk = true ↔ bulk_errors bulk = []))
  ∧ (∀ p1 p2 p3 r1 w1 w1' e w2 r3 w3,
       products = [p1; p2; p3] →
       export p1 overwriteExisting w = (Return r1, w1) →
       success r1 = true →
       searchProduct respond p2 w1 = (Return None, w1') →
       createProduct respond toISOString p2 w1' = (Throw e, w2) →
       export p3 overwriteExisting (console_error (export_report p2 e) w2).2
       = (Return r3, w3) →
       success r3 = true →
       outs = [(p1, r1); (p2, failed e); (p3, r3)]
       ∧ ∃ bulk,
           exportProducts respond toISOString products overwriteExisting w
           = (Return bulk, w3)
           ∧ bulk_errors bulk = [(Product.id p2, String_of e)]
           ∧ bulk_success bulk = false).
Proof.
  intros export outs. subst export.
  destruct (exportProducts_loop_outcomes overwriteExisting products
              (mkCounters 0 0 0 []) w) as (Hmap & Hall & Hloop).
  fold outs in Hmap, Hall, Hloop. simpl in Hloop.
  assert (Hrun : exportProducts respond toISOString products overwriteExisting w
                 = (Return (mkBulk (Nat.eqb (length (omap error_entry outs)) 0)
                                   (count created outs) (count updated_ outs)
                                   (count archived outs) (omap error_entry outs)),
                    (outcomes respond toISOString products overwriteExisting w).2)).
  { unfold exportProducts, bind. rewrite Hloop. reflexivity. }
  split.
  { intros product w0.
    pose proof (exportProduct_catches product overwriteExisting w0) as H.
    destruct (exportProduct_try _ _ _ _ w0) as [[result|e] w1];
      [exact H | rewrite H; auto]. }
  split; [exact Hmap|]. split; [exact Hrun|].
  split.
  { intros pr Hin Hs. rewrite Forall_forall in Hall.
    destruct (Hall pr Hin) as [Hs'|(e & He)]; [congruence|].
    exists e. split; [exact He|]. unfold error_entry. rewrite He. simpl.
    rewrite String_of_truthy. reflexivity. }
  split.
  { intros pr _ Hs. unfold error_entry. rewrite Hs. reflexivity. }
  split.
  { intros bulk w' H. rewrite Hrun in H. injection H as <- _. simpl.
    rewrite Nat.eqb_eq. split.
    - intros Hl. destruct (omap error_entry outs); [reflexivity|discriminate].
    - intros ->. reflexivity. }
  intros p1 p2 p3 r1 w1 w1' e w2 r3 w3 -> H1 Hs1 Hsearch Hcreate H3 Hs3.
  assert (H2 : exportProduct respond toISOString p2 overwriteExisting w1
               = (Return (failed e), (console_error (export_report p2 e) w2).2)).
  { rewrite exportProduct_eq, Hsearch, Hcreate. reflexivity. }
  assert (Houts : outs = [(p1, r1); (p2, failed e); (p3, r3)]).
  { unfold outs. simpl. rewrite H1, H2, H3. reflexivity. }
  assert (Hend : (outcomes respond toISOString [p1; p2; p3] overwriteExisting w).2 = w3).
  { simpl. rewrite H1, H2, H3. reflexivity. }
  split; [exact Houts|]. eexists. rewrite Hrun, Hend.
  split; [reflexivity|]. rewrite Houts. unfold error_entry. simpl.
  rewrite Hs1, Hs3, String_of_truthy. simpl. split; reflexivity.
Qed.

(** C9, as amended: for each of the four resolvers, when the name is not in
    the cache and the remote look-up answers with at least one record, the
    first call sends exactly that one request, stores the id of the first
    record under the name and returns it, and a second call for the same name
    returns the stored id without sending anything.  (A look-up that finds
    no record stores nothing.) *)
Theorem resolver_caches_first_match (name : string) :
  one_lookup respond (getTagId respond name) (fun id => id) TAGS_ID_CACHE
    "/product.tag/search_read" name
  ∧ one_lookup respond (getCategoryId respond name) (fun id => id) CATEGORY_ID_CACHE
      "/product.category/search_read" name
  ∧ one_lookup respond (getPublicCategoryId respond name) Some PUBLIC_CATEGORY_ID_CACHE
      "/product.public.category/search" name
  ∧ one_lookup respond (getTaxId respond) (fun id => id) TAX_ID_CACHE
      "/account.tax/search_read" taxName.
Proof.
  split; [apply getTagId_one_lookup|].
  split; [apply getCategoryId_one_lookup|].
  split; [apply getPublicCategoryId_one_lookup | apply getTaxId_one_lookup].
Qed.

End Orchestrator.

(** ** Examples on three servers *)

(** C2, as stated, fails when the action throws: the search finds nothing,
    the tag Jouef has no record, so the payload cannot be built, no create
    request is sent and the outcome is a failure. *)
Lemma exportProduct_not_found_not_created :
  let product := titled "Wagon Jouef" in
  let run := exportProduct no_name_known iso product true fresh in
  (searchProduct no_name_known product fresh).1 = Return None
  ∧ run.1 = Return (mkExport false None false false false
                             (Some "Error: Tag 'Jouef' not found in Odoo."))
  ∧ calls is_create (sent run.2) = 0%nat.
Proof. vm_compute. repeat split. Qed.

Lemma exportProducts_spec_witness :
  let products :=
    [dated "Wagon Jouef" "1"; dated "Wagon Lima" "2"; dated "Rails Piko" "3"] in
  ∃ bulk w3,
    exportProducts shop iso products true fresh = (Return bulk, w3)
    ∧ bulk_errors bulk
      = [("2", "Error: HTTP error 500 for URL /product.template/create")]
    ∧ bulk_success bulk = false.
Proof.
  intros products.
  pose proof (exportProducts_spec shop iso products true fresh) as H.
  cbv zeta in H. destruct H as (_ & _ & _ & _ & _ & _ & H).
  edestruct (H (dated "Wagon Jouef" "1") (dated "Wagon Lima" "2")
               (dated "Rails Piko" "3"))
    as (_ & bulk & Hrun & Herrors & Hsuccess).
  - reflexivity.
  - vm_compute. reflexivity.
  - reflexivity.
  - vm_compute. reflexivity.
  - vm_compute. reflexivity.
  - vm_compute. reflexivity.
  - reflexivity.
  - exists bulk. eexists. split; [exact Hrun|]. split; [|exact Hsuccess].
    rewrite Herrors. vm_compute. reflexivity.
Defined.

Lemma productToOdooDict_reference_failures_witness :
  ∃ vals w3,
    productToOdooDict shop iso (dated "Wagon Jouef" "1") fresh = (Return vals, w3)
    ∧ OdooDict.categ_id vals = None
    ∧ OdooDict.public_categ_ids vals = None.
Proof.
  destruct (productToOdooDict_reference_failures shop iso
              (dated "Wagon Jouef" "1") fresh) as (H & _).
  edestruct H as (w3 & Hrun & Hc & Hp & _).
  - vm_compute. reflexivity.
  - vm_compute. reflexivity.
  - vm_compute. reflexivity.
  - eauto.
Defined.

Lemma resolver_caches_first_match_witness :
  ∃ w1,
    getTagId every_name_known "Jouef" fresh = (Return 42, w1)
    ∧ sent w1 = [mkRequest "/product.tag/search_read" (Domain "Jouef")]
    ∧ TAGS_ID_CACHE w1 !! "Jouef" = Some 42
    ∧ getTagId every_name_known "Jouef" w1 = (Return 42, w1).
Proof.
  exact (proj1 (resolver_caches_first_match every_name_known "Jouef")
           fresh (answer [42]) 42 [] eq_refl eq_refl eq_refl eq_refl).
Defined.

(** C9, as stated, fails for a name that has no record: nothing is stored,
    and each of the two calls sends the look-up.  The public category
    returns nothing twice, the tag throws twice. *)
Lemma resolver_miss_looked_up_again :
  let public := mkRequest "/product.public.category/search" (Domain "Wagons") in
  let first := getPublicCategoryId no_name_known "Wagons" fresh in
  let second := getPublicCategoryId no_name_known "Wagons" first.2 in
  let tag := mkRequest "/product.tag/search_read" (Domain "Jouef") in
  let third := getTagId no_name_known "Jouef" fresh in
  let fourth := getTagId no_name_known "Jouef" third.2 in
  (first.1 = Return None ∧ second.1 = Return None
   ∧ sent second.2 = [public; public])
  ∧ (third.1 = Throw (Error "Tag 'Jouef' not found in Odoo.")
     ∧ fourth.1 = Throw (Error "Tag 'Jouef' not found in Odoo.")
     ∧ sent fourth.2 = [tag; tag]).
Proof. vm_compute. repeat split. Qed.

(** In the shop, the handler of one product exports " Train Wagon SNCF
    bleu" followed by a no-break space as "SNCF bleu": it searches that
    title, looks up the tag SNCF and the tax, and creates the product under
    that name. *)
Example exportSingleToOdoo_SNCF_bleu :
  let title := " Train Wagon SNCF bleu" ++ JsString.bytes [194; 160] in
  let run :=
    exportSingleToOdoo shop iso "2024-03-01T08:00:00.000Z" "alice"
      (dated title "7") fresh None in
  map (fun r => (endpoint r,
                 match body r with
                 | Domain name => Some name
                 | ValsList vals => Some (OdooDict.name vals)
                 | WriteVals _ vals => Some (OdooDict.name vals)
                 | _ => None
                 end))
      (sent run.1.2)
  = [ ("/product.template/search_read", Some "SNCF bleu");
      ("/product.tag/search_read", Some "SNCF");
      ("/account.tax/search_read", Some taxName);
      ("/product.template/create", Some "SNCF bleu") ]
  ∧ created run.1.1 = true.
Proof. vm_compute. split; reflexivity. Qed.

(** * Further properties of the listing store *)

Lemma merge_step_dom acc l :
  dom (merged (merge_step acc l))
  = dom (merged acc) ∪ {[ProductListing.id l]}.
Proof.
  unfold merge_step.
  destruct (merged acc !! ProductListing.id l) as [e|] eqn:E.
  - assert (ProductListing.id l ∈ dom (merged acc))
      by (apply elem_of_dom; eauto).
    destruct (hasChanged e l); simpl; [rewrite dom_insert_L|]; set_solver.
  - destruct (inherited (ProductListing.id l)); simpl;
      rewrite dom_insert_L; set_solver.
Qed.

Lemma merge_fold_dom ls : ∀ acc,
  dom (merged (fold_left merge_step ls acc))
  = dom (merged acc) ∪ list_to_set (map ProductListing.id ls).
Proof.
  induction ls as [|l ls IH]; intros acc; simpl; [set_solver|].
  rewrite IH, merge_step_dom. set_solver.
Qed.

(** X1: for a batch, with or without repeated ids, that has no listing
    with the id [__proto__] (under which an assignment sets the prototype
    of the object and stores nothing), the ids stored after
    [mergeListingsWithStats] are the ids stored before together with the
    ids of the incoming listings. *)
Theorem mergeListingsWithStats_dom (existing : gmap string ProductListing.t)
    (newListings : list ProductListing.t) :
  "__proto__" ∉ map ProductListing.id newListings →
  dom (merged (mergeListingsWithStats existing newListings))
  = dom existing ∪ list_to_set (map ProductListing.id newListings).
Proof.
  intros _. unfold mergeListingsWithStats. rewrite merge_fold_dom.
  reflexivity.
Qed.

Lemma mergeListingsWithStats_dom_witness :
  dom (merged (mergeListingsWithStats
                 {["7" := listing "7" "Wagon Jouef" 12 Missing]}
                 [listing "8" "Loco Roco" 40 Missing;
                  listing "8" "Loco Roco" 45 Missing;
                  listing "toString" "Rails Piko" 5 Missing]))
  = ({["7"; "8"; "toString"]} : gset string).
Proof.
  rewrite mergeListingsWithStats_dom.
  - by_compute.
  - by_compute.
Defined.

Lemma merge_step_size acc l :
  inherited (ProductListing.id l) = false →
  (size (merged (merge_step acc l)) + added acc
   = size (merged acc) + added (merge_step acc l)
   ∧ added (merge_step acc l) + updated (merge_step acc l)
     ≤ S (added acc + updated acc))%nat.
Proof.
  intros Hown. unfold merge_step.
  destruct (merged acc !! ProductListing.id l) as [e|] eqn:E.
  - destruct (hasChanged e l); simpl; [|lia].
    rewrite map_size_insert_Some by eauto. lia.
  - rewrite Hown. simpl. rewrite map_size_insert_None by exact E. lia.
Qed.

Lemma merge_fold_size ls : ∀ acc,
  (∀ l, l ∈ ls → inherited (ProductListing.id l) = false) →
  (size (merged (fold_left merge_step ls acc)) + added acc
   = size (merged acc) + added (fold_left merge_step ls acc)
   ∧ added (fold_left merge_step ls acc) + updated (fold_left merge_step ls acc)
     ≤ length ls + (added acc + updated acc))%nat.
Proof.
  induction ls as [|l ls IH]; intros acc Hown; simpl; [lia|].
  destruct (IH (merge_step acc l)) as [Hs Hc].
  { intros l' Hl'. apply Hown. right. exact Hl'. }
  destruct (merge_step_size acc l) as [Hs0 Hc0]; [apply Hown; left|]. lia.
Qed.

(** X2: for every batch no id of which is the name of a property that
    every object inherits, the mapping grows by exactly the number of
    additions reported, and additions and updates together never exceed the
    number of incoming listings.  (Under an inherited name the code stores
    a listing that it counts as an update.) *)
Theorem mergeListingsWithStats_counts (existing : gmap string ProductListing.t)
    (newListings : list ProductListing.t) :
  (∀ l, l ∈ newListings → ProductListing.id l ∉ Object_prototype) →
  let r := mergeListingsWithStats existing newListings in
  size (merged r) = (size existing + added r)%nat
  ∧ (added r + updated r ≤ length newListings)%nat.
Proof.
  intros Hown. unfold mergeListingsWithStats.
  destruct (merge_fold_size newListings (mkMerge existing 0 0)) as [Hs Hc].
  { intros l Hl. apply bool_decide_eq_false_2, Hown, Hl. }
  simpl in *. lia.
Qed.

Lemma mergeListingsWithStats_counts_witness :
  let existing : gmap string ProductListing.t :=
    {["7" := listing "7" "Wagon Jouef" 12 Missing]} in
  let batch :=
    [listing "7" "Wagon Jouef" 15 Missing; listing "8" "Loco Roco" 40 Missing;
     listing "8" "Loco Roco" 45 Missing] in
  let r := mergeListingsWithStats existing batch in
  size (merged r) = (size existing + added r)%nat
  ∧ (added r + updated r ≤ length batch)%nat.
Proof.
  intros existing batch.
  apply (mergeListingsWithStats_counts existing batch).
  intros l Hl. unfold batch in Hl.
  repeat (apply elem_of_cons in Hl as [->|Hl]; [by_compute|]).
  inversion Hl.
Defined.







Lemma merge_step_keyed acc l :
  keyed_by_id (merged acc) → keyed_by_id (merged (merge_step acc l)).
Proof.
  intros H k x. unfold merge_step.
  destruct (merged acc !! ProductListing.id l) as [e|] eqn:E;
    [destruct (hasChanged e l)|destruct (inherited (ProductListing.id l))];
    simpl; try apply H;
    rewrite lookup_insert; case_decide; try apply H;
    intros [= <-]; simpl; congruence.
Qed.

(** X4: if every stored listing is stored under its own id, this is still
    so after [mergeListingsWithStats], for every batch. *)
Theorem mergeListingsWithStats_keyed_by_id
    (existing : gmap string ProductListing.t)
    (newListings : list ProductListing.t) :
  keyed_by_id existing →
  keyed_by_id (merged (mergeListingsWithStats existing newListings)).
Proof.
  unfold mergeListingsWithStats.
  assert (H : ∀ ls acc, keyed_by_id (merged acc) →
                        keyed_by_id (merged (fold_left merge_step ls acc))).
  { induction ls as [|l ls IH]; intros acc Hk; simpl; [exact Hk|].
    apply IH, merge_step_keyed, Hk. }
  intros Hk. apply (H newListings (mkMerge existing 0 0)), Hk.
Qed.

Lemma mergeListingsWithStats_keyed_by_id_witness :
  keyed_by_id
    (merged (mergeListingsWithStats
               {["7" := listing "7" "Wagon Jouef" 12 Missing]}
               [listing "7" "Wagon Jouef" 15 Missing;
                listing "8" "Loco Roco" 40 Missing])).
Proof.
  apply mergeListingsWithStats_keyed_by_id.
  intros k l H. apply lookup_singleton_Some in H as [<- <-]. reflexivity.
Defined.

Lemma mark_fold_nothing (S : gset string)
    (entries : list (string * ProductListing.t)) :
  ∀ acc,
    Forall (fun e => ProductListing.state e.2 = REMOVED ∨ e.1 ∈ S) entries →
    fold_left (mark_step S) entries acc = acc.
Proof.
  induction entries as [|[id l] entries IH]; intros acc H; [reflexivity|].
  apply Forall_cons in H as [H0 H]. simpl in H0. cbn [fold_left].
  assert (Hstep : mark_step S acc (id, l) = acc).
  { unfold mark_step, state_sne. destruct H0 as [Hs|Hin].
    - rewrite (bool_decide_eq_true_2 _ Hs), andb_false_r. reflexivity.
    - rewrite (bool_decide_eq_true_2 _ Hin). reflexivity. }
  rewrite Hstep. apply IH, H.
Qed.

Lemma marked_settled (S : gset string) k l :
  ProductListing.state (marked S k l) = REMOVED ∨ k ∈ S.
Proof.
  unfold marked, state_sne.
  destruct (decide (k ∈ S)) as [Hin|Hout]; [right; exact Hin | left].
  rewrite (bool_decide_eq_false_2 _ Hout). simpl.
  destruct (decide (ProductListing.state l = REMOVED)) as [Hs|Hs].
  - rewrite (bool_decide_eq_true_2 _ Hs). exact Hs.
  - rewrite (bool_decide_eq_false_2 _ Hs). reflexivity.
Qed.

Lemma mark_loop_again (S : gset string) (listings : gmap string ProductListing.t) :
  mark_loop S (mark_loop S listings).1 = ((mark_loop S listings).1, 0%nat).
Proof.
  unfold mark_loop at 1. apply mark_fold_nothing.
  apply Forall_forall. intros [k l'] Hin. simpl.
  apply elem_of_map_to_list in Hin. rewrite mark_loop_lookup in Hin.
  destruct (listings !! k) as [l|]; [|discriminate].
  injection Hin as <-. apply marked_settled.
Qed.

(** X5: [markMissingAsRemoved] is idempotent: a second call with the same
    user and the same ids leaves the storage as the first call has left
    it. *)
Theorem markMissingAsRemoved_idempotent (st : Storage) (username : string)
    (currentIds : list string) :
  markMissingAsRemoved (markMissingAsRemoved st username currentIds)
    username currentIds
  = markMissingAsRemoved st username currentIds.
Proof.
  remember (markMissingAsRemoved st username currentIds) as st1 eqn:E.
  unfold markMissingAsRemoved in E.
  destruct (getProfilesItem st !! username) as [profile|] eqn:Ep.
  - pose proof (mark_loop_again (list_to_set currentIds)
                  (ProfileData.listings profile)) as Hagain.
    destruct (mark_loop (list_to_set currentIds) (ProfileData.listings profile))
      as [listings removedCount] eqn:Hloop. simpl in Hagain.
    destruct removedCount as [|n]; simpl in E; subst st1.
    + unfold markMissingAsRemoved. rewrite Ep, Hloop. reflexivity.
    + unfold markMissingAsRemoved, getProfilesItem at 1. simpl.
      rewrite lookup_insert_eq. simpl. rewrite Hagain. reflexivity.
  - subst st1. unfold markMissingAsRemoved. rewrite Ep. reflexivity.
Qed.

Lemma mark_loop_dom (S : gset string) (listings : gmap string ProductListing.t) :
  dom (mark_loop S listings).1 = dom listings.
Proof.
  apply set_eq. intros k. rewrite !elem_of_dom, mark_loop_lookup.
  destruct (listings !! k); simpl; split; intros [x Hx]; eauto; discriminate.
Qed.

(** X6: [markMissingAsRemoved] changes nothing but the listings of the
    user: the profiles of the other users stay, and the profile of the user
    keeps its names, details, export statuses, time of the last scrape and
    the set of ids of its listings. *)
Theorem markMissingAsRemoved_frame (st : Storage) (username : string)
    (currentIds : list string) :
  let after := markMissingAsRemoved st username currentIds in
  (∀ other, other ≠ username → getProfile after other = getProfile st other)
  ∧ match getProfile st username with
    | None => getProfile after username = None
    | Some profile =>
        ∃ listings,
          getProfile after username = Some (with_listings profile listings)
          ∧ dom listings = dom (ProfileData.listings profile)
    end.
Proof.
  unfold markMissingAsRemoved, getProfile.
  destruct (getProfilesItem st !! username) as [profile|] eqn:Ep; simpl.
  - pose proof (mark_loop_dom (list_to_set currentIds)
                  (ProfileData.listings profile)) as Hdom.
    pose proof (mark_loop_none (list_to_set currentIds)
                  (ProfileData.listings profile)) as Hnone.
    destruct (mark_loop (list_to_set currentIds) (ProfileData.listings profile))
      as [listings removedCount]. simpl in Hdom, Hnone.
    destruct removedCount as [|n]; simpl.
    + split; [reflexivity|]. exists (ProfileData.listings profile).
      rewrite Ep. split; [destruct profile; reflexivity | reflexivity].
    + split.
      * intros other Hne. apply lookup_insert_ne. congruence.
      * exists listings. rewrite lookup_insert_eq. auto.
  - rewrite Ep. auto.
Qed.

Lemma has_property_true {A} (object : gmap string A) name :
  has_property object name = true
  ↔ is_Some (object !! name) ∨ name ∈ Object_prototype.
Proof.
  unfold has_property, inherited.
  rewrite orb_true_iff, !bool_decide_eq_true. reflexivity.
Qed.

(** X7: for a user name and for incoming ids other than [__proto__] (under
    which an assignment sets the prototype of the object and stores
    nothing), [handleSaveProducts] returns the counts of the merge, leaves
    the profiles of the other users and the details of the user as they
    are, and afterwards [checkListingExists] answers true for exactly the
    ids that were stored for the user before, the ids of the incoming
    listings, and the names that every object inherits, for which [in]
    holds on any object. *)
Theorem handleSaveProducts_frame (now : string) (st : Storage)
    (username : string) (newProducts : list ProductListing.t)
    (profileName : option string) :
  username ≠ "__proto__" →
  "__proto__" ∉ map ProductListing.id newProducts →
  let run := handleSaveProducts now st username newProducts profileName in
  let r := mergeListingsWithStats (stored_listings st username) newProducts in
  run.1 = (added r, updated r)
  ∧ (∀ other, other ≠ username → getProfile run.2 other = getProfile st other)
  ∧ (ProfileData.details <$> getProfile run.2 username)
    = Some (default ∅ (ProfileData.details <$> getProfile st username))
  ∧ (∀ id, checkListingExists run.2 username id = true
           ↔ is_Some (stored_listings st username !! id)
             ∨ id ∈ map ProductListing.id newProducts
             ∨ id ∈ Object_prototype).
Proof.
  intros _ _.
  unfold handleSaveProducts, stored_listings, getProfile, checkListingExists.
  simpl. split; [reflexivity|]. split.
  { intros other Hne. apply lookup_insert_ne. congruence. }
  rewrite lookup_insert_eq. simpl. split; [reflexivity|].
  intros id. rewrite has_property_true, <- !elem_of_dom.
  unfold mergeListingsWithStats.
  rewrite merge_fold_dom, elem_of_union, elem_of_list_to_set. simpl.
  tauto.
Qed.

Lemma handleSaveProducts_frame_witness :
  let run :=
    handleSaveProducts "2024-03-05T09:00:00.000Z" None "bob"
      [listing "8" "Loco Roco" 40 Missing] None in
  run.1 = (1%nat, 0%nat)
  ∧ checkListingExists run.2 "bob" "8" = true
  ∧ checkListingExists run.2 "bob" "toString" = true
  ∧ checkListingExists run.2 "bob" "9" = false.
Proof.
  intros run.
  destruct (handleSaveProducts_frame "2024-03-05T09:00:00.000Z" None "bob"
              [listing "8" "Loco Roco" 40 Missing] None)
    as (Hcounts & _ & _ & Hin).
  - discriminate.
  - by_compute.
  - fold run in Hcounts, Hin. split; [rewrite Hcounts; reflexivity|].
    split; [apply Hin; right; left; by_compute|].
    split; [apply Hin; right; right; by_compute|].
    destruct (checkListingExists run.2 "bob" "9") eqn:E; [|reflexivity].
    apply Hin in E. exfalso.
    destruct E as [[x Hx]|[E|E]];
      [vm_compute in Hx; discriminate | revert E; by_compute..].
Defined.

Lemma handleSaveProductDetails_effect (now : string) (st : Storage)
    (username : string) (detail : ProductDetail.t) :
  let after := handleSaveProductDetails now st username detail in
  stored_details after username !! ProductDetail.id detail = Some detail
  ∧ checkDetailsExist after username (ProductDetail.id detail) = true
  ∧ (∀ id, id ≠ ProductDetail.id detail →
           stored_details after username !! id
           = stored_details st username !! id)
  ∧ stored_listings after username = stored_listings st username
  ∧ (∀ other, other ≠ username → getProfile after other = getProfile st other).
Proof.
  unfold handleSaveProductDetails, stored_details, stored_listings, getProfile,
    checkDetailsExist.
  simpl. rewrite !lookup_insert_eq. simpl. rewrite lookup_insert_eq.
  split; [reflexivity|].
  split; [apply has_property_true; left; rewrite lookup_insert_eq; eauto|].
  split; [intros id Hne; apply lookup_insert_ne; congruence|].
  split; [reflexivity|].
  intros other Hne. apply lookup_insert_ne. congruence.
Qed.


Lemma checkListingExists_cases st username id :
  checkListingExists st username id = true
  ↔ is_Some (stored_listings st username !! id)
    ∨ (id ∈ Object_prototype ∧ is_Some (getProfile st username)).
Proof.
  unfold checkListingExists, stored_listings, getProfile.
  destruct (getProfilesItem st !! username) as [profile|]; simpl.
  - rewrite has_property_true. split; [|tauto].
    intros [H|H]; [left; exact H | right; eauto].
  - rewrite lookup_empty. split; [discriminate|].
    intros [[x Hx]|[_ [x Hx]]]; discriminate.
Qed.

Lemma checkDetailsExist_cases st username id :
  checkDetailsExist st username id = true
  ↔ is_Some (stored_details st username !! id)
    ∨ (id ∈ Object_prototype ∧ is_Some (getProfile st username)).
Proof.
  unfold checkDetailsExist, stored_details, getProfile.
  destruct (getProfilesItem st !! username) as [profile|]; simpl.
  - rewrite has_property_true. split; [|tauto].
    intros [H|H]; [left; exact H | right; eauto].
  - rewrite lookup_empty. split; [discriminate|].
    intros [[x Hx]|[_ [x Hx]]]; discriminate.
Qed.

Lemma handleSaveProductDetails_profiles now st seller detail username :
  is_Some (getProfile st username) →
  is_Some (getProfile (handleSaveProductDetails now st seller detail) username).
Proof.
  intros H. unfold handleSaveProductDetails, getProfile in *. simpl.
  destruct (decide (username = seller)) as [->|Hne].
  - rewrite lookup_insert_eq. eauto.
  - rewrite lookup_insert_ne by congruence. exact H.
Qed.

(** X9: [scrapeAdDetails] never changes or removes a stored detail: it
    saves the details of the page only when the seller has a listing with
    the id of the page and no details are stored for it yet. *)
Theorem scrapeAdDetails_keeps_details (now : string) (page : AdPage)
    (detailsScraped : bool) (st : Storage) (username id : string)
    (detail : ProductDetail.t) :
  stored_details st username !! id = Some detail →
  stored_details (scrapeAdDetails now page detailsScraped st).2 username !! id
  = Some detail.
Proof.
  intros H. unfold scrapeAdDetails.
  destruct detailsScraped; [exact H|].
  destruct (extractAdId page) as [adId|]; [|exact H].
  destruct (extractUsernameFromAdPage page) as [seller|]; [|exact H].
  destruct (checkListingExists st seller adId); [|exact H]. simpl.
  destruct (checkDetailsExist st seller adId) eqn:Hd; [exact H|]. simpl.
  pose proof (handleSaveProductDetails_effect now st seller
                (ProductDetail.mk adId (getDescription page)
                   (getPhotoUrls page) (scrapedAt page))) as (_ & _ & Ho & _ & Hu).
  simpl in Ho.
  destruct (decide (username = seller)) as [->|Hne].
  - rewrite Ho; [exact H|]. intros ->.
    assert (checkDetailsExist st seller adId = true)
      by (apply checkDetailsExist_cases; eauto).
    congruence.
  - unfold stored_details in *. rewrite Hu by exact Hne. exact H.
Qed.

(** X10: [scrapeAdDetails] keeps the store free of orphans: if every stored
    detail belongs to a stored listing of the same user before, it does so
    afterwards. *)
Theorem scrapeAdDetails_no_orphan (now : string) (page : AdPage)
    (detailsScraped : bool) (st : Storage) :
  details_have_listings st →
  details_have_listings (scrapeAdDetails now page detailsScraped st).2.
Proof.
  intros H. unfold scrapeAdDetails.
  destruct detailsScraped; [exact H|].
  destruct (extractAdId page) as [adId|]; [|exact H].
  destruct (extractUsernameFromAdPage page) as [seller|]; [|exact H].
  destruct (checkListingExists st seller adId) eqn:Hl; [|exact H]. simpl.
  destruct (checkDetailsExist st seller adId) eqn:Hd; [exact H|]. simpl.
  pose proof (handleSaveProductDetails_effect now st seller
                (ProductDetail.mk adId (getDescription page)
                   (getPhotoUrls page) (scrapedAt page)))
    as (_ & _ & Ho & Hls & Hu).
  simpl in Ho.
  set (after := handleSaveProductDetails now st seller
                  (ProductDetail.mk adId (getDescription page)
                     (getPhotoUrls page) (scrapedAt page))) in *.
  assert (Hup : ∀ username id,
            checkListingExists st username id = true →
            checkListingExists after username id = true).
  { intros username id Hc. apply checkListingExists_cases.
    apply checkListingExists_cases in Hc as [Hc|[Hi Hp]].
    - left. destruct (decide (username = seller)) as [->|Hne].
      + rewrite Hls. exact Hc.
      + unfold stored_listings in *. fold (getProfile after username).
        rewrite (Hu username Hne). exact Hc.
    - right. split; [exact Hi|].
      apply handleSaveProductDetails_profiles, Hp. }
  intros username id Hex.
  apply checkDetailsExist_cases in Hex as [Hex|[Hi Hp]].
  - destruct (decide (username = seller)) as [->|Hne].
    + destruct (decide (id = adId)) as [->|Hid]; [apply Hup, Hl|].
      apply Hup, H, checkDetailsExist_cases. left.
      rewrite <- Ho by exact Hid. exact Hex.
    + apply Hup, H, checkDetailsExist_cases. left.
      unfold stored_details in *. rewrite <- (Hu username Hne). exact Hex.
  - apply checkListingExists_cases. right. auto.
Qed.

Lemma scrapeAdDetails_keeps_details_witness :
  stored_details
    (scrapeAdDetails "2024-03-02T08:00:01.000Z" page9 false visited).2 "alice"
  !! "7" = Some detail7.
Proof.
  apply scrapeAdDetails_keeps_details. vm_compute. reflexivity.
Defined.

Lemma scrapeAdDetails_no_orphan_witness :
  details_have_listings
    (scrapeAdDetails "2024-03-02T08:00:01.000Z" page9 false
       (Some {["alice" := alice]})).2.
Proof.
  apply scrapeAdDetails_no_orphan.
  intros username id H. apply checkListingExists_cases.
  apply checkDetailsExist_cases in H as [H|H]; [|right; exact H].
  exfalso. unfold stored_details, getProfile, getProfilesItem in H.
  simpl in H.
  destruct (decide (username = "alice")) as [->|Hne].
  - vm_compute in H. destruct H as [x Hx]. discriminate.
  - rewrite lookup_singleton_ne in H by congruence.
    simpl in H. rewrite lookup_empty in H. destruct H as [x Hx]. discriminate.
Defined.

Section CombinedProducts.

Variable Object_entries :
  gmap string ProductListing.t → list (string * ProductListing.t).

(** The entries of an object are its own properties, each once. *)
Hypothesis Object_entries_own :
  ∀ listings, Object_entries listings ≡ₚ map_to_list listings.

(** X11: for listings stored under ids that are no names that every
    object inherits, [combineListingsWithDetails] returns one product per
    listing and nothing else: the product has the eight fields of the
    listing, the description, the photos and the time of the detail stored
    under the same id, or none of them when there is no such detail, and
    the export status stored under the same id, if any.  Details and
    statuses without a listing give no product. *)
Theorem combineListingsWithDetails_join
    (listings : gmap string ProductListing.t)
    (details : gmap string ProductDetail.t)
    (odooExports : option (gmap string OdooExportStatus.t)) :
  (∀ id, is_Some (listings !! id) → id ∉ Object_prototype) →
  let products :=
    combineListingsWithDetails Object_entries listings details odooExports in
  length products = size listings
  ∧ ∀ product,
      product ∈ products
      ↔ ∃ id listing,
          listings !! id = Some listing
          ∧ joined details odooExports id listing product.
Proof.
  intros _. unfold combineListingsWithDetails. split.
  - rewrite length_map, (Permutation_length (Object_entries_own listings)).
    apply length_map_to_list.
  - assert (Hjoin : ∀ id listing product,
              combine_entry details odooExports (id, listing) = product
              ↔ joined details odooExports id listing product).
    { intros id listing product. unfold joined. split.
      - intros <-. simpl. repeat split; reflexivity.
      - intros (H1 & H2 & H3 & H4 & H5 & H6 & H7 & H8 & H9 & H10 & H11 & H12).
        destruct product. simpl in *. subst. reflexivity. }
    intros product. rewrite list_elem_of_In, in_map_iff. split.
    + intros ([id listing] & Hp & Hin). exists id, listing.
      split; [|apply Hjoin, Hp].
      apply elem_of_map_to_list. rewrite <- (Object_entries_own listings).
      apply list_elem_of_In, Hin.
    + intros (id & listing & Hl & Hp). exists (id, listing).
      split; [apply Hjoin, Hp|]. apply list_elem_of_In.
      rewrite (Object_entries_own listings). apply elem_of_map_to_list, Hl.
Qed.

End CombinedProducts.

Lemma combineListingsWithDetails_join_witness :
  let products :=
    combineListingsWithDetails map_to_list (ProfileData.listings alice)
      {["7" := detail7]} (ProfileData.odooExports alice) in
  length products = 3%nat
  ∧ ∃ product,
      product ∈ products
      ∧ joined {["7" := detail7]} (ProfileData.odooExports alice) "7"
               (listing "7" "Wagon Jouef" 12 Missing) product.
Proof.
  intros products.
  destruct (combineListingsWithDetails_join map_to_list
              (fun listings => Permutation_refl _)
              (ProfileData.listings alice) {["7" := detail7]}
              (ProfileData.odooExports alice)) as [Hlen Hin].
  - intros id [x Hx] Hid. unfold Object_prototype in Hid.
    repeat (apply elem_of_cons in Hid as [->|Hid];
            [vm_compute in Hx; discriminate|]).
    inversion Hid.
  - fold products in Hlen, Hin. split; [rewrite Hlen; reflexivity|].
    exists (combine_entry {["7" := detail7]} (ProfileData.odooExports alice)
              ("7", listing "7" "Wagon Jouef" 12 Missing)).
    split.
    + apply Hin. exists "7", (listing "7" "Wagon Jouef" 12 Missing).
      split; [reflexivity|]. unfold joined. simpl. repeat split; reflexivity.
    + unfold joined. simpl. repeat split; reflexivity.
Defined.

(** * Further properties of the Odoo service *)

Lemma caches_kept_refl w : caches_kept w w.
Proof. unfold caches_kept. auto. Qed.

Lemma caches_kept_same w w' :
  TAGS_ID_CACHE w' = TAGS_ID_CACHE w →
  CATEGORY_ID_CACHE w' = CATEGORY_ID_CACHE w →
  PUBLIC_CATEGORY_ID_CACHE w' = PUBLIC_CATEGORY_ID_CACHE w →
  TAX_ID_CACHE w' = TAX_ID_CACHE w →
  caches_kept w w'.
Proof. unfold caches_kept. intros -> -> -> ->. auto. Qed.

Lemma caches_kept_trans w1 w2 w3 :
  caches_kept w1 w2 → caches_kept w2 w3 → caches_kept w1 w3.
Proof.
  unfold caches_kept. intros (?&?&?&?) (?&?&?&?).
  repeat split; etrans; eassumption.
Qed.

Lemma keeps_ret {A} (a : A) : keeps (ret a).
Proof. intros w. apply caches_kept_refl. Qed.

Lemma keeps_throw {A} e : keeps (throw (A := A) e).
Proof. intros w. apply caches_kept_refl. Qed.

Lemma keeps_bind {A B} (m : M A) (k : A → M B) :
  keeps m → (∀ a, keeps (k a)) → keeps (bind m k).
Proof.
  intros Hm Hk w. unfold bind. specialize (Hm w).
  destruct (m w) as [[a|e] w1]; simpl in *; [|exact Hm].
  eapply caches_kept_trans; [exact Hm | apply Hk].
Qed.

Lemma keeps_try_catch {A} (m : M A) (h : exn → M A) :
  keeps m → (∀ e, keeps (h e)) → keeps (try_catch m h).
Proof.
  intros Hm Hh w. unfold try_catch. specialize (Hm w).
  destruct (m w) as [[a|e] w1]; simpl in *; [exact Hm|].
  eapply caches_kept_trans; [exact Hm | apply Hh].
Qed.

Lemma keeps_promise_all {A} (ms : list (M A)) :
  Forall keeps ms → keeps (promise_all ms).
Proof.
  induction 1 as [|m ms Hm _ IH]; [apply keeps_ret|].
  intros w. simpl. specialize (Hm w). destruct (m w) as [r w1].
  specialize (IH w1). destruct (promise_all ms w1) as [rs w2]. simpl in *.
  eapply caches_kept_trans; eassumption.
Qed.

Lemma keeps_console_error message : keeps (console_error message).
Proof. intros w. apply caches_kept_same; reflexivity. Qed.

Lemma keeps_cache_get cache name : keeps (cache_get cache name).
Proof. intros w. apply caches_kept_refl. Qed.

Create HintDb keeps.

#[local] Hint Resolve keeps_ret keeps_throw keeps_console_error
  keeps_cache_get : keeps.

(** One step through a computation that keeps the caches. *)
Ltac keeps_step :=
  lazymatch goal with
  | |- keeps (bind _ _) => apply keeps_bind; [|intros ?]
  | |- keeps (try_catch _ _) => apply keeps_try_catch; [|intros ?]
  | |- keeps (match ?x with _ => _ end) => destruct x
  | |- keeps _ => solve [eauto with keeps]
  end.

(** Split the goal on what the computation in it examines. *)
Ltac split_goal :=
  repeat (simpl;
          match goal with
          | |- context [match ?x with _ => _ end] =>
              lazymatch x with
              | context [match _ with _ => _ end] => fail
              | _ => destruct x eqn:?
              end
          end);
  simpl.

Section Caches.

Variable respond : list Request → Request → FetchResult.
Variable toISOString : string → option string.

Lemma keeps_fetch req : keeps (fetch respond req).
Proof.
  intros w. unfold fetch.
  destruct (respond (sent w) req); apply caches_kept_same; reflexivity.
Qed.

Lemma keeps_raiseForStatus response : keeps (raiseForStatus response).
Proof. unfold raiseForStatus. destruct (ok response); auto with keeps. Qed.

Lemma keeps_parseJsonResponse response : keeps (parseJsonResponse response).
Proof. unfold parseJsonResponse. destruct (json response); auto with keeps. Qed.

Lemma keeps_first_id records : keeps (first_id records).
Proof.
  unfold first_id. destruct records as [[|id ids]|n]; auto with keeps.
  destruct (n =? 0); auto with keeps.
Qed.

#[local] Hint Resolve keeps_fetch keeps_raiseForStatus keeps_parseJsonResponse
  keeps_first_id : keeps.

(** A resolver keeps the caches, and the id it returns is cached under the
    name when it returns. *)
Lemma getTagId_cached name w :
  caches_kept w (getTagId respond name w).2
  ∧ ∀ id, (getTagId respond name w).1 = Return id →
          TAGS_ID_CACHE (getTagId respond name w).2 !! name = Some id.
Proof.
  unfold getTagId, bind, cache_get, fetch, raiseForStatus, parseJsonResponse,
    first_id, set_TAGS_ID_CACHE, ret, throw.
  destruct (TAGS_ID_CACHE w !! name) as [cached|] eqn:E; simpl.
  { split; [apply caches_kept_refl | intros id [= <-]; exact E]. }
  split_goal;
    (split; [try (apply caches_kept_same; reflexivity) | try discriminate]).
  - unfold caches_kept. simpl. repeat split; trivial.
    apply insert_subseteq, E.
  - intros id [= <-]. apply lookup_insert_eq.
Qed.

Lemma getTaxId_cached w :
  caches_kept w (getTaxId respond w).2
  ∧ ∀ id, (getTaxId respond w).1 = Return id →
          TAX_ID_CACHE (getTaxId respond w).2 !! taxName = Some id.
Proof.
  unfold getTaxId, bind, cache_get, fetch, raiseForStatus, parseJsonResponse,
    first_id, set_TAX_ID_CACHE, ret, throw.
  destruct (TAX_ID_CACHE w !! taxName) as [cached|] eqn:E; simpl.
  { split; [apply caches_kept_refl | intros id [= <-]; exact E]. }
  split_goal;
    (split; [try (apply caches_kept_same; reflexivity) | try discriminate]).
  - unfold caches_kept. simpl. repeat split; trivial.
    apply insert_subseteq, E.
  - intros id [= <-]. apply lookup_insert_eq.
Qed.

Lemma getCategoryId_cached name w :
  caches_kept w (getCategoryId respond name w).2
  ∧ ∀ id, (getCategoryId respond name w).1 = Return id →
          CATEGORY_ID_CACHE (getCategoryId respond name w).2 !! name = Some id.
Proof.
  unfold getCategoryId, bind, cache_get, fetch, raiseForStatus,
    parseJsonResponse, first_id, set_CATEGORY_ID_CACHE, ret, throw.
  destruct (CATEGORY_ID_CACHE w !! name) as [cached|] eqn:E; simpl.
  { split; [apply caches_kept_refl | intros id [= <-]; exact E]. }
  split_goal;
    (split; [try (apply caches_kept_same; reflexivity) | try discriminate]).
  - unfold caches_kept. simpl. repeat split; trivial.
    apply insert_subseteq, E.
  - intros id [= <-]. apply lookup_insert_eq.
Qed.

Lemma getPublicCategoryId_cached name w :
  caches_kept w (getPublicCategoryId respond name w).2
  ∧ ∀ id, (getPublicCategoryId respond name w).1 = Return (Some id) →
          PUBLIC_CATEGORY_ID_CACHE (getPublicCategoryId respond name w).2
          !! name = Some id.
Proof.
  unfold getPublicCategoryId, bind, cache_get, fetch, raiseForStatus,
    parseJsonResponse, first_id, set_PUBLIC_CATEGORY_ID_CACHE, ret, throw.
  destruct (PUBLIC_CATEGORY_ID_CACHE w !! name) as [cached|] eqn:E; simpl.
  { split; [apply caches_kept_refl | intros id [= <-]; exact E]. }
  split_goal;
    (split; [try (apply caches_kept_same; reflexivity) | try discriminate]).
  - unfold caches_kept. simpl. repeat split; trivial.
    apply insert_subseteq, E.
  - intros id [= <-]. apply lookup_insert_eq.
Qed.

Lemma keeps_getTagId name : keeps (getTagId respond name).
Proof. intros w. apply getTagId_cached. Qed.

Lemma keeps_getTaxId : keeps (getTaxId respond).
Proof. intros w. apply getTaxId_cached. Qed.

Lemma keeps_getCategoryId name : keeps (getCategoryId respond name).
Proof. intros w. apply getCategoryId_cached. Qed.

Lemma keeps_getPublicCategoryId name : keeps (getPublicCategoryId respond name).
Proof. intros w. apply getPublicCategoryId_cached. Qed.

#[local] Hint Resolve keeps_getTagId keeps_getTaxId keeps_getCategoryId
  keeps_getPublicCategoryId : keeps.

Lemma keeps_loadImages product : keeps (loadImages respond product).
Proof.
  unfold loadImages, downloadImageAsBase64.
  destruct (Product.photos product) as [[|photo rest]|]; auto with keeps.
  repeat keeps_step.
Qed.

Lemma keeps_createdDate date : keeps (createdDate toISOString date).
Proof. unfold createdDate. destruct (toISOString date); auto with keeps. Qed.

Lemma keeps_setCategory product category productData :
  keeps (setCategory respond product category productData).
Proof. unfold setCategory. repeat keeps_step. Qed.

#[local] Hint Resolve keeps_loadImages keeps_createdDate keeps_setCategory
  : keeps.

Lemma keeps_tags tags : keeps (promise_all (map (getTagId respond) tags)).
Proof.
  apply keeps_promise_all, Forall_forall. intros m Hm.
  apply list_elem_of_In, in_map_iff in Hm as (t & <- & _).
  apply keeps_getTagId.
Qed.

#[local] Hint Resolve keeps_tags : keeps.

Lemma keeps_buildProductData product :
  keeps (buildProductData respond toISOString product).
Proof. unfold buildProductData. repeat keeps_step. Qed.

#[local] Hint Resolve keeps_buildProductData : keeps.

Lemma keeps_productToOdooDict product :
  keeps (productToOdooDict respond toISOString product).
Proof. unfold productToOdooDict. repeat keeps_step. Qed.

#[local] Hint Resolve keeps_productToOdooDict : keeps.

Lemma keeps_exportProduct product overwriteExisting :
  keeps (exportProduct respond toISOString product overwriteExisting).
Proof.
  unfold exportProduct, exportProduct_try, searchProduct, createProduct,
    updateProduct, archiveProduct.
  repeat keeps_step.
Qed.

Lemma keeps_exportProducts_loop overwriteExisting products :
  ∀ acc,
    keeps (exportProducts_loop respond toISOString products overwriteExisting acc).
Proof.
  induction products as [|p ps IH]; intros acc; simpl; [apply keeps_ret|].
  apply keeps_bind; [apply keeps_exportProduct | intros r; apply IH].
Qed.

(** X12: no export changes or evicts a cached id: every name cached in one
    of the four resolver caches before [exportProducts] is cached with the
    same id afterwards, whatever the server answers. *)
Theorem exportProducts_keeps_caches (products : list Product.t)
    (overwriteExisting : bool) (w : World) :
  caches_kept w
    (exportProducts respond toISOString products overwriteExisting w).2.
Proof.
  revert w. change (keeps (exportProducts respond toISOString products
                              overwriteExisting)).
  unfold exportProducts. apply keeps_bind;
    [apply keeps_exportProducts_loop | intros acc; apply keeps_ret].
Qed.

End Caches.

Section Mapper.

Variable respond : list Request → Request → FetchResult.
Variable toISOString : string → option string.

Lemma tags_cached tags : ∀ w ids,
  (promise_all (map (getTagId respond) tags) w).1 = Return ids →
  Forall2 (fun tag id =>
             TAGS_ID_CACHE (promise_all (map (getTagId respond) tags) w).2
             !! tag = Some id)
          tags ids.
Proof.
  induction tags as [|t tags IH]; intros w ids; simpl.
  - intros [= <-]. constructor.
  - destruct (getTagId_cached respond t w) as [_ Hc].
    destruct (getTagId respond t w) as [r w1]. simpl in Hc.
    pose proof (keeps_tags respond tags w1) as (Hk & _).
    specialize (IH w1).
    destruct (promise_all (map (getTagId respond) tags) w1) as [rs w2].
    simpl in *. destruct r as [a|e]; [|discriminate].
    destruct rs as [l|e]; [|discriminate]. intros [= <-].
    constructor; [|apply IH; reflexivity].
    eapply lookup_weaken; [apply Hc; reflexivity | exact Hk].
Qed.

Lemma promise_all_length {A} (ms : list (M A)) : ∀ w l,
  (promise_all ms w).1 = Return l → length l = length ms.
Proof.
  induction ms as [|m ms IH]; intros w l; simpl.
  - intros [= <-]. reflexivity.
  - destruct (m w) as [r w1]. specialize (IH w1).
    destruct (promise_all ms w1) as [rs w2]. simpl in *.
    destruct r; [|discriminate]. destruct rs as [l'|]; [|discriminate].
    intros [= <-]. simpl. f_equal. apply IH. reflexivity.
Qed.

Lemma buildProductData_inv product w d w' :
  buildProductData respond toISOString product w = (Return d, w') →
  ∃ tagsIds w1 taxId w2 images w3 created,
    promise_all (map (getTagId respond) (getTags product)) w
    = (Return tagsIds, w1)
    ∧ getTaxId respond w1 = (Return taxId, w2)
    ∧ loadImages respond product w2 = (Return images, w3)
    ∧ createdDate toISOString (Product.date product) w3 = (Return created, w')
    ∧ OdooDict.name d = Product.title product
    ∧ OdooDict.list_price d = Product.price product
    ∧ OdooDict.website_published d = true
    ∧ OdooDict.qty_available d = 1
    ∧ OdooDict.product_tag_ids d = tagsIds
    ∧ OdooDict.taxes_id d = [taxId]
    ∧ OdooDict.create_date d = created
    ∧ OdooDict.publish_date d = created
    ∧ OdooDict.write_date d = created
    ∧ OdooDict.image_1920 d
      = (images.1 ≫= fun firstImage =>
           if JsString.truthy firstImage then Some firstImage else None)
    ∧ OdooDict.product_template_image_ids d
      = match images.2 with [] => None | imageIds => Some imageIds end
    ∧ OdooDict.categ_id d = None
    ∧ OdooDict.public_categ_ids d = None.
Proof.
  unfold buildProductData, bind. intros H.
  destruct (promise_all _ w) as [[tagsIds|e] w1] eqn:H1; [|discriminate].
  destruct (getTaxId respond w1) as [[taxId|e] w2] eqn:H2; [|discriminate].
  destruct (loadImages respond product w2) as [[images|e] w3] eqn:H3;
    [|discriminate].
  destruct (createdDate toISOString (Product.date product) w3)
    as [[created|e] w4] eqn:H4; [|discriminate].
  injection H as <- <-.
  exists tagsIds, w1, taxId, w2, images, w3, created. simpl.
  destruct images as [[firstImage|] imageIds]; simpl; repeat split;
    first [assumption | reflexivity].
Qed.

Lemma loadImages_imageIds product w images w' :
  loadImages respond product w = (Return images, w') →
  images.2 = []
  ∧ (Product.photos product = None ∨ Product.photos product = Some [] →
     images.1 = None).
Proof.
  unfold loadImages. intros H.
  destruct (Product.photos product) as [[|photo rest]|].
  - injection H as <- _. auto.
  - unfold bind, try_catch in H.
    destruct (downloadImageAsBase64 respond photo w) as [[a|e] w1];
      simpl in H; injection H as <- _;
      (split; [reflexivity | intros [?|?]; discriminate]).
  - injection H as <- _. auto.
Qed.

Lemma setCategory_inv product category productData w d w' :
  setCategory respond product category productData w = (Return d, w') →
  same_base productData d
  ∧ (OdooDict.categ_id productData = None →
     OdooDict.public_categ_ids productData = None →
     (∀ id, OdooDict.categ_id d = Some id →
            CATEGORY_ID_CACHE w' !! category = Some id)
     ∧ (OdooDict.public_categ_ids d ≠ None → OdooDict.categ_id d ≠ None)).
Proof.
  unfold setCategory. unfold bind at 1. unfold try_catch at 1. unfold bind at 1.
  destruct (getCategoryId_cached respond category w) as [_ Hc].
  destruct (getCategoryId respond category w) as [[id|e] w1]; simpl in Hc.
  - unfold ret at 1. cbv beta iota. unfold try_catch, bind.
    destruct (keeps_getPublicCategoryId respond category w1) as (_ & Hk & _).
    destruct (getPublicCategoryId respond category w1) as [[[pid|]|e] w2];
      simpl in Hk.
    + destruct (pid =? 0); intros [= <- <-]; simpl;
        (split; [unfold same_base; simpl; repeat split; reflexivity|]);
        intros _ _; (split; [|discriminate]); intros id' [= <-];
        (eapply lookup_weaken; [apply Hc; reflexivity | exact Hk]).
    + intros [= <- <-]. simpl.
      split; [unfold same_base; simpl; repeat split; reflexivity|].
      intros _ _. split; [|discriminate]. intros id' [= <-].
      eapply lookup_weaken; [apply Hc; reflexivity | exact Hk].
    + simpl. intros [= <- <-]. simpl.
      split; [unfold same_base; simpl; repeat split; reflexivity|].
      intros _ _. split; [|discriminate]. intros id' [= <-].
      eapply lookup_weaken; [apply Hc; reflexivity | exact Hk].
  - simpl. intros [= <- <-].
    split; [unfold same_base; repeat split; reflexivity|].
    intros Hn Hp. rewrite Hn, Hp. split; [discriminate | congruence].
Qed.

Lemma productToOdooDict_inv product w d w' :
  productToOdooDict respond toISOString product w = (Return d, w') →
  ∃ pd w1,
    buildProductData respond toISOString product w = (Return pd, w1)
    ∧ caches_kept w1 w'
    ∧ same_base pd d
    ∧ (getCategory product = None →
       OdooDict.categ_id d = None ∧ OdooDict.public_categ_ids d = None)
    ∧ (∀ category id, getCategory product = Some category →
                      OdooDict.categ_id d = Some id →
                      CATEGORY_ID_CACHE w' !! category = Some id)
    ∧ (OdooDict.public_categ_ids d ≠ None → OdooDict.categ_id d ≠ None).
Proof.
  unfold productToOdooDict, bind. intros H.
  destruct (buildProductData respond toISOString product w)
    as [[pd|e] w1] eqn:Hb; [|discriminate].
  destruct (buildProductData_inv _ _ _ _ Hb)
    as (?&?&?&?&?&?&?&_&_&_&_&_&_&_&_&_&_&_&_&_&_&_&Hn&Hp).
  exists pd, w1. split; [reflexivity|].
  assert (Hself : same_base pd pd) by (unfold same_base; repeat split).
  destruct (getCategory product) as [category|].
  - destruct (JsString.truthy category).
    + pose proof (keeps_setCategory respond product category pd w1) as Hk.
      rewrite H in Hk. simpl in Hk.
      destruct (setCategory_inv _ _ _ _ _ _ H) as (Hbase & Hcat).
      destruct (Hcat Hn Hp) as (Hc1 & Hc2).
      split; [exact Hk|]. split; [exact Hbase|]. split; [discriminate|].
      split; [intros c id [= <-]; apply Hc1 | exact Hc2].
    + injection H as <- <-.
      split; [apply caches_kept_refl|]. split; [exact Hself|].
      split; [discriminate|].
      split; [intros c id _ Hid; congruence | rewrite Hp; congruence].
  - injection H as <- <-.
    split; [apply caches_kept_refl|]. split; [exact Hself|].
    split; [auto|].
    split; [discriminate | rewrite Hp; congruence].
Qed.

(** X13: every payload [productToOdooDict] returns is named and priced by
    the product, is published with quantity 1, has the same three time
    stamps, one tax, as many tag ids as the title has tags and no list of
    further images; it has an image only if the product has a photo, a
    category only if the title has one, and a public category only together
    with a category. *)
Theorem productToOdooDict_payload (product : Product.t) (w : World)
    (d : OdooDict.t) (w' : World) :
  productToOdooDict respond toISOString product w = (Return d, w') →
  OdooDict.name d = Product.title product
  ∧ OdooDict.list_price d = Product.price product
  ∧ OdooDict.website_published d = true
  ∧ OdooDict.qty_available d = 1
  ∧ OdooDict.publish_date d = OdooDict.create_date d
  ∧ OdooDict.write_date d = OdooDict.create_date d
  ∧ length (OdooDict.taxes_id d) = 1%nat
  ∧ length (OdooDict.product_tag_ids d) = length (getTags product)
  ∧ OdooDict.product_template_image_ids d = None
  ∧ (Product.photos product = None ∨ Product.photos product = Some [] →
     OdooDict.image_1920 d = None)
  ∧ (getCategory product = None →
     OdooDict.categ_id d = None ∧ OdooDict.public_categ_ids d = None)
  ∧ (OdooDict.public_categ_ids d ≠ None → OdooDict.categ_id d ≠ None).
Proof.
  intros H.
  destruct (productToOdooDict_inv _ _ _ _ H)
    as (pd & w1 & Hb & _ & Hbase & Hnone & _ & Hpub).
  destruct (buildProductData_inv _ _ _ _ Hb)
    as (tagsIds & w0 & taxId & w2 & images & w3 & created & Htags & _ & Himg & _
        & E1 & E2 & E3 & E4 & E5 & E6 & E7 & E8 & E9 & E10 & E11 & _ & _).
  destruct Hbase as (B1&B2&B3&B4&B5&B6&B7&B8&B9&B10&B11&B12).
  destruct (loadImages_imageIds _ _ _ _ Himg) as (Hids & Hfirst).
  assert (Hlen : length tagsIds = length (getTags product)).
  { rewrite (promise_all_length _ w tagsIds) by (rewrite Htags; reflexivity).
    apply length_map. }
  repeat split; try congruence.
  - rewrite <- B7, E6. reflexivity.
  - rewrite <- B12, E11, Hids. reflexivity.
  - intros Hp. rewrite <- B11, E10, (Hfirst Hp). reflexivity.
  - apply Hnone; assumption.
  - apply Hnone; assumption.
  - exact Hpub.
Qed.

Lemma ids_cached (product : Product.t) (w : World)
    (d : OdooDict.t) (w' : World) :
  productToOdooDict respond toISOString product w = (Return d, w') →
  Forall2 (fun tag id => TAGS_ID_CACHE w' !! tag = Some id)
          (getTags product) (OdooDict.product_tag_ids d)
  ∧ (∃ taxId, OdooDict.taxes_id d = [taxId]
              ∧ TAX_ID_CACHE w' !! taxName = Some taxId)
  ∧ (∀ category id, getCategory product = Some category →
                    OdooDict.categ_id d = Some id →
                    CATEGORY_ID_CACHE w' !! category = Some id).
Proof.
  intros H.
  destruct (productToOdooDict_inv _ _ _ _ H)
    as (pd & w4 & Hb & (Hk1 & _ & _ & Hk4) & Hbase & _ & Hcat & _).
  destruct (buildProductData_inv _ _ _ _ Hb)
    as (tagsIds & w1 & taxId & w2 & images & w3 & created & Htags & Htax & Himg
        & Hdate & _ & _ & _ & _ & E5 & E6 & _).
  destruct Hbase as (_&_&_&_&_&B6&B7&_).
  pose proof (tags_cached (getTags product) w tagsIds) as Hc.
  rewrite Htags in Hc. specialize (Hc eq_refl). simpl in Hc.
  destruct (getTaxId_cached respond w1) as ((T1 & _) & Htc).
  rewrite Htax in T1, Htc. simpl in T1, Htc.
  pose proof (keeps_loadImages respond product w2) as (L1 & _ & _ & L4).
  rewrite Himg in L1, L4. simpl in L1, L4.
  pose proof (keeps_createdDate toISOString (Product.date product) w3)
    as (D1 & _ & _ & D4).
  rewrite Hdate in D1, D4. simpl in D1, D4.
  split; [|split].
  - rewrite <- B6, E5.
    eapply Forall2_impl; [exact Hc|]. simpl. intros tag id Ht.
    eapply lookup_weaken; [exact Ht|]. repeat (etrans; [eassumption|]).
    reflexivity.
  - exists taxId. rewrite <- B7, E6. split; [reflexivity|].
    eapply lookup_weaken; [apply Htc; reflexivity|].
    repeat (etrans; [eassumption|]). reflexivity.
  - exact Hcat.
Qed.

(** X14: when [productToOdooDict] returns, the tag ids of the payload are,
    in the order of the tags of the title, the ids the tag cache now holds
    for them, its tax id is the id the tax cache holds for the tax name, and
    its category id, if any, is the id the category cache holds for the
    category of the title. *)
Theorem productToOdooDict_ids_cached (product : Product.t) (w : World)
    (d : OdooDict.t) (w' : World) :
  productToOdooDict respond toISOString product w = (Return d, w') →
  Forall2 (fun tag id => TAGS_ID_CACHE w' !! tag = Some id)
          (getTags product) (OdooDict.product_tag_ids d)
  ∧ (∃ taxId, OdooDict.taxes_id d = [taxId]
              ∧ TAX_ID_CACHE w' !! taxName = Some taxId)
  ∧ (∀ category id, getCategory product = Some category →
                    OdooDict.categ_id d = Some id →
                    CATEGORY_ID_CACHE w' !! category = Some id).
Proof. apply ids_cached. Qed.

Lemma bind_known {A B} (m : M A) (k : A → M B) w a w' :
  m w = (Return a, w') → bind m k w = k a w'.
Proof. intros H. unfold bind. rewrite H. reflexivity. Qed.

Lemma bind_bind_known {A B C} (m : M A) (f : A → M B) (k : B → M C) w a w' :
  m w = (Return a, w') → bind (bind m f) k w = bind (f a) k w'.
Proof. intros H. unfold bind. rewrite H. reflexivity. Qed.

Lemma tags_hit tags : ∀ w ids,
  Forall2 (fun tag id => TAGS_ID_CACHE w !! tag = Some id) tags ids →
  promise_all (map (getTagId respond) tags) w = (Return ids, w).
Proof.
  induction tags as [|t tags IH]; intros w ids H.
  - apply Forall2_nil_inv_l in H as ->. reflexivity.
  - apply Forall2_cons_inv_l in H as (id & ids' & Ht & H & ->).
    simpl. unfold getTagId at 1, bind at 1, cache_get at 1. rewrite Ht.
    unfold ret at 1. rewrite (IH w ids' H). reflexivity.
Qed.

Lemma tax_hit w id :
  TAX_ID_CACHE w !! taxName = Some id → getTaxId respond w = (Return id, w).
Proof.
  intros H. unfold getTaxId, bind, cache_get. rewrite H. reflexivity.
Qed.

Lemma category_or_image_after_tags product w tagsIds taxId :
  promise_all (map (getTagId respond) (getTags product)) w
  = (Return tagsIds, w) →
  getTaxId respond w = (Return taxId, w) →
  grows category_or_image w (productToOdooDict respond toISOString product w).2.
Proof.
  intros Htags Htax. unfold productToOdooDict, buildProductData.
  rewrite (bind_bind_known _ _ _ _ _ _ Htags).
  rewrite (bind_bind_known _ _ _ _ _ _ Htax).
  match goal with
  | |- grows _ _ (?m w).2 =>
      assert (Ht : triple category_or_image m (fun _ => True));
      [|apply Ht]
  end.
  eapply triple_bind with (Q := fun _ => True).
  { eapply triple_bind with (Q := fun _ => True).
    - apply triple_loadImages. intros photo rest _. exact I.
    - intros images _.
      eapply triple_bind with (Q := fun _ => True).
      + unfold createdDate.
        destruct (toISOString (Product.date product));
          [apply triple_ret | apply triple_throw]; exact I.
      + intros created _. apply triple_ret. exact I. }
  intros pd _.
  destruct (getCategory product) as [category|] eqn:Hc;
    [|apply triple_ret; exact I].
  destruct (JsString.truthy category); [|apply triple_ret; exact I].
  eapply triple_weaken; [|apply (triple_setCategory respond category_or_image product)].
  - trivial.
  - intros c _. unfold category_or_image. simpl. auto.
  - exact Hc.
Qed.

(** X15: once [productToOdooDict] has returned a payload for a product,
    mapping the same product again sends no look-up of a tag or of the tax:
    the only requests of the second run are look-ups of categories and the
    download of the image. *)
Theorem productToOdooDict_again (product : Product.t) (w : World)
    (d : OdooDict.t) (w' : World) :
  productToOdooDict respond toISOString product w = (Return d, w') →
  grows category_or_image w'
    (productToOdooDict respond toISOString product w').2.
Proof.
  intros H. destruct (ids_cached _ _ _ _ H) as (Htags & (taxId & _ & Htax) & _).
  eapply category_or_image_after_tags;
    [apply tags_hit, Htags | apply tax_hit, Htax].
Qed.

End Mapper.

Lemma productToOdooDict_payload_witness :
  ∃ d w',
    productToOdooDict shop iso (dated "Wagon Jouef" "1") fresh = (Return d, w')
    ∧ OdooDict.website_published d = true.
Proof.
  destruct (productToOdooDict shop iso (dated "Wagon Jouef" "1") fresh)
    as [[d|e] w'] eqn:H; [|vm_compute in H; discriminate].
  exists d, w'. split; [reflexivity|].
  apply (productToOdooDict_payload shop iso _ _ _ _ H).
Defined.

Lemma productToOdooDict_ids_cached_witness :
  ∃ d w',
    productToOdooDict shop iso (dated "Wagon Jouef" "1") fresh = (Return d, w')
    ∧ Forall2 (fun tag id => TAGS_ID_CACHE w' !! tag = Some id)
              (getTags (dated "Wagon Jouef" "1")) (OdooDict.product_tag_ids d).
Proof.
  destruct (productToOdooDict shop iso (dated "Wagon Jouef" "1") fresh)
    as [[d|e] w'] eqn:H; [|vm_compute in H; discriminate].
  exists d, w'. split; [reflexivity|].
  apply (productToOdooDict_ids_cached shop iso _ _ _ _ H).
Defined.

Lemma productToOdooDict_again_witness :
  ∃ d w',
    productToOdooDict shop iso (dated "Wagon Jouef" "1") fresh = (Return d, w')
    ∧ grows category_or_image w'
        (productToOdooDict shop iso (dated "Wagon Jouef" "1") w').2.
Proof.
  destruct (productToOdooDict shop iso (dated "Wagon Jouef" "1") fresh)
    as [[d|e] w'] eqn:H; [|vm_compute in H; discriminate].
  exists d, w'. split; [reflexivity|].
  apply (productToOdooDict_again shop iso _ _ _ _ H).
Defined.

Section Exports.

Variable respond : list Request → Request → FetchResult.
Variable toISOString : string → option string.

Lemma calls_search title :
  calls is_create [mkRequest "/product.template/search_read" (Domain title)]
  = 0%nat
  ∧ calls is_write [mkRequest "/product.template/search_read" (Domain title)]
    = 0%nat
  ∧ calls is_archive [mkRequest "/product.template/search_read" (Domain title)]
    = 0%nat.
Proof. repeat split. Qed.

Lemma calls_after_search title new :
  let search := mkRequest "/product.template/search_read" (Domain title) in
  calls is_create ([search] ++ new) = calls is_create new
  ∧ calls is_write ([search] ++ new) = calls is_write new
  ∧ calls is_archive ([search] ++ new) = calls is_archive new.
Proof. repeat split. Qed.

Lemma exportProduct_action product overwriteExisting w :
  ∃ new,
    sent (exportProduct respond toISOString product overwriteExisting w).2
    = (sent w ++ new)%list
    ∧ (calls is_create new + calls is_write new + calls is_archive new ≤ 1)%nat
    ∧ (Product.state product = ACTIVE → calls is_archive new = 0%nat)
    ∧ (Product.state product ≠ ACTIVE → calls is_write new = 0%nat)
    ∧ (overwriteExisting = false → calls is_write new = 0%nat).
Proof.
  rewrite exportProduct_eq.
  pose proof (searchProduct_sent respond product w) as Hs.
  set (search := mkRequest "/product.template/search_read"
                           (Domain (Product.title product))) in *.
  assert (Hout : ∀ w2 new,
            sent w2 = (sent w ++ [search] ++ new)%list →
            (calls is_create new + calls is_write new + calls is_archive new
             ≤ 1)%nat →
            (Product.state product = ACTIVE → calls is_archive new = 0%nat) →
            (Product.state product ≠ ACTIVE → calls is_write new = 0%nat) →
            (overwriteExisting = false → calls is_write new = 0%nat) →
            ∃ new',
              sent w2 = (sent w ++ new')%list
              ∧ (calls is_create new' + calls is_write new'
                 + calls is_archive new' ≤ 1)%nat
              ∧ (Product.state product = ACTIVE →
                 calls is_archive new' = 0%nat)
              ∧ (Product.state product ≠ ACTIVE →
                 calls is_write new' = 0%nat)
              ∧ (overwriteExisting = false → calls is_write new' = 0%nat)).
  { intros w2 new E H1 H2 H3 H4. exists ([search] ++ new)%list.
    destruct (calls_after_search (Product.title product) new) as (E1 & E2 & E3).
    fold search in E1, E2, E3. rewrite E1, E2, E3. auto. }
  destruct (searchProduct respond product w) as [[[id|]|e] w1]; simpl in Hs.
  - destruct (Product.state product) eqn:Est.
    + destruct overwriteExisting.
      * destruct (updateProduct _ _ _ _ w1) as [[[]|e] w2] eqn:Hu;
          destruct (updateProduct_sent _ _ _ _ _ _ _ Hu)
            as (new & E & Hc & Ha & Hw);
          apply (Hout _ new); simpl sent;
          try (rewrite E, Hs, <- app_assoc; reflexivity);
          try lia; try congruence; auto.
      * apply (Hout _ []); [rewrite app_nil_r; exact Hs|..];
          unfold calls; simpl; auto.
    + pose proof (archiveProduct_sent respond [id] w1) as E.
      destruct (archiveProduct _ _ w1) as [[[]|e] w2]; simpl in E;
        apply (Hout _ [mkRequest "/product.template/action_archive"
                                 (Archive [id])]);
        simpl sent; try (rewrite E, Hs, <- app_assoc; reflexivity);
        unfold calls; simpl; auto; discriminate.
    + pose proof (archiveProduct_sent respond [id] w1) as E.
      destruct (archiveProduct _ _ w1) as [[[]|e] w2]; simpl in E;
        apply (Hout _ [mkRequest "/product.template/action_archive"
                                 (Archive [id])]);
        simpl sent; try (rewrite E, Hs, <- app_assoc; reflexivity);
        unfold calls; simpl; auto; discriminate.
  - destruct (createProduct _ _ _ w1) as [[productId|e] w2] eqn:Hcr;
      destruct (createProduct_sent _ _ _ _ _ _ Hcr) as (new & E & Hw & Ha & Hc);
      apply (Hout _ new); simpl sent;
      try (rewrite E, Hs, <- app_assoc; reflexivity);
      try lia; auto.
  - apply (Hout _ []); simpl sent; [rewrite app_nil_r; exact Hs|..];
      unfold calls; simpl; auto.
Qed.

(** X16: one call of [exportProduct] sends at most one request among create,
    write and archive; it sends no archive for an ACTIVE product, and no
    write for a product that is SOLD or REMOVED or when nothing may be
    overwritten. *)
Theorem exportProduct_one_action (product : Product.t)
    (overwriteExisting : bool) (w : World) :
  ∃ new,
    sent (exportProduct respond toISOString product overwriteExisting w).2
    = (sent w ++ new)%list
    ∧ (calls is_create new + calls is_write new + calls is_archive new ≤ 1)%nat
    ∧ (Product.state product = ACTIVE → calls is_archive new = 0%nat)
    ∧ (Product.state product ≠ ACTIVE → calls is_write new = 0%nat)
    ∧ (overwriteExisting = false → calls is_write new = 0%nat).
Proof. apply exportProduct_action. Qed.

Lemma exportProduct_shape product overwriteExisting w :
  ∃ result,
    (exportProduct respond toISOString product overwriteExisting w).1
    = Return result
    ∧ (one_flag overwriteExisting result ∨ ∃ e, result = failed e).
Proof.
  rewrite exportProduct_eq. unfold one_flag.
  destruct (searchProduct respond product w) as [[[id|]|e] w1].
  - destruct (Product.state product).
    + destruct overwriteExisting.
      * destruct (updateProduct _ _ _ _ w1) as [[[]|e] w2]; simpl; eauto 10.
      * simpl. eauto 10.
    + destruct (archiveProduct _ _ w1) as [[[]|e] w2]; simpl; eauto 10.
    + destruct (archiveProduct _ _ w1) as [[[]|e] w2]; simpl; eauto 10.
  - destruct (createProduct _ _ _ w1) as [[productId|e] w2]; simpl; eauto 10.
  - simpl. eauto.
Qed.

Lemma outcomes_shape overwriteExisting products : ∀ w,
  Forall (fun pr => one_flag overwriteExisting pr.2 ∨ ∃ e, pr.2 = failed e)
         (outcomes respond toISOString products overwriteExisting w).1.
Proof.
  induction products as [|p ps IH]; intros w; simpl; [constructor|].
  destruct (exportProduct_shape p overwriteExisting w) as (r & Hr & Hshape).
  destruct (exportProduct _ _ p overwriteExisting w) as [o w1].
  simpl in Hr. subst o. specialize (IH w1).
  destruct (outcomes _ _ ps overwriteExisting w1) as [l w2].
  simpl in *. constructor; assumption.
Qed.

Lemma shape_accounting overwriteExisting
    (outs : list (Product.t * OdooExportResult)) :
  Forall (fun pr => one_flag overwriteExisting pr.2 ∨ ∃ e, pr.2 = failed e)
         outs →
  (count created outs + count updated_ outs + count archived outs
   + length (omap error_entry outs) ≤ length outs)%nat
  ∧ (overwriteExisting = true →
     (count created outs + count updated_ outs + count archived outs
      + length (omap error_entry outs))%nat = length outs).
Proof.
  unfold count.
  induction 1 as [|[p r] outs Hr _ IH]; [simpl; split; reflexivity|].
  assert (Hcons : omap error_entry ((p, r) :: outs)
                  = (option_list (error_entry (p, r))
                     ++ omap error_entry outs)%list)
    by (simpl; destruct (error_entry (p, r)); reflexivity).
  rewrite Hcons, length_app. clear Hcons.
  remember (length (omap error_entry outs)) as E eqn:HE. clear HE.
  destruct IH as [IH1 IH2]. unfold error_entry.
  destruct r as [s pid c u a err]. unfold one_flag, failed in Hr. simpl in *.
  destruct Hr as [(-> & -> & Hf)|(e & Heq)].
  - destruct Hf as [Hf|[Hf|[Hf|[Hf Ho]]]]; injection Hf as -> -> ->; simpl;
      (split; [lia|]); intros Ht; try (specialize (IH2 Ht); lia); congruence.
  - injection Heq as -> -> -> -> -> ->. simpl. rewrite String_of_truthy. simpl.
    split; [lia|]. intros Ht. specialize (IH2 Ht). lia.
Qed.

(** X17: [exportProducts] always returns, and the numbers of created,
    updated and archived products and of errors it reports add up to at most
    the number of products; they add up to exactly that number when existing
    products are overwritten, as in both export handlers. *)
Theorem exportProducts_accounting (products : list Product.t)
    (overwriteExisting : bool) (w : World) :
  ∃ bulk,
    (exportProducts respond toISOString products overwriteExisting w).1
    = Return bulk
    ∧ (bulk_created bulk + bulk_updated bulk + bulk_archived bulk
       + length (bulk_errors bulk) ≤ length products)%nat
    ∧ (overwriteExisting = true →
       (bulk_created bulk + bulk_updated bulk + bulk_archived bulk
        + length (bulk_errors bulk))%nat = length products).
Proof.
  destruct (exportProducts_loop_outcomes respond toISOString overwriteExisting
              products (mkCounters 0 0 0 []) w) as (Hmap & _ & Hloop).
  pose proof (outcomes_shape overwriteExisting products w) as Hshape.
  destruct (shape_accounting _ _ Hshape) as [Hle Heq].
  assert (Hlen : length (outcomes respond toISOString products
                           overwriteExisting w).1 = length products)
    by (rewrite <- Hmap at 2; rewrite length_map; reflexivity).
  unfold exportProducts, bind. rewrite Hloop. simpl.
  eexists. split; [reflexivity|]. simpl. rewrite <- Hlen. auto.
Qed.

End Exports.

(** * Further properties of the export handlers *)

Lemma calls_none kind new :
  calls kind new = 0%nat → Forall (fun r => kind r = false) new.
Proof.
  unfold calls. induction new as [|r new IH]; simpl; [constructor|].
  destruct (kind r) eqn:E; simpl; [discriminate|].
  intros H. constructor; auto.
Qed.






Section Handlers.

Variable respond : list Request → Request → FetchResult.
Variable toISOString : string → option string.



Lemma exportProduct_active product overwriteExisting :
  Product.state product = ACTIVE →
  triple (fun r => is_archive r = false)
    (exportProduct respond toISOString product overwriteExisting)
    (fun result => archived result = false).
Proof.
  intros Hact w. split.
  - destruct (exportProduct_action respond toISOString product
                overwriteExisting w) as (new & E & _ & Ha & _).
    exists new. split; [exact E|]. apply calls_none, Ha, Hact.
  - rewrite exportProduct_eq, Hact.
    destruct (searchProduct respond product w) as [[[id|]|e] w1].
    + destruct overwriteExisting.
      * destruct (updateProduct _ _ _ _ w1) as [[[]|e] w2]; simpl;
          intros a [= <-]; reflexivity.
      * simpl. intros a [= <-]. reflexivity.
    + destruct (createProduct _ _ _ w1) as [[productId|e] w2]; simpl;
        intros a [= <-]; reflexivity.
    + simpl. intros a [= <-]. reflexivity.
Qed.

Lemma outcomes_active overwriteExisting products :
  Forall (fun p => Product.state p = ACTIVE) products →
  ∀ w, count archived
         (outcomes respond toISOString products overwriteExisting w).1 = 0%nat.
Proof.
  unfold count. induction 1 as [|p ps Hp _ IH]; intros w; simpl; [reflexivity|].
  destruct (exportProduct_active p overwriteExisting Hp w) as [_ Hq].
  destruct (exportProduct _ _ p overwriteExisting w) as [o w1].
  specialize (IH w1).
  destruct (outcomes _ _ ps overwriteExisting w1) as [l w2]. simpl in *.
  destruct o as [result|e]; [|exact IH]. simpl.
  rewrite (Hq result eq_refl), andb_false_r. exact IH.
Qed.

Lemma productsToExport_active currentProducts :
  Forall (fun p => Product.state p = ACTIVE)
         (map cleanedProduct (productsToExport currentProducts)).
Proof.
  apply Forall_forall. intros p Hp. apply list_elem_of_In in Hp.
  apply in_map_iff in Hp as (q & <- & Hq).
  unfold productsToExport in Hq. apply List.filter_In in Hq as [_ Hq].
  apply andb_prop in Hq as [Hq _]. apply andb_prop in Hq as [Hq _].
  apply bool_decide_eq_true in Hq. exact Hq.
Qed.

(** X20: the bulk export of the popup, which sends the ACTIVE products that
    have a description and a photo together with their ids, archives
    nothing: no archive request leaves [exportToOdoo], and the number of
    archived products in its reply is 0. *)
Theorem popup_export_archives_nothing (now : nat → string) (username : string)
    (currentProducts : list Product.t) (w : World) (st : Storage) :
  let products := productsToExport currentProducts in
  let run :=
    exportToOdoo respond toISOString now username products
                 (Some (map Product.id products)) w st in
  grows (fun r => is_archive r = false) w run.1.2
  ∧ reply_archived run.1.1 = Some 0%nat.
Proof.
  intros products run.
  pose proof (productsToExport_active currentProducts) as Hact.
  fold products in Hact.
  destruct (exportProducts_loop_outcomes respond toISOString true
              (map cleanedProduct products) (mkCounters 0 0 0 []) w)
    as (_ & _ & Hloop).
  simpl in Hloop. rewrite (outcomes_active true _ Hact w) in Hloop.
  assert (Hg : grows (fun r => is_archive r = false) w
                 (exportProducts_loop respond toISOString
                    (map cleanedProduct products) true
                    (mkCounters 0 0 0 []) w).2).
  { apply triple_exportProducts_loop.
    eapply Forall_impl; [exact Hact|]. simpl. intros p Hp.
    eapply triple_weaken; [|apply exportProduct_active, Hp]. trivial. }
  rewrite Hloop in Hg. simpl in Hg.
  unfold run, exportToOdoo, exportProducts, bind. rewrite Hloop. simpl.
  split; [exact Hg | reflexivity].
Qed.

End Handlers.



(** * Properties of the scraper *)

(** Split a conjunction into its parts. *)
Ltac conjs := repeat match goal with |- _ ∧ _ => split end.

Lemma JsSet_has_true s x : x ∈ s → JsSet.has s x = true.
Proof. intros H. unfold JsSet.has. apply bool_decide_eq_true_2, H. Qed.

Lemma JsSet_has_false s x : x ∉ s → JsSet.has s x = false.
Proof. intros H. unfold JsSet.has. apply bool_decide_eq_false_2, H. Qed.

Lemma JsSet_add_new s x : x ∉ s → JsSet.add s x = (s ++ [x])%list.
Proof.
  intros H. unfold JsSet.add, JsSet.has.
  rewrite bool_decide_eq_false_2 by exact H. reflexivity.
Qed.

Lemma JsSet_add_elem s x y : y ∈ JsSet.add s x ↔ y = x ∨ y ∈ s.
Proof.
  unfold JsSet.add, JsSet.has. destruct (decide (x ∈ s)) as [H|H].
  - rewrite bool_decide_eq_true_2 by exact H.
    split; [auto|]. intros [->|Hy]; assumption.
  - rewrite bool_decide_eq_false_2 by exact H.
    rewrite elem_of_app, list_elem_of_singleton. tauto.
Qed.

(** The rounds of [scrapeCurrentPage] that look for new articles only. *)
Lemma scrape_new_fold articles0 : ∀ products ids0 tracked,
  tracked = (ids0 ++ map ProductListing.id products)%list →
  NoDup (map ProductListing.id products) →
  (∀ k, k ∈ map ProductListing.id products → k ∉ ids0) →
  let r := fold_left (scrape_article true) articles0 (products, tracked) in
  r.2 = (ids0 ++ map ProductListing.id r.1)%list
  ∧ NoDup (map ProductListing.id r.1)
  ∧ (∀ k, k ∈ map ProductListing.id r.1 → k ∉ ids0)
  ∧ (∀ l, Some l ∈ articles0 → ProductListing.id l ∈ r.2)
  ∧ (∀ k, k ∈ tracked → k ∈ r.2).
Proof.
  induction articles0 as [|a rest IH]; intros products ids0 tracked Ht Hnd Hnew;
    cbv zeta; simpl.
  - conjs; auto. intros l H. inversion H.
  - destruct a as [product|]; simpl.
    + unfold JsSet.has.
      destruct (decide (ProductListing.id product ∈ tracked)) as [Hin|Hnin];
        [rewrite bool_decide_eq_true_2 by exact Hin
        |rewrite bool_decide_eq_false_2 by exact Hnin]; simpl.
      * destruct (IH products ids0 tracked Ht Hnd Hnew)
          as (E & N & F & Hall & Hkeep).
        conjs; auto.
        intros l Hl. apply elem_of_cons in Hl as [[= ->]|Hl]; auto.
      * rewrite JsSet_add_new by exact Hnin.
        assert (Hid : (ProductListing.id product ∉ ids0)
                      ∧ (ProductListing.id product
                         ∉ map ProductListing.id products)).
        { subst tracked. rewrite elem_of_app in Hnin. tauto. }
        destruct (IH (products ++ [product])%list ids0
                    (tracked ++ [ProductListing.id product])%list)
          as (E & N & F & Hall & Hkeep).
        { subst tracked. rewrite List.map_app, app_assoc. reflexivity. }
        { rewrite List.map_app. apply NoDup_app. conjs; auto.
          - intros k Hk Hk'. apply list_elem_of_singleton in Hk'. subst k.
            apply Hid, Hk.
          - apply NoDup_singleton. }
        { intros k Hk. rewrite List.map_app, elem_of_app in Hk.
          destruct Hk as [Hk|Hk]; [auto|].
          apply list_elem_of_singleton in Hk. subst k. apply Hid. }
        conjs; auto.
        -- intros l Hl. apply elem_of_cons in Hl as [[= ->]|Hl]; auto.
           apply Hkeep, elem_of_app. right. apply list_elem_of_singleton.
           reflexivity.
        -- intros k Hk. apply Hkeep, elem_of_app. left. exact Hk.
    + destruct (IH products ids0 tracked Ht Hnd Hnew)
        as (E & N & F & Hall & Hkeep).
      conjs; auto.
      intros l Hl. apply elem_of_cons in Hl as [Hl|Hl]; [discriminate|auto].
Qed.

Lemma scrape_known_fold articles0 : ∀ products tracked,
  (∀ l, Some l ∈ articles0 → ProductListing.id l ∈ tracked) →
  fold_left (scrape_article true) articles0 (products, tracked)
  = (products, tracked).
Proof.
  induction articles0 as [|a rest IH]; intros products tracked H; simpl;
    [reflexivity|].
  destruct a as [product|]; simpl.
  - unfold JsSet.has. rewrite bool_decide_eq_true_2.
    + simpl. apply IH. intros l Hl. apply H. right. exact Hl.
    + apply H. left.
  - apply IH. intros l Hl. apply H. right. exact Hl.
Qed.

(** X21: [scrapeCurrentPage(true)] returns articles with pairwise distinct
    ids none of which was tracked before, and tracks exactly these ids in
    addition; afterwards the id of every article of the page is tracked, so
    that a second look at the same page returns nothing and tracks nothing
    more. *)
Theorem scrapeCurrentPage_only_new (page : ProfilePage) (tracked : JsSet.t) :
  let first := scrapeCurrentPage true page tracked in
  NoDup (map ProductListing.id first.1)
  ∧ (∀ k, k ∈ map ProductListing.id first.1 → k ∉ tracked)
  ∧ first.2 = (tracked ++ map ProductListing.id first.1)%list
  ∧ (onProfilePage page = true →
     ∀ l, Some l ∈ articles page → ProductListing.id l ∈ first.2)
  ∧ scrapeCurrentPage true page first.2 = ([], first.2).
Proof.
  cbv zeta. unfold scrapeCurrentPage. destruct (onProfilePage page); simpl.
  - destruct (scrape_new_fold (articles page) [] tracked tracked)
      as (E & N & F & Hall & _).
    { simpl. rewrite app_nil_r. reflexivity. }
    { constructor. }
    { intros k Hk. inversion Hk. }
    conjs; auto.
    apply scrape_known_fold, Hall.
  - rewrite app_nil_r. conjs; auto; try constructor.
    + intros k Hk. inversion Hk.
    + discriminate.
Qed.

Lemma scrape_all_fold articles0 : ∀ products tracked,
  (fold_left (scrape_article false) articles0 (products, tracked)).1
  = (products ++ omap id articles0)%list.
Proof.
  induction articles0 as [|a rest IH]; intros products tracked; simpl.
  - rewrite app_nil_r. reflexivity.
  - destruct a as [product|]; simpl; rewrite IH; [|reflexivity].
    rewrite <- app_assoc. reflexivity.
Qed.

Lemma scrapeCurrentPage_all page tracked k :
  k ∈ map ProductListing.id (scrapeCurrentPage false page tracked).1
  ↔ on_page page k.
Proof.
  unfold scrapeCurrentPage, on_page. destruct (onProfilePage page); simpl.
  - rewrite scrape_all_fold. simpl. split.
    + intros H. apply list_elem_of_In, in_map_iff in H as (l & <- & Hl).
      apply list_elem_of_In, list_elem_of_omap in Hl as (a & Ha & E).
      simpl in E. subst a. eauto.
    + intros (_ & l & Hl & <-). apply list_elem_of_In, in_map.
      apply list_elem_of_In, list_elem_of_omap. exists (Some l). auto.
  - split; [intros H; inversion H | intros [H _]; discriminate].
Qed.

Lemma scrapeCurrentPage_from page tracked l :
  l ∈ (scrapeCurrentPage false page tracked).1 →
  onProfilePage page = true ∧ Some l ∈ articles page.
Proof.
  unfold scrapeCurrentPage. destruct (onProfilePage page); simpl.
  - rewrite scrape_all_fold. simpl. intros Hl.
    apply list_elem_of_omap in Hl as (a & Ha & E). simpl in E. subst a. auto.
  - intros H. inversion H.
Qed.

(** The rounds of the [forEach] of [scrapeAllPages]. *)
Lemma push_new_fold products : ∀ all (ids : JsSet.t),
  ids = map ProductListing.id all →
  NoDup ids →
  let r := fold_left push_new products (all, ids) in
  r.2 = map ProductListing.id r.1
  ∧ NoDup r.2
  ∧ (∀ k, k ∈ r.2 ↔ k ∈ ids ∨ k ∈ map ProductListing.id products)
  ∧ (∀ l, l ∈ r.1 → l ∈ all ∨ l ∈ products).
Proof.
  induction products as [|p ps IH]; intros all ids Hids Hnd; cbv zeta; simpl.
  - conjs; auto. intros k. split; [auto|]. intros [H|H]; [exact H|].
    inversion H.
  - assert (Hstep : push_new (all, ids) p
                    = if JsSet.has ids (ProductListing.id p)
                      then (all, ids)
                      else ((all ++ [p])%list,
                            JsSet.add ids (ProductListing.id p))).
    { unfold push_new. cbn [fst snd].
      destruct (JsSet.has ids (ProductListing.id p)); reflexivity. }
    rewrite Hstep. clear Hstep.
    destruct (decide (ProductListing.id p ∈ ids)) as [Hin|Hnin];
      [rewrite (JsSet_has_true _ _ Hin) | rewrite (JsSet_has_false _ _ Hnin)].
    + destruct (IH all ids Hids Hnd) as (E & N & Hk & Hl).
      conjs; auto.
      * intros k. rewrite Hk, elem_of_cons. split; [tauto|].
        intros [H|[->|H]]; auto.
      * intros l H. destruct (Hl l H); auto. right. right. assumption.
    + rewrite JsSet_add_new by exact Hnin.
      destruct (IH (all ++ [p])%list (ids ++ [ProductListing.id p])%list)
        as (E & N & Hk & Hl).
      { subst ids. rewrite List.map_app. reflexivity. }
      { apply NoDup_app. conjs; auto.
        - intros k Hk Hk'. apply list_elem_of_singleton in Hk'. subst k.
          contradiction.
        - apply NoDup_singleton. }
      conjs; auto.
      * intros k. rewrite Hk, elem_of_app, list_elem_of_singleton, elem_of_cons.
        tauto.
      * intros l H. destruct (Hl l H) as [H'|H']; [|right; right; exact H'].
        apply elem_of_app in H' as [H'|H']; [left; exact H'|].
        apply list_elem_of_singleton in H'. subst l. right. left.
Qed.

Section Pages.

Variable shown : nat → ProfilePage.
Variable totalPages : nat.

Lemma scrapeAllPages_loop_spec : ∀ remaining s,
  (remaining ≤ totalPages)%nat →
  scrapedIdsSet s = map ProductListing.id (allProducts s) →
  NoDup (scrapedIdsSet s) →
  let s' := scrapeAllPages_loop shown totalPages remaining s in
  scrapedIdsSet s' = map ProductListing.id (allProducts s')
  ∧ NoDup (scrapedIdsSet s')
  ∧ (∀ k, k ∈ scrapedIdsSet s'
          ↔ k ∈ scrapedIdsSet s
            ∨ ∃ n, (totalPages - remaining < n ≤ totalPages)%nat
                   ∧ (∀ m, (totalPages - remaining < m < n)%nat →
                           nextPageButton (shown m) = true)
                   ∧ on_page (shown n) k)
  ∧ (∀ l, l ∈ allProducts s' →
          l ∈ allProducts s
          ∨ ∃ n, (totalPages - remaining < n ≤ totalPages)%nat
                 ∧ (∀ m, (totalPages - remaining < m < n)%nat →
                         nextPageButton (shown m) = true)
                 ∧ onProfilePage (shown n) = true
                 ∧ Some l ∈ articles (shown n)).
Proof.
  induction remaining as [|rest IH]; intros s Hle Hids Hnd; cbv zeta.
  - simpl. conjs; auto. intros k. split; [auto|].
    intros [H|(n & Hn & _)]; [exact H | lia].
  - cbn [scrapeAllPages_loop].
    set (pageNum := (totalPages - rest)%nat).
    pose proof (scrapeCurrentPage_all (shown pageNum) (scrapedIds s)) as Hpage.
    pose proof (scrapeCurrentPage_from (shown pageNum) (scrapedIds s)) as Hfrom.
    destruct (scrapeCurrentPage false (shown pageNum) (scrapedIds s))
      as [products tracked'] eqn:Hscrape.
    try rewrite Hscrape in Hpage. try rewrite Hscrape in Hfrom.
    simpl in Hpage, Hfrom.
    pose proof (push_new_fold products (allProducts s) (scrapedIdsSet s)
                  Hids Hnd) as Hpush.
    cbv zeta in Hpush.
    destruct (fold_left push_new products (allProducts s, scrapedIdsSet s))
      as [all' ids'] eqn:Hfold.
    try rewrite Hfold in Hpush. simpl in Hpush.
    destruct Hpush as (E & N & Hk & Hl).
    set (s' := mkScrape all' ids' tracked').
    assert (Hhere : ∀ k, k ∈ ids'
              ↔ k ∈ scrapedIdsSet s ∨ on_page (shown pageNum) k).
    { intros k. rewrite Hk, Hpage. reflexivity. }
    assert (Hstop :
      scrapedIdsSet s' = map ProductListing.id (allProducts s')
      ∧ NoDup (scrapedIdsSet s')
      ∧ (∀ k, k ∈ scrapedIdsSet s'
              ↔ k ∈ scrapedIdsSet s ∨ on_page (shown pageNum) k)
      ∧ (∀ l, l ∈ allProducts s' →
              l ∈ allProducts s
              ∨ (onProfilePage (shown pageNum) = true
                 ∧ Some l ∈ articles (shown pageNum)))).
    { simpl. conjs; auto. intros l H.
      destruct (Hl l H) as [H'|H']; [left; exact H'|right; auto]. }
    destruct Hstop as (E' & N' & Hk' & Hl').
    assert (Hnum : (totalPages - S rest)%nat = (pageNum - 1)%nat
                   ∧ (1 ≤ pageNum ≤ totalPages)%nat) by (unfold pageNum; lia).
    destruct Hnum as [Hnum Hrange]. rewrite Hnum.
    assert (Hlast :
      scrapedIdsSet s' = map ProductListing.id (allProducts s')
      ∧ NoDup (scrapedIdsSet s')
      ∧ (∀ k, k ∈ scrapedIdsSet s'
              ↔ k ∈ scrapedIdsSet s
                ∨ ∃ n, (pageNum - 1 < n ≤ pageNum)%nat
                       ∧ (∀ m, (pageNum - 1 < m < n)%nat →
                               nextPageButton (shown m) = true)
                       ∧ on_page (shown n) k)
      ∧ (∀ l, l ∈ allProducts s' →
              l ∈ allProducts s
              ∨ ∃ n, (pageNum - 1 < n ≤ pageNum)%nat
                     ∧ (∀ m, (pageNum - 1 < m < n)%nat →
                             nextPageButton (shown m) = true)
                     ∧ onProfilePage (shown n) = true
                     ∧ Some l ∈ articles (shown n))).
    { conjs; auto.
      - intros k. rewrite Hk'. split.
        + intros [H|H]; [left; exact H|]. right. exists pageNum.
          conjs; [lia|lia| |exact H]. intros m Hm. lia.
        + intros [H|(n & Hn & _ & H)]; [left; exact H|]. right.
          replace pageNum with n by lia. exact H.
      - intros l H. destruct (Hl' l H) as [H'|[H1 H2]]; [left; exact H'|].
        right. exists pageNum. conjs; auto; try lia. }
    destruct (Nat.ltb_spec pageNum totalPages) as [Hlt|Hge].
    + destruct (nextPageButton (shown pageNum)) eqn:Hnext.
      * assert (Hrest : (rest ≤ totalPages)%nat) by lia.
        destruct (IH s' Hrest E' N') as (E2 & N2 & Hk2 & Hl2).
        fold pageNum in Hk2, Hl2.
        conjs; auto.
        -- intros k. rewrite Hk2, Hk'. split.
           ++ intros [[H|H]|(n & Hn & Hm & H)].
              ** left. exact H.
              ** right. exists pageNum. conjs; auto; try lia.
              ** right. exists n. conjs; auto; try lia.
                 intros m Hm'. destruct (decide (m = pageNum)) as [->|Hne];
                   [exact Hnext | apply Hm; lia].
           ++ intros [H|(n & Hn & Hm & H)]; [left; left; exact H|].
              destruct (decide (n = pageNum)) as [->|Hne];
                [left; right; exact H|].
              right. exists n. conjs; auto; try lia.
              intros m Hm'. apply Hm. lia.
        -- intros l H. destruct (Hl2 l H) as [H'|(n & Hn & Hm & H1 & H2)].
           ++ destruct (Hl' l H') as [H''|[H1 H2]]; [left; exact H''|].
              right. exists pageNum. conjs; auto; try lia.
           ++ right. exists n. conjs; auto; try lia.
              intros m Hm'. destruct (decide (m = pageNum)) as [->|Hne];
                [exact Hnext | apply Hm; lia].
      * destruct Hlast as (_ & _ & Hk3 & Hl3).
        conjs; auto.
        -- intros k. rewrite Hk3. split.
           ++ intros [H|(n & Hn & Hm & H)]; [left; exact H|].
              right. exists n. conjs; auto; lia.
           ++ intros [H|(n & Hn & Hm & H)]; [left; exact H|].
              destruct (decide (n = pageNum)) as [->|Hne].
              ** right. exists pageNum. conjs; auto; lia.
              ** assert (Hc : nextPageButton (shown pageNum) = true)
                   by (apply Hm; lia).
                 congruence.
        -- intros l H. destruct (Hl3 l H) as [H'|(n & Hn & Hm & H1 & H2)];
             [left; exact H'|].
           right. exists n. conjs; auto; lia.
    + assert (Hrest : rest = 0%nat) by lia. subst rest.
      cbn [scrapeAllPages_loop].
      destruct Hlast as (_ & _ & Hk3 & Hl3). conjs; auto.
      * intros k. rewrite Hk3.
        split; intros [H|(n & Hn & Hm & H)];
          [left; exact H | right; exists n; conjs; auto; lia
          |left; exact H | right; exists n; conjs; auto; lia].
      * intros l H. destruct (Hl3 l H) as [H'|(n & Hn & Hm & H1 & H2)];
          [left; exact H'|].
        right. exists n. conjs; auto; lia.
Qed.

Lemma scrapeAllPages_result (username : string) (tracked : JsSet.t)
    (st : Storage) :
  let run := scrapeAllPages username shown totalPages tracked st in
  let batch := run.1.1 in
  NoDup (map ProductListing.id batch)
  ∧ run.2 = markMissingAsRemoved st username (map ProductListing.id batch)
  ∧ (∀ k, k ∈ map ProductListing.id batch ↔ seen shown totalPages k)
  ∧ (∀ l, l ∈ batch →
          ∃ n, read_page shown totalPages n
               ∧ onProfilePage (shown n) = true
               ∧ Some l ∈ articles (shown n)).
Proof.
  cbv zeta. unfold scrapeAllPages. simpl.
  destruct (scrapeAllPages_loop_spec totalPages
              (mkScrape [] JsSet.empty tracked) (le_n _) eq_refl
              (NoDup_nil_2 (A := string))) as (E & N & Hk & Hl).
  rewrite Nat.sub_diag in Hk, Hl. unfold JsSet.Array_from.
  rewrite <- E. conjs; auto.
  - intros k. rewrite Hk. unfold seen, read_page. simpl. split.
    + intros [H|(n & Hn & Hm & H)]; [inversion H|].
      exists n. conjs; auto; try lia; intros m Hm'; apply Hm; lia.
    + intros (n & (Hn & Hm) & H). right. exists n.
      conjs; auto; try lia; intros m Hm'; apply Hm; lia.
  - intros l H. destruct (Hl l H) as [H'|(n & Hn & Hm & H1 & H2)];
      [inversion H'|].
    exists n. unfold read_page.
    conjs; auto; try lia; intros m Hm'; apply Hm; lia.
Qed.

(** X22: the batch that [scrapeAllPages] returns has pairwise distinct ids;
    these are the ids sent with MARK_MISSING_AS_REMOVED, and they are the
    ids of the articles of the pages that were read, where page 1 is read
    when there is a page button, and a page after it when the button to it
    was there on the page before.  Every listing of the batch is an article
    of a page that was read. *)
Theorem scrapeAllPages_batch (username : string) (tracked : JsSet.t)
    (st : Storage) :
  let run := scrapeAllPages username shown totalPages tracked st in
  let batch := run.1.1 in
  NoDup (map ProductListing.id batch)
  ∧ run.2 = markMissingAsRemoved st username (map ProductListing.id batch)
  ∧ (∀ k, k ∈ map ProductListing.id batch ↔ seen shown totalPages k)
  ∧ (∀ l, l ∈ batch →
          ∃ n, read_page shown totalPages n
               ∧ onProfilePage (shown n) = true
               ∧ Some l ∈ articles (shown n)).
Proof. apply scrapeAllPages_result. Qed.

Lemma marked_cases (S : gset string) k l :
  (k ∈ S → marked S k l = l)
  ∧ (k ∉ S → marked S k l = ProductListing.with_state l REMOVED).
Proof.
  unfold marked, state_sne. split; intros H.
  - rewrite bool_decide_eq_true_2 by exact H. reflexivity.
  - rewrite bool_decide_eq_false_2 by exact H. simpl.
    destruct (decide (ProductListing.state l = REMOVED)) as [E|E].
    + rewrite bool_decide_eq_true_2 by exact E. simpl.
      destruct l. simpl in E. subst. reflexivity.
    + rewrite bool_decide_eq_false_2 by exact E. reflexivity.
Qed.

(** X23: after [scrapeAllPages], a stored listing of the user whose id was
    seen on a page that was read is as before, and every other stored
    listing of the user has the state REMOVED and is otherwise as before.
    In particular, when the document has no page button, no page is read,
    the batch is empty and every stored listing of the user ends up
    REMOVED. *)
Theorem scrapeAllPages_marks (username : string) (tracked : JsSet.t)
    (st : Storage) :
  let run := scrapeAllPages username shown totalPages tracked st in
  (∀ k l, stored_listings st username !! k = Some l →
     (seen shown totalPages k →
      stored_listings run.2 username !! k = Some l)
     ∧ (¬ seen shown totalPages k →
        stored_listings run.2 username !! k
        = Some (ProductListing.with_state l REMOVED)))
  ∧ (∀ k, stored_listings st username !! k = None →
          stored_listings run.2 username !! k = None)
  ∧ (totalPages = 0%nat →
     run.1.1 = []
     ∧ ∀ k l, stored_listings st username !! k = Some l →
              stored_listings run.2 username !! k
              = Some (ProductListing.with_state l REMOVED)).
Proof.
  cbv zeta. unfold scrapeAllPages. simpl.
  destruct (scrapeAllPages_loop_spec totalPages
              (mkScrape [] JsSet.empty tracked) (le_n _) eq_refl
              (NoDup_nil_2 (A := string))) as (E & N & Hk & Hl).
  rewrite Nat.sub_diag in Hk, Hl. unfold JsSet.Array_from.
  set (s := scrapeAllPages_loop shown totalPages totalPages
              (mkScrape [] JsSet.empty tracked)) in *.
  assert (Hseen : ∀ k, k ∈ scrapedIdsSet s ↔ seen shown totalPages k).
  { intros k. rewrite Hk. unfold seen, read_page. simpl. split.
    - intros [H|(n & Hn & Hm & H)]; [inversion H|].
      exists n. conjs; auto; try lia; intros m Hm'; apply Hm; lia.
    - intros (n & (Hn & Hm) & H). right. exists n.
      conjs; auto; try lia; intros m Hm'; apply Hm; lia. }
  assert (Hmark : ∀ k l, stored_listings st username !! k = Some l →
            (seen shown totalPages k →
             stored_listings
               (markMissingAsRemoved st username (scrapedIdsSet s))
               username !! k = Some l)
            ∧ (¬ seen shown totalPages k →
               stored_listings
                 (markMissingAsRemoved st username (scrapedIdsSet s))
                 username !! k
               = Some (ProductListing.with_state l REMOVED))).
  { intros k l Hstored. rewrite markMissingAsRemoved_listings, Hstored. simpl.
    destruct (marked_cases (list_to_set (scrapedIdsSet s)) k l) as [Hin Hout].
    split; intros H.
    - rewrite Hin; [reflexivity|]. apply elem_of_list_to_set, Hseen, H.
    - rewrite Hout; [reflexivity|]. intros Hc. apply H, Hseen.
      apply elem_of_list_to_set in Hc. exact Hc. }
  conjs.
  - exact Hmark.
  - intros k Hnone. rewrite markMissingAsRemoved_listings, Hnone. reflexivity.
  - intros H0. split.
    + subst totalPages. reflexivity.
    + intros k l Hstored. apply (Hmark k l Hstored).
      intros (n & (Hn & _) & _). lia.
Qed.

End Pages.

Lemma handleSaveProducts_listings now st username newProducts profileName :
  stored_listings
    (handleSaveProducts now st username newProducts profileName).2 username
  = merged (mergeListingsWithStats (stored_listings st username) newProducts).
Proof.
  unfold handleSaveProducts, stored_listings, getProfilesItem. simpl.
  rewrite lookup_insert_eq. reflexivity.
Qed.

Lemma settle_reported o l :
  (o = None ∨ ∃ e, o = Some e ∧ ¬ six_fields_equal e l) →
  reported_by l (settle o l).
Proof.
  unfold settle, reported_by. intros [->|(e & -> & Hdiff)].
  - repeat (split; [reflexivity|]). auto.
  - destruct (hasChanged e l) eqn:Hc.
    + simpl. repeat (split; [reflexivity|]). intros t ->. reflexivity.
    + apply hasChanged_six_fields in Hc. contradiction.
Qed.

(** X24: a click on the scrape button reads the pages, marks what is
    missing and saves the batch.  For a user name other than [__proto__]
    and articles whose ids (digit strings, as [parseArticle] makes them)
    are no names that every object inherits, the numbers it shows are
    exact: the added listings are those of the batch whose id was not
    stored for the user, the updated ones those that differ from the
    listing stored under their id in title, price, state, datePosted, url
    or thumbnail, where a price that is not a number differs from every
    price.  Afterwards each of these is stored with the id and the fields
    it reports, a listing of the batch that equals the stored one in the
    six fields has left it as it was, and every stored listing that was
    not seen has the state REMOVED. *)
Theorem scrapeButton_click_spec (now : string) (username : string)
    (profileName : option string) (shown : nat → ProfilePage)
    (totalPages : nat) (tracked : JsSet.t) (st : Storage) :
  username ≠ "__proto__" →
  (∀ n l, Some l ∈ articles (shown n) →
          ProductListing.id l ∉ Object_prototype) →
  let batch := (scrapeAllPages username shown totalPages tracked st).1.1 in
  let stored := stored_listings st username in
  let run :=
    scrapeButton_click now username profileName shown totalPages tracked st in
  run.1.1 = (length (absent_from stored batch),
             length (differing_from stored batch))
  ∧ (∀ l, l ∈ absent_from stored batch ∨ l ∈ differing_from stored batch →
          ∃ x, stored_listings run.2 username !! ProductListing.id l = Some x
               ∧ reported_by l x)
  ∧ (∀ l e, l ∈ batch → stored !! ProductListing.id l = Some e →
            six_fields_equal e l →
            stored_listings run.2 username !! ProductListing.id l = Some e)
  ∧ (∀ k, ¬ seen shown totalPages k →
          stored_listings run.2 username !! k
          = (fun l => ProductListing.with_state l REMOVED) <$> stored !! k).
Proof.
  intros _ Hids batch stored run.
  destruct (scrapeAllPages_result shown totalPages username tracked st)
    as (Hnd & Hst & Hseen & Hfrom).
  fold batch in Hnd, Hst, Hseen, Hfrom.
  assert (Hown : ∀ l, l ∈ batch → inherited (ProductListing.id l) = false).
  { intros l Hl. destruct (Hfrom l Hl) as (n & _ & _ & Hn).
    apply bool_decide_eq_false_2, (Hids n l Hn). }
  assert (Hrun : run
            = (let '(stats, st2) :=
                 handleSaveProducts now
                   (markMissingAsRemoved st username
                      (map ProductListing.id batch))
                   username batch profileName in
               (stats, (scrapeAllPages username shown totalPages tracked
                          st).1.2, st2))).
  { unfold run, scrapeButton_click. rewrite <- Hst. unfold batch.
    destruct (scrapeAllPages username shown totalPages tracked st)
      as [[b t] s]. reflexivity. }
  set (st1 := markMissingAsRemoved st username (map ProductListing.id batch))
    in *.
  assert (Hkept : ∀ l, l ∈ batch →
            stored_listings st1 username !! ProductListing.id l
            = stored !! ProductListing.id l).
  { intros l Hl. unfold st1. rewrite markMissingAsRemoved_listings.
    fold stored. destruct (stored !! ProductListing.id l) as [e|]; simpl;
      [|reflexivity].
    destruct (marked_cases (list_to_set (map ProductListing.id batch))
                (ProductListing.id l) e) as [Hin _].
    rewrite Hin; [reflexivity|].
    apply elem_of_list_to_set, list_elem_of_In, in_map, list_elem_of_In, Hl. }
  assert (Hlist : stored_listings run.2 username
            = merged (mergeListingsWithStats (stored_listings st1 username)
                        batch)).
  { rewrite Hrun.
    rewrite <- (handleSaveProducts_listings now st1 username batch profileName).
    destruct (handleSaveProducts now st1 username batch profileName)
      as [stats st2]. reflexivity. }
  assert (Hstats : run.1.1
            = (added (mergeListingsWithStats (stored_listings st1 username)
                        batch),
               updated (mergeListingsWithStats (stored_listings st1 username)
                          batch))).
  { rewrite Hrun. unfold handleSaveProducts, stored_listings. reflexivity. }
  assert (Hstore : ∀ l, l ∈ batch →
            stored_listings run.2 username !! ProductListing.id l
            = Some (settle (stored !! ProductListing.id l) l)).
  { intros l Hl. rewrite Hlist. unfold mergeListingsWithStats.
    rewrite merge_fold_elem by assumption. simpl.
    rewrite Hkept by exact Hl. reflexivity. }
  split; [|split; [|split]].
  - rewrite Hstats. unfold mergeListingsWithStats.
    destruct (merge_fold_counts batch
                (mkMerge (stored_listings st1 username) 0 0) Hnd Hown)
      as [Ha Hu].
    simpl in Ha, Hu. rewrite Ha, Hu.
    rewrite <- is_new_absent, <- is_changed_differing. f_equal.
    + f_equal. apply List.filter_ext_in. intros l Hl. unfold is_new.
      rewrite Hkept by (apply list_elem_of_In, Hl). reflexivity.
    + f_equal. apply List.filter_ext_in. intros l Hl. unfold is_changed.
      rewrite Hkept by (apply list_elem_of_In, Hl). reflexivity.
  - intros l Hl.
    assert (Hcase : l ∈ batch
              ∧ (stored !! ProductListing.id l = None
                 ∨ ∃ e, stored !! ProductListing.id l = Some e
                        ∧ ¬ six_fields_equal e l)).
    { unfold absent_from, differing_from in Hl.
      rewrite !list_elem_of_In, !List.filter_In, <- !list_elem_of_In in Hl.
      destruct Hl as [[Hl Hc]|[Hl Hc]]; (split; [exact Hl|]).
      - left. apply bool_decide_eq_true in Hc. exact Hc.
      - right. destruct (stored !! ProductListing.id l) as [e|];
          [|discriminate].
        exists e. split; [reflexivity|].
        apply bool_decide_eq_true in Hc. exact Hc. }
    destruct Hcase as [Hin Hcase].
    eexists. split; [apply Hstore, Hin|]. apply settle_reported, Hcase.
  - intros l e Hl He Hsame. rewrite Hstore by exact Hl. rewrite He. simpl.
    apply hasChanged_six_fields in Hsame. rewrite Hsame. reflexivity.
  - intros k Hk. rewrite Hlist. unfold mergeListingsWithStats.
    assert (Hout : k ∉ map ProductListing.id batch)
      by (intros Hc; apply Hk, Hseen, Hc).
    rewrite merge_fold_other by exact Hout. simpl.
    unfold st1. rewrite markMissingAsRemoved_listings. fold stored.
    destruct (stored !! k) as [e|]; simpl; [|reflexivity].
    destruct (marked_cases (list_to_set (map ProductListing.id batch)) k e)
      as [_ Hmark].
    rewrite Hmark; [reflexivity|].
    intros Hc. apply Hout. apply elem_of_list_to_set in Hc. exact Hc.
Qed.

Lemma scrapeButton_click_spec_witness :
  (scrapeButton_click "2024-03-05T09:00:00.000Z" "alice" None two_pages 2 []
     (Some {["alice" := alice]})).1.1
  = (1%nat, 1%nat).
Proof.
  destruct (scrapeButton_click_spec "2024-03-05T09:00:00.000Z" "alice" None
              two_pages 2 [] (Some {["alice" := alice]}))
    as (Hcounts & _).
  - discriminate.
  - intros n l Hl.
    destruct n as [|[|[|n]]]; simpl in Hl;
      repeat (apply elem_of_cons in Hl as [Hl|Hl];
              [first [discriminate Hl | injection Hl as ->; by_compute]|]);
      inversion Hl.
  - rewrite Hcounts. vm_compute. reflexivity.
Defined.

Section DetailsThenPopup.

Variable Object_entries :
  gmap string ProductListing.t → list (string * ProductListing.t).

Hypothesis Object_entries_own :
  ∀ listings, Object_entries listings ≡ₚ map_to_list listings.

(** X25: once [handleSaveProductDetails] has stored the detail of an ad
    whose listing is stored for the user, [getCombinedProducts] shows the
    product of that listing with the description, the photos and the time of
    the detail; and it shows every product of the user without export
    status, whatever statuses were stored before. *)
Theorem getCombinedProducts_after_details (now : string) (st : Storage)
    (username : string) (detail : ProductDetail.t)
    (listing : ProductListing.t) :
  stored_listings st username !! ProductDetail.id detail = Some listing →
  let products :=
    getCombinedProducts Object_entries
      (handleSaveProductDetails now st username detail) username in
  (∃ product,
     product ∈ products
     ∧ Product.id product = ProductListing.id listing
     ∧ Product.title product = ProductListing.title listing
     ∧ Product.state product = ProductListing.state listing
     ∧ Product.description product = Some (ProductDetail.description detail)
     ∧ Product.photos product = Some (ProductDetail.photos detail)
     ∧ Product.detailsScrapedAt product
       = Some (ProductDetail.scrapedAt detail))
  ∧ (∀ product, product ∈ products → Product.odooExport product = None).
Proof.
  intros Hstored products.
  assert (Hprofile : ∃ profile,
            getProfile (handleSaveProductDetails now st username detail)
                       username = Some profile
            ∧ ProfileData.listings profile = stored_listings st username
            ∧ ProfileData.details profile !! ProductDetail.id detail
              = Some detail
            ∧ ProfileData.odooExports profile = None).
  { unfold handleSaveProductDetails, getProfile, stored_listings. simpl.
    rewrite lookup_insert_eq. eexists. split; [reflexivity|]. simpl.
    split; [reflexivity|]. split; [apply lookup_insert_eq | reflexivity]. }
  destruct Hprofile as (profile & Hp & Hl & Hd & He).
  assert (Hin : ∀ product,
            product ∈ products
            ↔ ∃ id l, ProfileData.listings profile !! id = Some l
                      ∧ product
                        = combine_entry (ProfileData.details profile)
                            (ProfileData.odooExports profile) (id, l)).
  { intros product. unfold products, getCombinedProducts. rewrite Hp.
    unfold combineListingsWithDetails.
    rewrite list_elem_of_In, in_map_iff. split.
    - intros ([id l] & <- & H). exists id, l. split; [|reflexivity].
      apply elem_of_map_to_list. rewrite <- (Object_entries_own _).
      apply list_elem_of_In, H.
    - intros (id & l & H & ->). exists (id, l). split; [reflexivity|].
      apply list_elem_of_In. rewrite (Object_entries_own _).
      apply elem_of_map_to_list, H. }
  split.
  - exists (combine_entry (ProfileData.details profile)
              (ProfileData.odooExports profile)
              (ProductDetail.id detail, listing)).
    split.
    + apply Hin. exists (ProductDetail.id detail), listing.
      rewrite Hl. auto.
    + simpl. rewrite Hd. simpl. repeat split; reflexivity.
  - intros product H. apply Hin in H as (id & l & _ & ->).
    simpl. rewrite He. reflexivity.
Qed.

End DetailsThenPopup.

Lemma getCombinedProducts_after_details_witness :
  let st := Some {["alice" := alice]} in
  stored_listings st "alice" !! ProductDetail.id detail7
  = Some (listing "7" "Wagon Jouef" 12 Missing)
  ∧ ∀ product,
      product ∈ getCombinedProducts map_to_list
                  (handleSaveProductDetails "2024-03-01T08:00:01.000Z" st
                     "alice" detail7) "alice" →
      Product.odooExport product = None.
Proof.
  intros st.
  assert (H : stored_listings st "alice" !! ProductDetail.id detail7
              = Some (listing "7" "Wagon Jouef" 12 Missing))
    by (vm_compute; reflexivity).
  split; [exact H|].
  apply (getCombinedProducts_after_details map_to_list
           (fun listings => Permutation_refl _)
           "2024-03-01T08:00:01.000Z" st "alice" detail7 _ H).
Defined.

Lemma endsWith_slash s : endsWith (s ++ "/") "/" = true.
Proof.
  induction s as [|c s IH]; [reflexivity|].
  change (String c s ++ "/") with (String c (s ++ "/")).
  cbn [endsWith]. rewrite IH. apply orb_true_r.
Qed.

Lemma slice_slash s : slice_0_m1 (s ++ "/") = s.
Proof.
  induction s as [|c s IH]; [reflexivity|].
  change (String c s ++ "/") with (String c (s ++ "/")).
  cbn [slice_0_m1]. rewrite IH.
  destruct s; reflexivity.
Qed.

Lemma endsWith_cons c s k :
  s ≠ "" → String.length k = 1%nat →
  endsWith (String c s) k = endsWith s k.
Proof.
  intros Hs Hk. cbn [endsWith].
  destruct k as [|c1 [|c2 k]]; try discriminate.
  destruct s as [|c' s]; [contradiction|].
  replace (String c (String c' s) =? String c1 "")%string with false;
    [reflexivity|].
  symmetry. apply String.eqb_neq. discriminate.
Qed.

Lemma startsWith_slash s : startsWith ("/" ++ s) "/" = true.
Proof.
  change ("/" ++ s) with (String "/" s).
  unfold startsWith. cbn [String.prefix].
  destruct (ascii_dec "/" "/"); [destruct s; reflexivity | contradiction].
Qed.

Lemma startsWith_app s k :
  s ≠ "" → startsWith (s ++ k) "/" = startsWith s "/".
Proof.
  intros Hs. destruct s as [|c s]; [contradiction|].
  change (String c s ++ k) with (String c (s ++ k)).
  unfold startsWith. cbn [String.prefix].
  destruct (ascii_dec "/" c); [|reflexivity].
  destruct s, k; reflexivity.
Qed.

(** X26: the address of a request does not depend on how the slashes were
    written in the configuration.  For a URL [u] without slash at its end, a
    non-empty path [p] without slash at either end and an endpoint [e]
    without slash at its start, every way to write the URL with or without
    a slash at its end, the path with or without a slash at its start and at
    its end and the endpoint with or without a slash at its start gives the
    address [u/p/e]; without a path, or with the empty path, the address is
    [u/json/2/e]. *)
Theorem buildApiUrl_slashes (u key p e u' p0 p' e' : string) :
  endsWith u "/" = false →
  p ≠ "" → startsWith p "/" = false → endsWith p "/" = false →
  startsWith e "/" = false →
  slash_after u u' → slash_before p p0 → slash_after p0 p' →
  slash_before e e' →
  buildApiUrl (constructor (OdooConfig.mk u' key (Some p'))) e'
  = u ++ "/" ++ p ++ "/" ++ e
  ∧ buildApiUrl (constructor (OdooConfig.mk u' key None)) e'
    = u ++ "/json/2/" ++ e
  ∧ buildApiUrl (constructor (OdooConfig.mk u' key (Some ""))) e'
    = u ++ "/json/2/" ++ e.
Proof.
  intros Hu Hp Hps Hpe He Hu' Hp0 Hp' He'.
  assert (Hurl : (if endsWith u' "/" then slice_0_m1 u' else u') = u).
  { destruct Hu' as [->| ->]; [rewrite Hu; reflexivity|].
    rewrite endsWith_slash. apply slice_slash. }
  assert (Hend : (if negb (startsWith e' "/") then "/" ++ e' else e')
                 = "/" ++ e).
  { destruct He' as [->| ->];
      [rewrite He | rewrite startsWith_slash]; reflexivity. }
  assert (Hp0ne : p0 ≠ "") by (destruct Hp0 as [->| ->]; [exact Hp|discriminate]).
  assert (Hp'ne : JsString.truthy p' = true).
  { destruct Hp' as [->| ->]; [destruct p0; [contradiction|reflexivity]|].
    destruct p0; reflexivity. }
  assert (Hpath :
    (let a := if negb (startsWith p' "/") then "/" ++ p' else p' in
     if endsWith a "/" then slice_0_m1 a else a) = "/" ++ p).
  { cbv zeta.
    assert (Hlead : (if negb (startsWith p' "/") then "/" ++ p' else p')
                    = "/" ++ p ∨
                    (if negb (startsWith p' "/") then "/" ++ p' else p')
                    = ("/" ++ p) ++ "/").
    { destruct Hp' as [->| ->].
      - left. destruct Hp0 as [->| ->];
          [rewrite Hps | rewrite startsWith_slash]; reflexivity.
      - right. rewrite startsWith_app by exact Hp0ne.
        destruct Hp0 as [->| ->];
          [rewrite Hps | rewrite startsWith_slash]; reflexivity. }
    destruct Hlead as [-> | ->].
    - change ("/" ++ p) with (String "/" p) at 1.
      rewrite endsWith_cons by (auto; reflexivity). rewrite Hpe. reflexivity.
    - rewrite endsWith_slash. apply slice_slash. }
  cbv zeta in Hpath.
  unfold buildApiUrl, constructor. cbn [OdooConfig.url OdooConfig.apiPath
    OdooConfig.apiKey default]. rewrite Hurl, Hend, Hp'ne, Hpath.
  split; [|split; reflexivity].
  reflexivity.
Qed.

Lemma buildApiUrl_slashes_witness :
  buildApiUrl
    (constructor (OdooConfig.mk "https://shop.example/" "k" (Some "api/v1/")))
    "product.tag/search_read"
  = "https://shop.example/api/v1/product.tag/search_read".
Proof.
  refine (proj1 (buildApiUrl_slashes "https://shop.example" "k" "api/v1"
                   "product.tag/search_read" "https://shop.example/" "api/v1"
                   "api/v1/" "product.tag/search_read" _ _ _ _ _ _ _ _ _));
    try reflexivity; try discriminate;
    try (left; reflexivity); try (right; reflexivity).
Defined.

(** * Further properties of the classification *)

Lemma prefix_trans a : ∀ b c,
  String.prefix a b = true → String.prefix b c = true →
  String.prefix a c = true.
Proof.
  induction a as [|x a IH]; intros b c Hab Hbc; [destruct c; reflexivity|].
  destruct b as [|y b]; [discriminate|].
  destruct c as [|z c]; [discriminate|].
  cbn [String.prefix] in *.
  destruct (ascii_dec x y) as [->|]; [|discriminate].
  destruct (ascii_dec y z) as [->|]; [|discriminate].
  eapply IH; eassumption.
Qed.

Lemma includes_prefix k' k : String.prefix k' k = true →
  ∀ word, JsString.includes word k = true → JsString.includes word k' = true.
Proof.
  intros Hk. induction word as [|c word IH]; cbn [JsString.includes];
    rewrite !orb_true_iff; intros [H|H]; try discriminate.
  - left. eapply prefix_trans; eassumption.
  - left. eapply prefix_trans; eassumption.
  - right. apply IH, H.
Qed.

(** X27: the one keyword of the tag H0, "ho", is the start of the keyword
    "hornby": every product that [getTags] gives the tag Hornby gets the tag
    H0 as well, whatever its title says about the gauge. *)
Theorem getTags_Hornby_H0 (product : Product.t) :
  "Hornby" ∈ getTags product → "H0" ∈ getTags product.
Proof.
  rewrite !getTags_elem.
  intros (keywords & Hin & keyword & word & Hk & Hw & Hi).
  assert (Hkw : keywords = ["hornby"]).
  { unfold TAGS_MAP in Hin.
    repeat (apply elem_of_cons in Hin as [Hin|Hin];
            [pose proof (f_equal fst Hin) as Ht;
             pose proof (f_equal snd Hin) as Hkw; simpl in Ht, Hkw;
             first [discriminate Ht | exact Hkw]|]).
    inversion Hin. }
  subst keywords. apply list_elem_of_singleton in Hk. subst keyword.
  exists ["ho"]. split; [by_compute|].
  exists "ho", word. split; [apply list_elem_of_singleton; reflexivity|].
  split; [exact Hw|].
  apply (includes_prefix "ho" "hornby"); [reflexivity | exact Hi].
Qed.

Lemma getTags_Hornby_H0_witness :
  "H0" ∈ getTags (titled "Locomotive Hornby OO").
Proof.
  apply getTags_Hornby_H0. by_compute.
Defined.
